(** * Sidewise: association and reconciliation of live tabs with the page tree

    A shallow embedding of the association engine of
    [src/js/ui/classes/FancyTree.dragDrop.js] (constants, URL helpers,
    [findPageNodeForAssociation], [tryFastAssociateTab], [tryAssociateTab],
    [associatePagesCheck], [associateTabToPageNode],
    [associateWindowstoWindowNodes], [disambiguatePageNodesByWindowId],
    [mergeWindowsPreservingTabIndexes], [rectifyAssociations]) and of the
    [PageNode] constructor, followed by the properties established about
    them. *)

From Stdlib Require Import ZArith QArith Qround Qabs List String Ascii Bool Lia DecimalString Sorted.
From Stdlib Require Import Floats.SpecFloat.
From stdpp Require Import gmap strings.
From Equations Require Import Equations.
Import ListNotations.

Local Open Scope string_scope.
Local Open Scope list_scope.
Local Open Scope Z_scope.

(* ===================================================================== *)
(** * JavaScript values used by the engine *)
(* ===================================================================== *)

Module Js.

(** Identifiers handed out by the browser ([tab.id], [tab.windowId]) and
    tab positions are integers; [null]/[undefined] is [None].  Loose
    equality [==] between two such values is equality of the options
    ([null == null] holds, [null == 0] does not). *)
Definition looseEq (a b : option Z) : bool :=
  match a, b with
  | Some x, Some y => x =? y
  | None, None => true
  | _, _ => false
  end.

(** [x + k] where [x] may be [null]: [null] converts to [0]. *)
Definition toNumber (a : option Z) : Z :=
  match a with Some x => x | None => 0 end.

(** [a || d] for a number-or-undefined [a]: [0] and [undefined] are falsy. *)
Definition orDefault (a : option Z) (d : Z) : Z :=
  match a with
  | Some x => if x =? 0 then d else x
  | None => d
  end.

(** [array.indexOf(x)]: the first position of [x], or [-1]. *)
Fixpoint indexOf (x : Z) (l : list Z) : Z :=
  match l with
  | [] => -1
  | y :: l' => if y =? x then 0 else
      let r := indexOf x l' in if r <? 0 then -1 else r + 1
  end.

(** [array.splice(start, deleteCount)] with no inserted items: a negative
    [start] counts from the end, and both arguments are clamped to the
    array. *)
Definition splice {A} (start deleteCount : Z) (l : list A) : list A :=
  let len := Z.of_nat (length l) in
  let s := if start <? 0 then Z.max (len + start) 0 else Z.min start len in
  let dc := Z.min (Z.max deleteCount 0) (len - s) in
  firstn (Z.to_nat s) l ++ skipn (Z.to_nat (s + dc)) l.

End Js.

(* ===================================================================== *)
(** * Regular expressions

    The source tests urls and referrers against anchored regular
    expression literals.  They are embedded as a small regular-expression
    syntax with Brzozowski derivatives; [test] is the unanchored-at-the-end
    search from the start of the subject that [^...] patterns perform.
    Strings are sequences of 8-bit characters, which is what urls are. *)
(* ===================================================================== *)

Module Regex.

Inductive re : Type :=
| Void                       (* matches nothing *)
| Eps                        (* matches the empty string *)
| Cls (p : ascii -> bool)    (* one character satisfying [p] *)
| Seq (a b : re)
| Alt (a b : re)
| Star (a : re).

(** [.] matches any character except a line terminator. *)
Definition isLineTerminator (c : ascii) : bool :=
  (Ascii.eqb c "010"%char) || (Ascii.eqb c "013"%char).
Definition Dot : re := Cls (fun c => negb (isLineTerminator c)).
Definition Chr (c : ascii) : re := Cls (Ascii.eqb c).
Definition Plus (a : re) : re := Seq a (Star a).
Definition Opt (a : re) : re := Alt a Eps.

(** A literal string. *)
Fixpoint Lit (s : string) : re :=
  match s with
  | EmptyString => Eps
  | String c s' => Seq (Chr c) (Lit s')
  end.

Definition isDigit (c : ascii) : bool :=
  let n := nat_of_ascii c in (48 <=? n)%nat && (n <=? 57)%nat.
Definition isAlnum (c : ascii) : bool :=
  let n := nat_of_ascii c in
  ((48 <=? n)%nat && (n <=? 57)%nat)
  || ((65 <=? n)%nat && (n <=? 90)%nat)
  || ((97 <=? n)%nat && (n <=? 122)%nat).

Fixpoint nullable (r : re) : bool :=
  match r with
  | Void => false
  | Eps => true
  | Cls _ => false
  | Seq a b => nullable a && nullable b
  | Alt a b => nullable a || nullable b
  | Star _ => true
  end.

(** Smart constructors keep derivatives small. *)
Definition seq' (a b : re) : re :=
  match a, b with
  | Void, _ => Void
  | _, Void => Void
  | Eps, _ => b
  | _, _ => Seq a b
  end.
Definition alt' (a b : re) : re :=
  match a, b with
  | Void, _ => b
  | _, Void => a
  | _, _ => Alt a b
  end.

Fixpoint deriv (c : ascii) (r : re) : re :=
  match r with
  | Void => Void
  | Eps => Void
  | Cls p => if p c then Eps else Void
  | Seq a b =>
      if nullable a then alt' (seq' (deriv c a) b) (deriv c b)
      else seq' (deriv c a) b
  | Alt a b => alt' (deriv c a) (deriv c b)
  | Star a => seq' (deriv c a) (Star a)
  end.

(** The strings a regular expression matches. *)
Inductive Matches : re -> string -> Prop :=
| MEps : Matches Eps ""
| MCls p c : p c = true -> Matches (Cls p) (String c "")
| MSeq a b s1 s2 : Matches a s1 -> Matches b s2 -> Matches (Seq a b) (String.append s1 s2)
| MAltL a b s : Matches a s -> Matches (Alt a b) s
| MAltR a b s : Matches b s -> Matches (Alt a b) s
| MStar0 a : Matches (Star a) ""
| MStarS a s1 s2 :
    Matches a s1 -> Matches (Star a) s2 -> Matches (Star a) (String.append s1 s2).

(** Does the whole of [s] match [r]? *)
Fixpoint fullMatch (r : re) (s : string) : bool :=
  match s with
  | EmptyString => nullable r
  | String c s' => fullMatch (deriv c r) s'
  end.

(** Does some prefix of [s] match [r]?  This is [/^r/.test(s)]. *)
Fixpoint test (r : re) (s : string) : bool :=
  nullable r ||
  match s with
  | EmptyString => false
  | String c s' => test (deriv c r) s'
  end.

(** Length of the longest prefix of [s] matching [r], if any. *)
Fixpoint longestPrefix (r : re) (s : string) : option nat :=
  let here := if nullable r then Some 0%nat else None in
  match s with
  | EmptyString => here
  | String c s' =>
      match longestPrefix (deriv c r) s' with
      | Some n => Some (S n)
      | None => here
      end
  end.

Fixpoint drop (n : nat) (s : string) : string :=
  match n, s with
  | O, _ => s
  | S n', String _ s' => drop n' s'
  | S _, EmptyString => EmptyString
  end.

(** [s.replace(/r/g, '')] for a pattern [r] that never matches the empty
    string and whose greedy match is its longest match. *)
Fixpoint removeAll_fuel (fuel : nat) (r : re) (s : string) : string :=
  match fuel with
  | O => s
  | S fuel' =>
      match s with
      | EmptyString => EmptyString
      | String c s' =>
          match longestPrefix r s with
          | Some (S n) => removeAll_fuel fuel' r (drop n s')
          | _ => String c (removeAll_fuel fuel' r s')
          end
      end
  end.
Definition removeAll (r : re) (s : string) : string :=
  removeAll_fuel (S (String.length s)) r s.

(** [s.replace(/r$/, '')]: cut [s] at the leftmost position from which the
    rest of the string matches [r] entirely. *)
Fixpoint removeToEnd (r : re) (s : string) : string :=
  if fullMatch r s then EmptyString
  else match s with
       | EmptyString => EmptyString
       | String c s' => String c (removeToEnd r s')
       end.

End Regex.

(* ===================================================================== *)
(** * URL helpers and constants *)
(* ===================================================================== *)

Import Regex.

(** [isScriptableUrl]: the two patterns handed to [url.match]. *)
Definition NON_SCRIPTABLE_SCHEME_REGEXP : re :=
  Seq (Alt (Lit "about")
      (Alt (Lit "file")
      (Alt (Lit "view-source")
           (Seq (Lit "chrome") (Star Dot)))))
      (Chr ":").

Definition WEBSTORE_REGEXP : re :=
  Seq (Lit "http") (Seq (Opt (Chr "s")) (Seq (Lit "://chrome")
  (Seq Dot (Seq (Lit "google") (Seq Dot (Lit "com/webstore")))))).

Definition isScriptableUrl (url : string) : bool :=
  negb (String.eqb url ""
        || test NON_SCRIPTABLE_SCHEME_REGEXP url
        || test WEBSTORE_REGEXP url).

Definition ASSOCIATE_PAGES_CHECK_INTERVAL_MS : Z := 1000.
Definition ASSOCIATE_PAGES_CHECK_INTERVAL_MS_SLOW : Z := 10000.
Definition ASSOCIATE_STUBBORN_TAB_FALLBACK_THRESHOLD_MS : Z := 15000.

(** When the referrer of a tab matches this regular expression, Chrome is
    known to sometimes blank out such referrers of tabs created during
    session restores or undo-closed-tabs. *)
Definition CHROME_BLANKABLE_REFERRER_REGEXP : re :=
  Seq (Lit "http") (Seq (Plus Dot) (Seq (Lit "google") (Seq (Plus Dot)
  (Seq (Chr "/")
       (Alt (Seq (Lit "search?") (Seq (Star Dot)
              (Seq (Lit "sugexp=chrome,mod=") (Seq (Plus (Cls isDigit))
                   (Lit "&sourceid=chrome")))))
            (Seq (Lit "url?") (Seq (Star Dot) (Lit "source=web")))))))).

Definition GOOGLE_SEARCH_REGEXP : re :=
  Seq (Lit "http") (Seq (Opt (Chr "s")) (Seq (Lit "://") (Seq (Star Dot)
  (Seq (Lit "google") (Seq (Star Dot) (Lit "/search?q=")))))).

Definition isGoogleSearchUrl (url : string) : bool :=
  test GOOGLE_SEARCH_REGEXP url.

Definition getGoogleTestUrl (url : string) : string :=
  removeToEnd (Seq (Chr "#") (Plus Dot))
    (removeAll (Seq (Lit "sei=") (Plus (Cls isAlnum))) url).

(* ===================================================================== *)
(** * Live tabs and page-tree nodes *)
(* ===================================================================== *)

(** A tab as reported by [chrome.tabs.query] / [chrome.tabs.get]. *)
Module Tab.
Record t : Type := mk {
  id : Z;
  windowId : Z;
  index : Z;
  url : string;
  pinned : bool;
  incognito : bool;
  active : bool
}.
End Tab.

Inductive ElemType : Type := page | window | folder.

Definition ElemType_eqb (a b : ElemType) : bool :=
  match a, b with
  | page, page | window, window | folder, folder => true
  | _, _ => false
  end.

(** The attributes of a node of the page tree that the engine reads or
    writes.  [id] is the stable internal id and stands for the identity of
    the JavaScript object. *)
Record NodeData : Type := mkNodeData {
  id : string;
  elemType : ElemType;
  chromeId : option Z;
  windowId : option Z;
  index : option Z;
  url : string;
  title : string;
  referrer : string;
  historylength : Z;
  pinned : bool;
  incognito : bool;
  hibernated : bool;
  restorable : bool;
  restored : bool;
  collapsed : bool
}.

#[warnings="-register-all"]
Inductive Node : Type :=
| MkNode (data : NodeData) (children : list Node).

Definition data (n : Node) : NodeData := match n with MkNode d _ => d end.
Definition children (n : Node) : list Node := match n with MkNode _ cs => cs end.

(** The tree is the list of children of the root node. *)
Definition Tree : Type := list Node.

Definition showZ (z : Z) : string := DecimalString.NilZero.string_of_int (Z.to_int z).

(** [new PageNode(tab)] for a live tab (the favicon, title and status
    computed by helpers outside the engine are not kept). *)
Definition PageNode (tab : Tab.t) : Node :=
  MkNode {| id := String.append "p" (showZ (Tab.id tab));
            elemType := page;
            chromeId := Some (Tab.id tab);
            windowId := Some (Tab.windowId tab);
            index := Some (Tab.index tab);
            url := Tab.url tab;
            title := "";
            referrer := "";
            historylength := 1;
            pinned := Tab.pinned tab;
            incognito := Tab.incognito tab;
            hibernated := false;
            restorable := false;
            restored := false;
            collapsed := false |} [].

Definition isPageNode (n : Node) : bool := ElemType_eqb (elemType (data n)) page.
Definition isWindowNode (n : Node) : bool := ElemType_eqb (elemType (data n)) window.

(** [PageNode.prototype.isTab] returns [!this.hibernated]; nodes of the
    other kinds are never tabs. *)
Definition isTab (n : Node) : bool := isPageNode n && negb (hibernated (data n)).

(** An attribute assignment of a [details] object passed to
    [tree.updateNode]. *)
Inductive Detail : Type :=
| set_chromeId (v : option Z)
| set_windowId (v : option Z)
| set_index (v : option Z)
| set_title (v : string)
| set_referrer (v : string)
| set_historylength (v : Z)
| set_pinned (v : bool)
| set_hibernated (v : bool)
| set_restorable (v : bool)
| set_restored (v : bool)
| set_collapsed (v : bool).

Definition applyDetail (d : NodeData) (a : Detail) : NodeData :=
  match a with
  | set_chromeId v => mkNodeData (id d) (elemType d) v (windowId d) (index d) (url d) (title d) (referrer d) (historylength d) (pinned d) (incognito d) (hibernated d) (restorable d) (restored d) (collapsed d)
  | set_windowId v => mkNodeData (id d) (elemType d) (chromeId d) v (index d) (url d) (title d) (referrer d) (historylength d) (pinned d) (incognito d) (hibernated d) (restorable d) (restored d) (collapsed d)
  | set_index v => mkNodeData (id d) (elemType d) (chromeId d) (windowId d) v (url d) (title d) (referrer d) (historylength d) (pinned d) (incognito d) (hibernated d) (restorable d) (restored d) (collapsed d)
  | set_title v => mkNodeData (id d) (elemType d) (chromeId d) (windowId d) (index d) (url d) v (referrer d) (historylength d) (pinned d) (incognito d) (hibernated d) (restorable d) (restored d) (collapsed d)
  | set_referrer v => mkNodeData (id d) (elemType d) (chromeId d) (windowId d) (index d) (url d) (title d) v (historylength d) (pinned d) (incognito d) (hibernated d) (restorable d) (restored d) (collapsed d)
  | set_historylength v => mkNodeData (id d) (elemType d) (chromeId d) (windowId d) (index d) (url d) (title d) (referrer d) v (pinned d) (incognito d) (hibernated d) (restorable d) (restored d) (collapsed d)
  | set_pinned v => mkNodeData (id d) (elemType d) (chromeId d) (windowId d) (index d) (url d) (title d) (referrer d) (historylength d) v (incognito d) (hibernated d) (restorable d) (restored d) (collapsed d)
  | set_hibernated v => mkNodeData (id d) (elemType d) (chromeId d) (windowId d) (index d) (url d) (title d) (referrer d) (historylength d) (pinned d) (incognito d) v (restorable d) (restored d) (collapsed d)
  | set_restorable v => mkNodeData (id d) (elemType d) (chromeId d) (windowId d) (index d) (url d) (title d) (referrer d) (historylength d) (pinned d) (incognito d) (hibernated d) v (restored d) (collapsed d)
  | set_restored v => mkNodeData (id d) (elemType d) (chromeId d) (windowId d) (index d) (url d) (title d) (referrer d) (historylength d) (pinned d) (incognito d) (hibernated d) (restorable d) v (collapsed d)
  | set_collapsed v => mkNodeData (id d) (elemType d) (chromeId d) (windowId d) (index d) (url d) (title d) (referrer d) (historylength d) (pinned d) (incognito d) (hibernated d) (restorable d) (restored d) v
  end.

Definition applyDetails (details : list Detail) (d : NodeData) : NodeData :=
  fold_left applyDetail details d.

(* ===================================================================== *)
(** * The tree store

    The storage engine ([tree.filter], [tree.getNode], [tree.updateNode],
    [tree.moveNodeRel], [tree.mergeNodes], [node.topParent]) is consumed by
    the engine through its query/mutation interface. *)
(* ===================================================================== *)

Module DataTree.

(** Modelled from the spec: the traversal order of [tree.filter],
    [tree.reduce], [tree.groupBy] and [tree.getNode], which live in the
    tree storage engine: a node is visited before its children, siblings
    in order. *)
Fixpoint subtree (n : Node) : list Node :=
  match n with
  | MkNode _ cs => n :: flat_map subtree cs
  end.

Definition nodes (inArray : list Node) : list Node := flat_map subtree inArray.

(** Modelled from the spec: [tree.filter(fn, inArray)], a filter by an
    arbitrary predicate over an optional subtree scope (the whole tree
    when [inArray] is [undefined]). *)
Definition filter (tree : Tree) (fn : Node -> bool) (inArray : option (list Node)) : list Node :=
  List.filter fn (nodes (match inArray with Some a => a | None => tree end)).

(** Modelled from the spec: [tree.getNode(fn)], the first node satisfying
    the predicate. *)
Definition getNode (tree : Tree) (fn : Node -> bool) : option Node :=
  List.find fn (nodes tree).

(** [tree.getNode(id)] and [tree.getNode(['chromeId', v])]. *)
Definition getNodeById (tree : Tree) (i : string) : option Node :=
  getNode tree (fun n => String.eqb (id (data n)) i).
Definition getNodeByChromeId (tree : Tree) (v : Z) : option Node :=
  getNode tree (fun n => Js.looseEq (chromeId (data n)) (Some v)).

(** Modelled from the spec: [tree.updateNode(node, details)], a partial
    patch of the attributes of the node. *)
Fixpoint updateNodeIn (target : string) (details : list Detail) (n : Node) : Node :=
  match n with
  | MkNode d cs =>
      MkNode (if String.eqb (id d) target then applyDetails details d else d)
             (map (updateNodeIn target details) cs)
  end.

Definition updateNode (target : string) (details : list Detail) (tree : Tree) : Tree :=
  map (updateNodeIn target details) tree.

(** Modelled from the spec: [node.topParent()], the top-level ancestor of
    the node (a top-level node is its own top parent). *)
Definition topParent (tree : Tree) (i : string) : option Node :=
  List.find (fun top => existsb (fun n => String.eqb (id (data n)) i) (subtree top)) tree.

Inductive Relation : Type := before | after | prepend | append.

Fixpoint detachIn (i : string) (n : Node) : Node :=
  match n with
  | MkNode d cs =>
      MkNode d (flat_map (fun c => if String.eqb (id (data c)) i then []
                                   else [detachIn i c]) cs)
  end.

Definition detach (i : string) (tree : Tree) : Tree :=
  flat_map (fun c => if String.eqb (id (data c)) i then [] else [detachIn i c]) tree.

Fixpoint attachAmong (inside : Node -> Node) (n : Node) (relation : Relation)
    (to : string) (siblings : list Node) : list Node :=
  match siblings with
  | [] => []
  | c :: rest =>
      if String.eqb (id (data c)) to then
        match relation with
        | before => n :: c :: rest
        | after => c :: n :: rest
        | prepend => MkNode (data c) (n :: children c) :: rest
        | append => MkNode (data c) (children c ++ [n]) :: rest
        end
      else inside c :: attachAmong inside n relation to rest
  end.

Fixpoint attachIn (n : Node) (relation : Relation) (to : string) (x : Node) : Node :=
  match x with
  | MkNode d cs => MkNode d (attachAmong (attachIn n relation to) n relation to cs)
  end.

Definition attach (n : Node) (relation : Relation) (to : string) (tree : Tree) : Tree :=
  attachAmong (attachIn n relation to) n relation to tree.

(** Modelled from the spec: [tree.moveNodeRel(moving, relation, to)], which
    moves a node relative to another.  A move whose node or target cannot
    be found leaves the tree as it is. *)
Definition moveNodeRel (moving : string) (relation : Relation) (to : string) (tree : Tree) : Tree :=
  match getNodeById tree moving with
  | None => tree
  | Some n =>
      let tree' := detach moving tree in
      match getNodeById tree' to with
      | None => tree
      | Some _ => attach n relation to tree'
      end
  end.

(** Modelled from the spec: [tree.mergeNodes(a, b)], which collapses two
    nodes into one, combining children: the children still under [a] are
    appended to those of [b] and [a] is removed. *)
Fixpoint appendChildrenIn (cs' : list Node) (to : string) (n : Node) : Node :=
  match n with
  | MkNode d cs =>
      if String.eqb (id d) to then MkNode d (cs ++ cs')
      else MkNode d (map (appendChildrenIn cs' to) cs)
  end.

Definition mergeNodes (a b : string) (tree : Tree) : Tree :=
  match getNodeById tree a with
  | None => tree
  | Some na => map (appendChildrenIn (children na) b) (detach a tree)
  end.

End DataTree.

(* ===================================================================== *)
(** * Matcher: [findPageNodeForAssociation] *)
(* ===================================================================== *)

(** The [params] object of [findPageNodeForAssociation]; an omitted
    criterion ([undefined]) is [None], an omitted flag is [false]. *)
Module Params.
Record t : Type := mk {
  mustBeHibernated : bool;
  mustBeRestorable : bool;
  topParentMustBeRealOrRestorableWindow : bool;
  url : string;
  title : option string;
  referrer : option string;
  historylength : option Z;
  pinned : option bool;
  incognito : option bool;
  notMatchingNode : option string
}.

Definition withoutReferrer (p : t) : t :=
  mk (mustBeHibernated p) (mustBeRestorable p)
     (topParentMustBeRealOrRestorableWindow p) (url p) (title p) None
     (historylength p) (pinned p) (incognito p) (notMatchingNode p).
End Params.

(** [r] when it is not blankable, the empty string when it is: the value
    of [fallbackReferrer] / [fallbackNodeReferrer]. *)
Definition blankedReferrer (r : string) : string :=
  if negb (String.eqb r "") && test CHROME_BLANKABLE_REFERRER_REGEXP r
  then "" else r.

Definition isTruthyString (s : option string) : bool :=
  match s with
  | Some v => negb (String.eqb v "")
  | None => false
  end.

Definition optEqb {A} (eqb : A -> A -> bool) (criterion : option A) (v : A) : bool :=
  match criterion with
  | None => true
  | Some c => eqb v c
  end.

Definition testNodeForAssociation (tree : Tree) (params : Params.t) (node : Node) : bool :=
  let fallbackReferrer := option_map blankedReferrer (Params.referrer params) in
  let testUrl := Params.url params in
  let matchingGoogleUrl := isGoogleSearchUrl testUrl in
  let d := data node in
  if negb (isPageNode node) then false
  else if matchingGoogleUrl && negb (isGoogleSearchUrl (url d)) then false
  else
    let urlMatch :=
      if negb matchingGoogleUrl then String.eqb testUrl (url d)
      else String.eqb (getGoogleTestUrl (url d)) (getGoogleTestUrl testUrl) in
    let matched :=
      (negb (Params.mustBeHibernated params) || hibernated d)
      && (negb (Params.mustBeRestorable params) || restorable d)
      && urlMatch
      && (negb (isTruthyString (Params.title params))
          || optEqb String.eqb (Params.title params) (title d))
      && optEqb Bool.eqb (Params.incognito params) (incognito d)
      && optEqb Bool.eqb (Params.pinned params) (pinned d)
      && optEqb Z.eqb (Params.historylength params) (historylength d)
      && match Params.notMatchingNode params with
         | None => true
         | Some other => negb (String.eqb (id d) other)
         end in
    if negb matched then false
    else if Params.topParentMustBeRealOrRestorableWindow params
            && match DataTree.topParent tree (id d) with
               | None => true
               | Some topParent =>
                   negb (isWindowNode topParent)
                   || (negb (restorable (data topParent))
                       && hibernated (data topParent))
               end
    then false
    else
      match Params.referrer params with
      | None => true
      | Some r =>
          if String.eqb r (referrer d) then true
          else if match Params.pinned params with
                  | Some true => pinned d
                  | _ => false
                  end
          then true
          else
            let fallbackNodeReferrer := blankedReferrer (referrer d) in
            match fallbackReferrer with
            | Some f => String.eqb f fallbackNodeReferrer
            | None => false
            end
      end.

Definition findPageNodeForAssociation (tree : Tree) (params : Params.t) : option Node :=
  DataTree.getNode tree (testNodeForAssociation tree params).

Definition findAllPageNodesForAssociation (tree : Tree) (params : Params.t) : list Node :=
  DataTree.filter tree (testNodeForAssociation tree params) None.

(* ===================================================================== *)
(** * Association runs: state, collaborators and effects *)
(* ===================================================================== *)

(** The [runInfo] object of an association run.  It is shared between
    [associationRuns[runId]] and the callers holding it, so the functions
    below address it through its [runId]. *)
Module RunInfo.
Record t : Type := mk {
  runId : string;
  total : Z;
  count : Z;
  tabIds : list Z
}.
End RunInfo.

(** Calls made to collaborators whose completion is not part of the
    engine: messages to content scripts, timers, asynchronous host
    queries. *)
Inductive Effect : Type :=
| GetPageDetails (tabId : Z) (action : string) (runId : option string)
| TimeoutReset (label : string) (delay : Z)
| TimeoutClear (label : string)
| QueryTabsOfWindow (windowId : Z) (runId : string) (tabId : Z)
    (* [chrome.tabs.query({ windowId })] of the New Tab path of [tryAssociateTab] *)
| QueryAllTabs
    (* [chrome.tabs.query({ })] of [startAssociationRun] *)
| FallbackAssociation (tabId : Z) (runId : string)
    (* [chrome.tabs.get(tabId, function(tab) { associateTabToPageNode(runId, tab); })] *)
| GetTabStatus (tabId : Z)
| FocusPage (tabId : Z)
| RebuildTabIndex
| RectifyAssociations (delay : Z).

Record State : Type := mkState {
  tree : Tree;
  associationRuns : gmap string RunInfo.t;
  associationStubbornTabIds : gmap Z Z;
  associationConcurrentRuns : Z;
  effects : list Effect
}.

Definition withTree (f : Tree -> Tree) (st : State) : State :=
  mkState (f (tree st)) (associationRuns st) (associationStubbornTabIds st)
          (associationConcurrentRuns st) (effects st).

Definition emit (e : Effect) (st : State) : State :=
  mkState (tree st) (associationRuns st) (associationStubbornTabIds st)
          (associationConcurrentRuns st) (effects st ++ [e]).

Definition withRuns (f : gmap string RunInfo.t -> gmap string RunInfo.t) (st : State) : State :=
  mkState (tree st) (f (associationRuns st)) (associationStubbornTabIds st)
          (associationConcurrentRuns st) (effects st).

Definition withStubborn (f : gmap Z Z -> gmap Z Z) (st : State) : State :=
  mkState (tree st) (associationRuns st) (f (associationStubbornTabIds st))
          (associationConcurrentRuns st) (effects st).

Definition withConcurrentRuns (f : Z -> Z) (st : State) : State :=
  mkState (tree st) (associationRuns st) (associationStubbornTabIds st)
          (f (associationConcurrentRuns st)) (effects st).

(** Functions, constants and host state that the engine uses but that
    live outside it. *)
Class Host : Type := {
  isNewTabUrl : string -> bool;
  (** [sidebarHandler.tabId == tab.id || tab.url == chrome.extension.getURL('/sidebar.html')] *)
  isSidebarTab : Tab.t -> bool;
  WINDOW_DEFAULT_TITLE : string;
  (** [tree.addTabToWindow(tab, page)] *)
  addTabToWindow : Tab.t -> Node -> Tree -> Tree;
  fixPinnedUnpinnedTabOrder : string -> Tree -> Tree;
  fixBadNodes : Tree -> Tree;
  (** the window [focusTracker.getFocused()] reports *)
  getFocused : option Z;
  (** whether a port to the content script of a tab exists, which is what
      [getPageDetails] returns *)
  portExists : Z -> bool
}.

Definition CLEANUP_AFTER_ASSOCIATION_RUN_DELAY_MS : Z := 500.

Definition ASSOCIATE_STUBBORN_TAB_FALLBACK_THRESHOLD_ITERATIONS : Q :=
  (inject_Z ASSOCIATE_STUBBORN_TAB_FALLBACK_THRESHOLD_MS
   / inject_Z ASSOCIATE_PAGES_CHECK_INTERVAL_MS)%Q.

Section Association.
Context `{Host}.

Definition getPageDetails (tabId : Z) (action : string) (runId : option string)
    (st : State) : bool * State :=
  (portExists tabId, emit (GetPageDetails tabId action runId) st).

Definition expandNode (target : string) (t : Tree) : Tree :=
  DataTree.updateNode target [set_collapsed false] t.

Definition restoreParentWindowViaUniqueChildPageNode
    (parentWindowNode : option Node) (childPageNode : Node) (childWindowId : Z)
    (t : Tree) : Tree :=
  match parentWindowNode with
  | None => t
  | Some parent =>
      if negb (isWindowNode parent) || negb (hibernated (data parent)) then t
      else
        let c := data childPageNode in
        let otherMatch := findPageNodeForAssociation t
          (Params.mk false false false (url c) (Some (title c)) (Some (referrer c))
             (Some (historylength c)) (Some (pinned c)) (Some (incognito c))
             (Some (id c))) in
        match otherMatch with
        | Some _ => t
        | None =>
            let t1 :=
              match DataTree.getNodeByChromeId t childWindowId with
              | Some existingWinNode =>
                  DataTree.mergeNodes (id (data existingWinNode)) (id (data parent)) t
              | None => t
              end in
            expandNode (id (data parent))
              (DataTree.updateNode (id (data parent))
                 [set_restorable false; set_hibernated false;
                  set_chromeId (Some childWindowId);
                  set_title WINDOW_DEFAULT_TITLE] t1)
        end
  end.

Definition restoreAssociatedPage (tab : Tab.t) (page : string) (st : State) : State :=
  let details :=
    [set_restored true; set_hibernated false; set_restorable false;
     set_chromeId (Some (Tab.id tab)); set_windowId (Some (Tab.windowId tab));
     set_index (Some (Tab.index tab)); set_pinned (Tab.pinned tab)] in
  let st := withTree (DataTree.updateNode page details) st in
  let st := emit (GetTabStatus (Tab.id tab)) st in
  let st := if Tab.active tab && Js.looseEq getFocused (Some (Tab.windowId tab))
            then emit (FocusPage (Tab.id tab)) st else st in
  let topParent := DataTree.topParent (tree st) page in
  let st :=
    match DataTree.getNodeById (tree st) page with
    | Some pageNode =>
        withTree (restoreParentWindowViaUniqueChildPageNode topParent pageNode
                    (Tab.windowId tab)) st
    | None => st
    end in
  withTree (fixPinnedUnpinnedTabOrder page) st.

(** The predicate handed to [tree.filter] by [tryFastAssociateTab]. *)
Definition fastMatches (tab : Tab.t) (mustBeRestorable : bool) (e : Node) : bool :=
  isPageNode e
  && hibernated (data e)
  && (negb mustBeRestorable || restorable (data e))
  && String.eqb (Tab.url tab) (url (data e))
  && Js.looseEq (Some (Tab.index tab)) (index (data e))
  && Bool.eqb (Tab.incognito tab) (incognito (data e))
  && Bool.eqb (Tab.pinned tab) (pinned (data e)).

Definition fastCandidates (t : Tree) (tab : Tab.t) (mustBeRestorable : bool) : list Node :=
  let existingWindow := DataTree.getNodeByChromeId t (Tab.windowId tab) in
  let inArray := option_map children existingWindow in
  DataTree.filter t (fastMatches tab mustBeRestorable) inArray.

Definition tryFastAssociateTab (tab : Tab.t) (mustBeRestorable : bool) (st : State)
    : option Node * State :=
  let matches := fastCandidates (tree st) tab mustBeRestorable in
  if (length matches =? 1)%nat
     || ((0 <? length matches)%nat && negb (isScriptableUrl (Tab.url tab)))
  then
    match matches with
    | [] => (None, st)
    | match_ :: _ =>
        let st := restoreAssociatedPage tab (id (data match_)) st in
        let st := if isScriptableUrl (Tab.url tab)
                  then snd (getPageDetails (Tab.id tab) "store" None st)
                  else st in
        (Some match_, st)
    end
  else (None, st).

Definition associateTabToPageNode (runId : string) (tab : Tab.t)
    (referrer : option string) (historylength : option Z) (st : State) : State :=
  let st :=
    match associationRuns st !! runId with
    | Some runInfo =>
        let tabIds' := Js.splice (Js.indexOf (Tab.id tab) (RunInfo.tabIds runInfo)) 0
                                 (RunInfo.tabIds runInfo) in
        let st := emit (TimeoutReset runId ASSOCIATE_PAGES_CHECK_INTERVAL_MS) st in
        withRuns (insert runId
          (RunInfo.mk (RunInfo.runId runInfo) (RunInfo.total runInfo)
                      (RunInfo.count runInfo + 1) tabIds')) st
    | None => st
    end in
  match DataTree.getNodeByChromeId (tree st) (Tab.id tab) with
  | Some existingPage => st
  | None =>
      let match_ := findPageNodeForAssociation (tree st)
        (Params.mk true true true (Tab.url tab) None referrer historylength
           (Some (Tab.pinned tab)) (Some (Tab.incognito tab)) None) in
      match match_ with
      | None =>
          let newPage := PageNode tab in
          let st := withTree (addTabToWindow tab newPage) st in
          let st := withTree (DataTree.updateNode (id (data newPage))
                      [set_referrer (match referrer with Some r => r | None => "" end);
                       set_historylength (Js.orDefault historylength 1)]) st in
          if Tab.active tab && Js.looseEq getFocused (Some (Tab.windowId tab))
          then emit (FocusPage (Tab.id tab)) st else st
      | Some m => restoreAssociatedPage tab (id (data m)) st
      end
  end.

Definition pushTabId (runId : string) (tabId : Z) (st : State) : State :=
  withRuns (fun runs =>
    match runs !! runId with
    | Some runInfo =>
        <[runId := RunInfo.mk (RunInfo.runId runInfo) (RunInfo.total runInfo)
                     (RunInfo.count runInfo) (RunInfo.tabIds runInfo ++ [tabId])]> runs
    | None => runs
    end) st.

(** Returns [true] if the tab was immediately associated, [false] if an
    asynchronous call to the content script of the page is needed. *)
Definition tryAssociateTab (runId : string) (tab : Tab.t)
    (forceNewTabAssociation : bool) (st : State) : bool * State :=
  if Tab.incognito tab then (false, st)
  else if negb forceNewTabAssociation && isNewTabUrl (Tab.url tab)
          && (Tab.index tab =? 0) && negb (Tab.pinned tab)
  then (false, emit (QueryTabsOfWindow (Tab.windowId tab) runId (Tab.id tab)) st)
  else
    match tryFastAssociateTab tab true st with
    | (Some _, st) => (true, st)
    | (None, st) =>
        if isNewTabUrl (Tab.url tab)
        then (true, withTree (addTabToWindow tab (PageNode tab)) st)
        else if negb (isScriptableUrl (Tab.url tab))
        then (true, associateTabToPageNode runId tab None None st)
        else
          let st := pushTabId runId (Tab.id tab) st in
          let '(_, st) := getPageDetails (Tab.id tab) "associate" (Some runId) st in
          (false, st)
    end.

(** The callback of the [chrome.tabs.query({ windowId })] issued by
    [tryAssociateTab] for a New Tab page. *)
Definition tryAssociateTab_onWindowTabs (runId : string) (tab : Tab.t)
    (tabs : list Tab.t) (st : State) : State :=
  if (length tabs =? 1)%nat
  then withTree (addTabToWindow tab (PageNode tab)) st
  else snd (tryAssociateTab runId tab true st).

Definition endAssociationRun (runId : string) (st : State) : State :=
  let st := withRuns (delete runId) st in
  let st := withConcurrentRuns (fun n => n - 1) st in
  let st := emit RebuildTabIndex st in
  let st := emit (RectifyAssociations CLEANUP_AFTER_ASSOCIATION_RUN_DELAY_MS) st in
  emit (TimeoutClear runId) st.

(** The synchronous part of [startAssociationRun]; the run itself is
    created when the tab enumeration calls back. *)
Definition startAssociationRun (st : State) : State :=
  if 0 <? associationConcurrentRuns st then st
  else emit QueryAllTabs (withTree fixBadNodes st).

Definition bumpTotal (runId : string) (st : State) : State :=
  withRuns (fun runs =>
    match runs !! runId with
    | Some runInfo =>
        <[runId := RunInfo.mk (RunInfo.runId runInfo) (RunInfo.total runInfo + 1)
                     (RunInfo.count runInfo) (RunInfo.tabIds runInfo)]> runs
    | None => runs
    end) st.

(** The body of the loop of [startAssociationRun] over the tabs. *)
Definition associateListedTab (runId : string) (st : State) (tab : Tab.t) : State :=
  if isSidebarTab tab then st
  else match DataTree.getNodeByChromeId (tree st) (Tab.id tab) with
       | Some _ => st
       | None =>
           let '(associated, st) := tryAssociateTab runId tab false st in
           if associated then st else bumpTotal runId st
       end.

(** The callback of the [chrome.tabs.query({ })] issued by
    [startAssociationRun]; [runId] is the guid generated for the run. *)
Definition startAssociationRun_onTabs (runId : string) (tabs : list Tab.t) (st : State) : State :=
  if 0 <? associationConcurrentRuns st then st
  else
    let st := withRuns (insert runId (RunInfo.mk runId 0 0 [])) st in
    let st := withConcurrentRuns (fun n => n + 1) st in
    let st := fold_left (associateListedTab runId) tabs st in
    match associationRuns st !! runId with
    | Some runInfo =>
        if RunInfo.total runInfo =? 0 then endAssociationRun runId st
        else emit (TimeoutReset runId ASSOCIATE_PAGES_CHECK_INTERVAL_MS) st
    | None => st
    end.

(** The loop of [associatePagesCheck] over [runInfo.tabIds]: the updated
    counter table and the tabs given a fallback association, in order. *)
Fixpoint stubbornLoop (threshold : Q) (tabIds : list Z) (table : gmap Z Z)
    : gmap Z Z * list Z :=
  match tabIds with
  | [] => (table, [])
  | tabId :: rest =>
      let count := Js.orDefault (table !! tabId) 0 + 1 in
      if Qle_bool threshold (inject_Z count)
      then let '(table', forced) := stubbornLoop threshold rest table in
           (table', tabId :: forced)
      else stubbornLoop threshold rest (<[tabId := count]> table)
  end.

Definition associatePagesCheckWith (threshold : Q) (runId : string) (st : State) : State :=
  match associationRuns st !! runId with
  | None => st
  | Some runInfo =>
      let '(table, forced) :=
        stubbornLoop threshold (RunInfo.tabIds runInfo) (associationStubbornTabIds st) in
      let st := withStubborn (fun _ => table) st in
      let st := fold_left (fun st tabId => emit (FallbackAssociation tabId runId) st)
                          forced st in
      let st := endAssociationRun runId st in
      startAssociationRun st
  end.

Definition associatePagesCheck : string -> State -> State :=
  associatePagesCheckWith ASSOCIATE_STUBBORN_TAB_FALLBACK_THRESHOLD_ITERATIONS.

End Association.

(* ===================================================================== *)
(** * WindowMerger: [mergeWindowsPreservingTabIndexes] *)
(* ===================================================================== *)

Module WindowMerger.

(** The loop state: the tree, [insertPosition], and the nodes for which
    the adjacency search failed ([console.warn]). *)
Record Acc : Type := mkAcc {
  accTree : Tree;
  insertPosition : option string;
  misses : list string
}.

Definition firstElem (l : list Node) (fn : Node -> bool) : option Node := List.find fn l.

(** The current number of children of a node of the tree. *)
Definition childCount (t : Tree) (i : string) : nat :=
  match DataTree.getNodeById t i with
  | Some n => length (children n)
  | None => 0%nat
  end.

(** One pass of the loop body for [node]. *)
Definition mergeStep (existing : list Node) (toWindow : string) (acc : Acc) (node : Node) : Acc :=
  let t := accTree acc in
  let me := id (data node) in
  let placeFirst :=
    match insertPosition acc with
    | Some p => mkAcc (DataTree.moveNodeRel me DataTree.after p t) (Some me) (misses acc)
    | None => mkAcc (DataTree.moveNodeRel me DataTree.prepend toWindow t) (Some me) (misses acc)
    end in
  if negb (isTab node) then placeFirst
  else if Js.looseEq (index (data node)) (Some 0) then placeFirst
  else
    match firstElem existing (fun e =>
            isTab e && Js.looseEq (index (data e)) (Some (Js.toNumber (index (data node)) + 1))) with
    | Some following =>
        mkAcc (DataTree.moveNodeRel me DataTree.before (id (data following)) t)
              (Some me) (misses acc)
    | None =>
        match firstElem existing (fun e =>
                isTab e && Js.looseEq (index (data e)) (Some (Js.toNumber (index (data node)) - 1))) with
        | Some preceding =>
            if (0 <? childCount t (id (data preceding)))%nat
            then mkAcc (DataTree.moveNodeRel me DataTree.prepend (id (data preceding)) t)
                       (insertPosition acc) (misses acc)
            else mkAcc (DataTree.moveNodeRel me DataTree.after (id (data preceding)) t)
                       (Some me) (misses acc)
        | None =>
            mkAcc (DataTree.moveNodeRel me DataTree.append toWindow t)
                  (insertPosition acc) (misses acc ++ [me])
        end
    end.

(** [for (var i = incoming.length - 1; i >= 0; i--)]: the nodes under
    [fromWindow] are visited last to first. *)
Definition mergeWindowsPreservingTabIndexesAcc (fromWindow toWindow : Node) (t : Tree) : Acc :=
  let incoming := DataTree.filter t (fun _ => true) (Some (children fromWindow)) in
  let existing := DataTree.filter t (fun _ => true) (Some (children toWindow)) in
  fold_left (mergeStep existing (id (data toWindow))) (rev incoming) (mkAcc t None []).

Definition mergeWindowsPreservingTabIndexes (fromWindow toWindow : Node) (t : Tree) : Tree :=
  accTree (mergeWindowsPreservingTabIndexesAcc fromWindow toWindow t).

(** The same loop body applied to the nodes first to last, the direction
    of the walk the specification describes, for comparison. *)
Definition mergeForwardAcc (fromWindow toWindow : Node) (t : Tree) : Acc :=
  let incoming := DataTree.filter t (fun _ => true) (Some (children fromWindow)) in
  let existing := DataTree.filter t (fun _ => true) (Some (children toWindow)) in
  fold_left (mergeStep existing (id (data toWindow))) incoming (mkAcc t None []).

(** The recorded tab positions of the children of a node, in tree order. *)
Definition childIndexes (t : Tree) (i : string) : list (option Z) :=
  match DataTree.getNodeById t i with
  | Some n => map (fun c => index (data c)) (children n)
  | None => []
  end.

Definition childIds (t : Tree) (i : string) : list string :=
  match DataTree.getNodeById t i with
  | Some n => map (fun c => id (data c)) (children n)
  | None => []
  end.

End WindowMerger.

(* ===================================================================== *)
(** * Numbers

    The scores of [associateWindowstoWindowNodes] are JavaScript numbers:
    binary64 floating-point numbers, added with rounding to nearest, and
    turned into the shortest decimal string that reads back as the same
    number when used as the key of an object. *)
(* ===================================================================== *)

Module F64.

(** A number, as sign, mantissa and exponent: [S754_finite s m e] is
    [(-1)^s * m * 2^e]. *)
Definition t : Type := spec_float.

Definition prec : Z := 53.
Definition emax : Z := 1024.
(** The exponent of the subnormal numbers. *)
Definition emin : Z := 3 - emax - prec.

(** [x + y], rounded to the nearest number, ties to even. *)
Definition add (x y : t) : t := SFadd prec emax x y.

(** The number of an integer. *)
Definition ofZ (z : Z) : t := binary_normalize prec emax z 0 false.

(** The literals [0.0], [1.0] and [0.00001]. *)
Definition zero : t := S754_zero false.
Definition one : t := S754_finite false 4503599627370496 (-52).
Definition hundredThousandth : t := S754_finite false 5902958103587057 (-69).

(** [x <= y]. *)
Definition leb (x y : t) : bool := SFleb x y.

(** [ToBoolean]: zero and [NaN] are falsy. *)
Definition truthy (x : t) : bool :=
  match x with
  | S754_zero _ | S754_nan => false
  | _ => true
  end.

Definition pow2 (e : Z) : Q :=
  if 0 <=? e then inject_Z (2 ^ e) else Qmake 1 (Z.to_pos (2 ^ (- e))).
Definition pow10 (n : Z) : Q :=
  if 0 <=? n then inject_Z (10 ^ n) else Qmake 1 (Z.to_pos (10 ^ (- n))).

(** The [n] with [10^(n-1) <= x < 10^n] for [x = m * 2^e]: an estimate
    from the number of bits, off by one at most, is corrected. *)
Fixpoint adjustUp (fuel : nat) (x : Q) (n : Z) : Z :=
  match fuel with
  | O => n
  | S fuel => if Qle_bool (pow10 n) x then adjustUp fuel x (n + 1) else n
  end.
Fixpoint adjustDown (fuel : nat) (x : Q) (n : Z) : Z :=
  match fuel with
  | O => n
  | S fuel => if Qle_bool (pow10 (n - 1)) x then n else adjustDown fuel x (n - 1)
  end.
Definition decimalExponent (m : positive) (e : Z) : Z :=
  let x := (inject_Z (Z.pos m) * pow2 e)%Q in
  let estimate := ((e + Z.log2 (Z.pos m) + 1) * 30103) / 100000 in
  adjustDown 4 x (adjustUp 4 x estimate).

(** Among the integers [s] of [k] digits for which [s * 10^(n-k)] lies
    between [lo] and [hi] (the bounds themselves counting when
    [inclusive]), the one for which [s * 10^(n-k)] is nearest to [x], the
    even one of two; with [n] and the distance to [x]. *)
Definition candidate (x lo hi : Q) (inclusive : bool) (k n : Z) : option (Z * Z * Q) :=
  let scale := pow10 (n - k) in
  let sLo := let c := Qceiling (lo / scale) in
             if negb inclusive && Qeq_bool (inject_Z c * scale) lo then c + 1 else c in
  let sHi := let f := Qfloor (hi / scale) in
             if negb inclusive && Qeq_bool (inject_Z f * scale) hi then f - 1 else f in
  let sLo := Z.max sLo (10 ^ (k - 1)) in
  let sHi := Z.min sHi (10 ^ k - 1) in
  if sHi <? sLo then None
  else
    let q := (x / scale)%Q in
    let r := Qfloor (q + (1 # 2)) in
    let r := if Qeq_bool (inject_Z r) (q + (1 # 2)) && Z.odd r then r - 1 else r in
    let s := Z.max sLo (Z.min r sHi) in
    Some (s, n, Qabs (inject_Z s * scale - x)).

(** The digits [s] and the exponent [n] of the shortest decimal
    [s * 10^(n-k)] that reads back as the number [x], whose neighbours
    are halfway at [lo] and [hi]: the numbers of digits [k] are tried from
    the least, and the nearest decimal is taken.  No number needs more
    than 17 digits. *)
Fixpoint shortest (fuel : nat) (x lo hi : Q) (inclusive : bool) (n k : Z) : Z * Z :=
  match fuel with
  | O => (0, n)
  | S fuel =>
      match candidate x lo hi inclusive k n, candidate x lo hi inclusive k (n + 1) with
      | Some (s, n1, d), Some (s', n2, d') =>
          if Qle_bool d d' then (s, n1) else (s', n2)
      | Some (s, n1, _), None => (s, n1)
      | None, Some (s, n1, _) => (s, n1)
      | None, None => shortest fuel x lo hi inclusive n (k + 1)
      end
  end.

(** The decimals that read back as [m * 2^e] are those between the
    midpoints to its neighbours; a midpoint itself is rounded to the number
    whose mantissa is even.  Below a power of two the neighbour is half as
    far away. *)
Definition digits (m : positive) (e : Z) : Z * Z :=
  let x := (inject_Z (Z.pos m) * pow2 e)%Q in
  let up := pow2 (e - 1) in
  let down := if (Z.pos m =? 2 ^ (prec - 1)) && (emin <? e) then pow2 (e - 2) else up in
  shortest 17 x (x - down)%Q (x + up)%Q (Z.even (Z.pos m)) (decimalExponent m e) 1.

Definition zeros (j : Z) : string := string_of_list_ascii (repeat "0"%char (Z.to_nat j)).

(** The string of a positive number with digits [s] and exponent [n]:
    plain digits up to [10^21], a decimal point down to [10^-6], the
    exponent notation beyond. *)
Definition format (s n : Z) : string :=
  let ds := showZ s in
  let k := Z.of_nat (String.length ds) in
  if (k <=? n) && (n <=? 21) then String.append ds (zeros (n - k))
  else if (0 <? n) && (n <=? 21)
  then String.append (substring 0 (Z.to_nat n) ds)
         (String.append "." (substring (Z.to_nat n) (Z.to_nat (k - n)) ds))
  else if (-6 <? n) && (n <=? 0)
  then String.append "0." (String.append (zeros (- n)) ds)
  else
    let e := n - 1 in
    String.append
      (if k =? 1 then ds
       else String.append (substring 0 1 ds)
              (String.append "." (substring 1 (Z.to_nat (k - 1)) ds)))
      (String.append "e" (String.append (if e <? 0 then "-" else "+") (showZ (Z.abs e)))).

(** [x.toString()]: [Number.prototype.toString] without a radix. *)
Definition toString (x : t) : string :=
  match x with
  | S754_nan => "NaN"
  | S754_zero _ => "0"
  | S754_infinity s => if s then "-Infinity" else "Infinity"
  | S754_finite s m e =>
      match binary_normalize prec emax (Z.pos m) e false with
      | S754_finite _ m' e' =>
          let '(d, n) := digits m' e' in
          String.append (if s then "-" else "") (format d n)
      | S754_infinity _ => if s then "-Infinity" else "Infinity"
      | _ => "0"
      end
  end.

End F64.

(* ===================================================================== *)
(** * Container association: [associateWindowstoWindowNodes] *)
(* ===================================================================== *)

Module WindowAssociation.

(** A score is a number, accumulated from [1.0] and [0.00001] terms. *)
Definition Score : Type := F64.t.

(** [v || 0.0]. *)
Definition orZero (v : option Score) : Score :=
  match v with
  | Some x => if F64.truthy x then x else F64.zero
  | None => F64.zero
  end.

(** [(v || 0.0) + 1.0 + (sameIndex ? 0.00001 : 0)]. *)
Definition addTab (sameIndex : bool) (v : option Score) : Score :=
  F64.add (F64.add (orZero v) F64.one)
          (if sameIndex then F64.hundredThousandth else F64.zero).

(** [o[k] = f(o[k])] on an object with integer keys (window ids), which
    JavaScript enumerates in ascending order. *)
Fixpoint objAdd (k : Z) (f : option Score -> Score) (o : list (Z * Score))
    : list (Z * Score) :=
  match o with
  | [] => [(k, f None)]
  | (k', v') :: r =>
      if k =? k' then (k', f (Some v')) :: r
      else if k <? k' then (k, f None) :: o
      else (k', v') :: objAdd k f r
  end.

(** The callback of [tree.reduce] for one descendant [e] of a window node;
    [None] is the [TypeError] raised when no live tab carries the id of the
    node. *)
Definition scoreStep (tabs : list Tab.t) (acc : option (list (Z * Score) * Z)) (e : Node)
    : option (list (Z * Score) * Z) :=
  match acc with
  | None => None
  | Some (last, pageCount) =>
      if negb (isTab e) then Some (last, pageCount)
      else
        match List.find (fun t => Js.looseEq (Some (Tab.id t)) (chromeId (data e))) tabs with
        | None => None
        | Some tab =>
            if negb (Bool.eqb (pinned (data e)) (Tab.pinned tab))
               || negb (Bool.eqb (incognito (data e)) (Tab.incognito tab))
            then Some (last, pageCount)
            else Some (objAdd (Tab.windowId tab)
                         (addTab (Js.looseEq (index (data e)) (Some (Tab.index tab)))) last,
                       pageCount + 1)
        end
  end.

(** [groups] and the increment of [winNodePageCounts[win.id]] for [win]. *)
Definition scoreWindow (tabs : list Tab.t) (win : Node) : option (list (Z * Score) * Z) :=
  fold_left (scoreStep tabs) (DataTree.nodes (children win)) (Some ([], 0)).

(** A pairing [[win, g]] of a window node with a live window id. *)
Definition Pair : Type := (string * Z)%type.

(** [counts[count].push([win, g])], creating the entry when missing.  The
    key [count] is the string of the score, [groups[g].toString()]; an
    entry is kept with its score, the number [parseFloat] reads back from
    the key, and is found by the string. *)
Fixpoint countsPush (count : Score) (pair : Pair) (counts : list (Score * list Pair))
    : list (Score * list Pair) :=
  match counts with
  | [] => [(count, [pair])]
  | (c, ps) :: r =>
      if String.eqb (F64.toString c) (F64.toString count) then (c, ps ++ [pair]) :: r
      else (c, ps) :: countsPush count pair r
  end.

Record Tally : Type := mkTally {
  counts : list (Score * list Pair);
  winNodePageCounts : gmap string Z
}.

Definition tallyWindow (tabs : list Tab.t) (acc : option Tally) (win : Node) : option Tally :=
  match acc with
  | None => None
  | Some tally =>
      match scoreWindow tabs win with
      | None => None
      | Some (groups, pageCount) =>
          let wid := id (data win) in
          Some (mkTally
                  (fold_left (fun cs g => countsPush (snd g) (wid, fst g) cs)
                             groups (counts tally))
                  (if pageCount =? 0 then winNodePageCounts tally
                   else <[wid := Js.orDefault (winNodePageCounts tally !! wid) 0 + pageCount]>
                          (winNodePageCounts tally)))
      end
  end.

(** [array.sort()] without a comparison function orders the elements by
    their strings. *)
Fixpoint insertByString (x : Score) (l : list Score) : list Score :=
  match l with
  | [] => [x]
  | y :: r =>
      if String.leb (F64.toString x) (F64.toString y) then x :: l
      else y :: insertByString x r
  end.

Definition sortDefault (l : list Score) : list Score :=
  fold_right insertByString [] l.

(** [counts[countValue.toString()]]. *)
Definition lookupCount (counts : list (Score * list Pair)) (c : Score) : list Pair :=
  match List.find (fun e => String.eqb (F64.toString (fst e)) (F64.toString c)) counts with
  | Some e => snd e
  | None => []
  end.

(** The pairings in the order the two nested loops visit them, each with
    its score: [countValues] from last to first, and each [countSet] from
    last to first. *)
Definition processingOrder (counts : list (Score * list Pair)) : list (Score * Pair) :=
  let countValues := sortDefault (map fst counts) in
  flat_map (fun countValue => map (fun p => (countValue, p)) (rev (lookupCount counts countValue)))
           (rev countValues).

Record Loop : Type := mkLoop {
  loopTree : Tree;
  usedWindowIds : list Z;
  usedWindowNodes : list string;
  merged : list (string * string)   (* the [Merging windows] log *)
}.

Definition windowTabCounts (tabs : list Tab.t) : gmap Z Z :=
  fold_left (fun m t => <[Tab.windowId t := Js.orDefault (m !! Tab.windowId t) 0 + 1]> m)
            (rev tabs) ∅.

Section Loop.
Context `{Host}.
Variables (requireChildrenCountMatch prohibitMergingWindows : bool).
Variables (tabs : list Tab.t) (tally : Tally).

Definition restoreWindow (win : string) (windowId : Z) (l : Loop) (t : Tree)
    (merges : list (string * string)) : Loop :=
  let details := [set_restorable false; set_hibernated false;
                  set_chromeId (Some windowId); set_title WINDOW_DEFAULT_TITLE] in
  mkLoop (expandNode win (DataTree.updateNode win details t))
         (usedWindowIds l ++ [windowId]) (usedWindowNodes l ++ [win]) merges.

(** The body of the inner loop for one pairing. *)
Definition associatePair (l : Loop) (pair : Pair) : Loop :=
  let '(win, windowId) := pair in
  if existsb (Z.eqb windowId) (usedWindowIds l)
     || existsb (String.eqb win) (usedWindowNodes l)
  then l
  else if requireChildrenCountMatch
          && negb (Js.looseEq (winNodePageCounts tally !! win)
                              (windowTabCounts tabs !! windowId))
  then l
  else
    match DataTree.getNodeByChromeId (loopTree l) windowId with
    | Some existingWinNode =>
        if negb prohibitMergingWindows then
          match DataTree.getNodeById (loopTree l) win with
          | Some winNode =>
              let t := WindowMerger.mergeWindowsPreservingTabIndexes
                         existingWinNode winNode (loopTree l) in
              let t := DataTree.mergeNodes (id (data existingWinNode)) win t in
              restoreWindow win windowId l t
                (merged l ++ [(id (data existingWinNode), win)])
          | None => l
          end
        else l
    | None => restoreWindow win windowId l (loopTree l) (merged l)
    end.

End Loop.

Definition isRestorableWindow (e : Node) : bool :=
  isWindowNode e && restorable (data e).

(** The tally [counts] / [winNodePageCounts] built over [wins], visited
    last to first. *)
Definition tallyWindows (t : Tree) (tabs : list Tab.t) : option Tally :=
  let wins := DataTree.filter t isRestorableWindow None in
  fold_left (tallyWindow tabs) (rev wins) (Some (mkTally [] ∅)).

(** [associateWindowstoWindowNodes(requireChildrenCountMatch,
    prohibitMergingWindows, onComplete)] once [chrome.tabs.query] has
    answered with [tabs]; [None] is an uncaught [TypeError]. *)
Definition associateWindowstoWindowNodesLoop `{Host}
    (requireChildrenCountMatch prohibitMergingWindows : bool)
    (tabs : list Tab.t) (t : Tree) : option Loop :=
  match DataTree.filter t isRestorableWindow None with
  | [] => Some (mkLoop t [] [] [])
  | _ :: _ =>
      match tallyWindows t tabs with
      | None => None
      | Some tally =>
          Some (fold_left
                  (associatePair requireChildrenCountMatch prohibitMergingWindows tabs tally)
                  (map snd (processingOrder (counts tally)))
                  (mkLoop t [] [] []))
      end
  end.

Definition associateWindowstoWindowNodes `{Host}
    (requireChildrenCountMatch prohibitMergingWindows : bool)
    (tabs : list Tab.t) (t : Tree) : option Tree :=
  option_map loopTree
    (associateWindowstoWindowNodesLoop requireChildrenCountMatch prohibitMergingWindows tabs t).

End WindowAssociation.

(* ===================================================================== *)
(** * Disambiguator: [disambiguatePageNodesByWindowId] *)
(* ===================================================================== *)

Module Disambiguator.

(** The nodes held in [items] are references to the nodes of the tree:
    they are kept as ids and their attributes are read from the current
    tree. *)
Definition windowIdOf (t : Tree) (i : string) : option Z :=
  match DataTree.getNodeById t i with Some n => windowId (data n) | None => None end.
Definition chromeIdOf (t : Tree) (i : string) : option Z :=
  match DataTree.getNodeById t i with Some n => chromeId (data n) | None => None end.
Definition indexOf (t : Tree) (i : string) : option Z :=
  match DataTree.getNodeById t i with Some n => index (data n) | None => None end.

(** [node.topParent().chromeId]; every node of the tree has a top parent. *)
Definition topParentChromeId (t : Tree) (i : string) : option Z :=
  match DataTree.topParent t i with Some p => chromeId (data p) | None => None end.

Definition showBool (b : bool) : string := if b then "true" else "false".

(** [[e.url, e.referrer, e.historylength, e.pinned, e.incognito].join('|')] *)
Definition fuzzyKey (d : NodeData) : string :=
  String.concat "|" [url d; referrer d; showZ (historylength d);
                     showBool (pinned d); showBool (incognito d)].

(** The key function handed to [tree.groupBy]; [None] is [undefined]. *)
Definition groupKey (t : Tree) (e : Node) : option string :=
  if negb (isTab e) then None
  else if Js.looseEq (windowId (data e)) (topParentChromeId t (id (data e))) then None
  else Some (fuzzyKey (data e)).

Fixpoint groupAdd (k : string) (x : string) (groups : list (string * list string))
    : list (string * list string) :=
  match groups with
  | [] => [(k, [x])]
  | (k', xs) :: r =>
      if String.eqb k k' then (k', xs ++ [x]) :: r
      else (k', xs) :: groupAdd k x r
  end.

(** Modelled from the spec: [tree.groupBy(fn)], the group-by over all
    nodes of the tree store: nodes with an [undefined] key are left out,
    groups and their members appear in traversal order. *)
Definition groupBy (t : Tree) (fn : Node -> option string) : list (string * list string) :=
  fold_left (fun groups e =>
               match fn e with
               | Some k => groupAdd k (id (data e)) groups
               | None => groups
               end) (DataTree.nodes t) [].

(** The four filters of the swap search, in the order the source tries
    them. *)
Definition transposedSameIndex (t : Tree) (item e : string) : bool :=
  negb (String.eqb e item)
  && Js.looseEq (windowIdOf t e) (topParentChromeId t item)
  && Js.looseEq (windowIdOf t item) (topParentChromeId t e)
  && Js.looseEq (indexOf t e) (indexOf t item).

Definition transposed (t : Tree) (item e : string) : bool :=
  negb (String.eqb e item)
  && Js.looseEq (windowIdOf t e) (topParentChromeId t item)
  && Js.looseEq (windowIdOf t item) (topParentChromeId t e).

Definition inWantedWindow (t : Tree) (item e : string) : bool :=
  negb (String.eqb e item)
  && Js.looseEq (windowIdOf t item) (topParentChromeId t e).

Definition wantsOurWindow (t : Tree) (item e : string) : bool :=
  negb (String.eqb e item)
  && Js.looseEq (windowIdOf t e) (topParentChromeId t item).

(** [swapWith[0]] after the nested searches, [None] when all four filters
    come back empty. *)
Definition findSwapWith (t : Tree) (items : list string) (item : string) : option string :=
  match List.filter (transposedSameIndex t item) items with
  | e :: _ => Some e
  | [] =>
      match List.filter (transposed t item) items with
      | e :: _ => Some e
      | [] =>
          match List.filter (inWantedWindow t item) items with
          | e :: _ => Some e
          | [] =>
              match List.filter (wantsOurWindow t item) items with
              | e :: _ => Some e
              | [] => None
              end
          end
      end
  end.

(** The search as the specification words it: tiers (3) and (4) both ask
    for a member whose container id equals the parent's live id of the
    node. *)
Definition findSwapWith_spec (t : Tree) (items : list string) (item : string) : option string :=
  match List.filter (transposedSameIndex t item) items with
  | e :: _ => Some e
  | [] =>
      match List.filter (transposed t item) items with
      | e :: _ => Some e
      | [] =>
          match List.filter (wantsOurWindow t item) items with
          | e :: _ => Some e
          | [] =>
              match List.filter (wantsOurWindow t item) items with
              | e :: _ => Some e
              | [] => None
              end
          end
      end
  end.

(** The three exchanges through [temp]. *)
Definition swapNodes (item other : string) (t : Tree) : Tree :=
  let temp := chromeIdOf t item in
  let t := DataTree.updateNode item [set_chromeId (chromeIdOf t other)] t in
  let t := DataTree.updateNode other [set_chromeId temp] t in
  let temp := windowIdOf t item in
  let t := DataTree.updateNode item [set_windowId (windowIdOf t other)] t in
  let t := DataTree.updateNode other [set_windowId temp] t in
  let temp := indexOf t item in
  let t := DataTree.updateNode item [set_index (indexOf t other)] t in
  DataTree.updateNode other [set_index temp] t.

Record Round : Type := mkRound {
  roundTree : Tree;
  swapCount : Z;
  swaps : list (string * string);   (* the [Swapping for disambiguation] log *)
  missed : list string              (* the [Disambiguation missed] log *)
}.

(** The body of the inner loop for [item]. *)
Definition disambiguateItem (items : list string) (r : Round) (item : string) : Round :=
  let t := roundTree r in
  if Js.looseEq (windowIdOf t item) (topParentChromeId t item) then r
  else
    match findSwapWith t items item with
    | None => mkRound t (swapCount r + 1) (swaps r) (missed r ++ [item])
    | Some other =>
        mkRound (swapNodes item other t) (swapCount r + 1)
                (swaps r ++ [(item, other)]) (missed r)
    end.

(** [items[(i + iterations) % items.length]]; [None] when the index does
    not name an element. *)
Definition itemAt (items : list string) (iterations : Z) (i : Z) : option string :=
  let k := Z.rem (i + iterations) (Z.of_nat (length items)) in
  if k <? 0 then None else nth_error items (Z.to_nat k).

(** The loops over one group; [None] is the [TypeError] of calling
    [topParent] on an [undefined] item. *)
Definition disambiguateGroup (iterations : Z) (acc : option Round)
    (group : string * list string) : option Round :=
  let items := snd group in
  if (length items <? 2)%nat then acc
  else
    fold_left (fun acc i =>
                 match acc with
                 | None => None
                 | Some r =>
                     match itemAt items iterations (Z.of_nat i) with
                     | None => None
                     | Some item => Some (disambiguateItem items r item)
                     end
                 end)
              (seq 0 (length items)) acc.

(** One round: the body of [disambiguatePageNodesByWindowId] up to the
    test for another round. *)
Definition disambiguateRound (iterations : Z) (t : Tree) : option Round :=
  fold_left (disambiguateGroup iterations) (groupBy t (groupKey t))
            (Some (mkRound t 0 [] [])).

Record Outcome : Type := mkOutcome {
  finalTree : Tree;
  rounds : nat;
  allSwaps : list (string * string)
}.

Definition again (r : Round) (o : Outcome) : Outcome :=
  mkOutcome (finalTree o) (S (rounds o)) (swaps r ++ allSwaps o).

Equations? disambiguateFrom (iterations : Z) (t : Tree) : option Outcome
  by wf (Z.to_nat iterations) lt :=
disambiguateFrom iterations t with disambiguateRound iterations t => {
  | None => None
  | Some r with bool_dec ((0 <? swapCount r) && (1 <? iterations)) true => {
      | left _ => option_map (again r) (disambiguateFrom (iterations - 1) (roundTree r))
      | right _ => Some (mkOutcome (roundTree r) 1 (swaps r)) } }.
Proof.
  apply andb_prop in e as [_ e]. apply Z.ltb_lt in e. lia.
Qed.

(** [disambiguatePageNodesByWindowId(iterations)]; [iterations] defaults to
    [3] when [undefined]. *)
Definition disambiguatePageNodesByWindowId (iterations : option Z) (t : Tree) : option Outcome :=
  disambiguateFrom (match iterations with Some n => n | None => 3 end) t.

End Disambiguator.

(* ===================================================================== *)
(** * Reconciler: [rectifyAssociations] *)
(* ===================================================================== *)

Module Reconciler.

(** The calls of the callback chain of [rectifyAssociations]. *)
Inductive Stage : Type :=
| RebuildPageNodeWindowIds
| AssociateWindows (requireChildrenCountMatch prohibitMergingWindows : bool)
| Disambiguate
| MovePageNodesToCorrectWindows
| FixBadNodes
| RemoveZeroChildWindowNodes
| RebuildTabIndex
| RebuildIndexes
| RebuildParents
| FixAllPinnedUnpinnedTabOrder
| SwapPageNodesByIndex
| ConformAllChromeTabIndexes (instant : bool)
| RemoveOldWindows
| BackupPageTreeIfNone.

(** The chain in the order in which the calls run. *)
Definition rectifyAssociations : list Stage :=
  [ RebuildPageNodeWindowIds;
    AssociateWindows true false;
    Disambiguate;
    AssociateWindows true true;
    Disambiguate;
    AssociateWindows false true;
    Disambiguate;
    AssociateWindows false false;
    Disambiguate;
    MovePageNodesToCorrectWindows;
    FixBadNodes;
    RemoveZeroChildWindowNodes;
    RebuildPageNodeWindowIds;
    RebuildTabIndex;
    RebuildIndexes;
    RebuildParents;
    FixAllPinnedUnpinnedTabOrder;
    SwapPageNodesByIndex;
    ConformAllChromeTabIndexes true;
    ConformAllChromeTabIndexes false;
    RemoveOldWindows;
    BackupPageTreeIfNone ].

(** The [n]-th stage of the pipeline, counted from 1. *)
Definition stage (n : nat) : option Stage := nth_error rectifyAssociations (pred n).

Section Run.
Context `{Host}.
(** The tabs [chrome.tabs.query] reports, and the stages carried out by the
    tree store and other collaborators. *)
Variable tabs : list Tab.t.
Variable collaborator : Stage -> Tree -> Tree.

Definition runStage (s : Stage) (t : Tree) : option Tree :=
  match s with
  | AssociateWindows requireChildrenCountMatch prohibitMergingWindows =>
      WindowAssociation.associateWindowstoWindowNodes
        requireChildrenCountMatch prohibitMergingWindows tabs t
  | Disambiguate =>
      option_map Disambiguator.finalTree
        (Disambiguator.disambiguatePageNodesByWindowId None t)
  | other => Some (collaborator other t)
  end.

Definition runRectifyAssociations (t : Tree) : option Tree :=
  fold_left (fun acc s => match acc with Some t => runStage s t | None => None end)
            rectifyAssociations (Some t).

End Run.

(** The reading of the two flags of a container-association stage. *)
Definition stringent (s : Stage) : bool :=
  match s with AssociateWindows r _ => r | _ => false end.
Definition mergingProhibited (s : Stage) : bool :=
  match s with AssociateWindows _ p => p | _ => false end.
Definition isAssociateWindows (s : Stage) : bool :=
  match s with AssociateWindows _ _ => true | _ => false end.

(** Stage [n] is a container association with the given strictness and
    merging policy. *)
Definition associationStage (n : nat) (isStringent isMergingProhibited : bool) : Prop :=
  exists s, stage n = Some s /\ isAssociateWindows s = true
            /\ stringent s = isStringent /\ mergingProhibited s = isMergingProhibited.

End Reconciler.

(* ===================================================================== *)
(** * Example trees and sessions *)
(* ===================================================================== *)

Module Ex.

Definition pageData (i : string) (cid wid idx : option Z) (u : string)
    (isHibernated isRestorable : bool) : NodeData :=
  mkNodeData i page cid wid idx u "" "" 1 false false isHibernated isRestorable false false.

Definition windowData (i : string) (cid : option Z) (isHibernated isRestorable : bool) : NodeData :=
  mkNodeData i window cid None None "" "" "" 1 false false isHibernated isRestorable false false.

(** A page node bound to the live tab [tabId] of window [wid]. *)
Definition tabNode (i : string) (tabId wid idx : Z) (u : string) : Node :=
  MkNode (pageData i (Some tabId) (Some wid) (Some idx) u false false) [].

(** A hibernated, restorable page node. *)
Definition sleepingNode (i : string) (idx : Z) (u : string) : Node :=
  MkNode (pageData i None None (Some idx) u true true) [].

Definition liveTab (tabId wid idx : Z) (u : string) : Tab.t :=
  Tab.mk tabId wid idx u false false false.

#[global] Instance host : Host := {|
  isNewTabUrl := String.eqb "chrome://newtab/";
  isSidebarTab := fun _ => false;
  WINDOW_DEFAULT_TITLE := "Window";
  addTabToWindow := fun tab node t =>
    match DataTree.getNodeByChromeId t (Tab.windowId tab) with
    | Some w => DataTree.attach node DataTree.append (id (data w)) t
    | None => t ++ [MkNode (windowData (String.append "w" (showZ (Tab.windowId tab)))
                              (Some (Tab.windowId tab)) false false) [node]]
    end;
  fixPinnedUnpinnedTabOrder := fun _ t => t;
  fixBadNodes := fun t => t;
  getFocused := None;
  portExists := fun _ => false
|}.

Definition emptyState (t : Tree) : State := mkState t ∅ ∅ 0 [].

(** ** Window merge: positions [0,1,2] merged into a window holding
    position [1] *)
Definition mergeFrom : Node :=
  MkNode (windowData "wA" (Some 7) false false)
    [tabNode "a0" 10 7 0 "http://a/0"; tabNode "a1" 11 7 1 "http://a/1";
     tabNode "a2" 12 7 2 "http://a/2"].
Definition mergeTo : Node :=
  MkNode (windowData "wB" None true true) [tabNode "b1" 20 7 1 "http://b/1"].
Definition mergeTree : Tree := [mergeFrom; mergeTo].

(** The same with live positions [0,2] merged around position [1]. *)
Definition mergeFrom2 : Node :=
  MkNode (windowData "wA" (Some 7) false false)
    [tabNode "a0" 10 7 0 "http://a/0"; tabNode "a2" 12 7 2 "http://a/2"].
Definition mergeTree2 : Tree := [mergeFrom2; mergeTo].

(** ** Container association: a window node with ten restored tabs and one
    with two, all live in window 7, none at its recorded position *)
Definition tenTabs : list Z := [101; 102; 103; 104; 105; 106; 107; 108; 109; 110].
Definition twoTabs : list Z := [111; 112].
Definition restored (k : Z) : Node :=
  tabNode (String.append "p" (showZ k)) k 7 k "http://example.org/".
Definition scoreTree : Tree :=
  [MkNode (windowData "w1" None true true) (map restored tenTabs);
   MkNode (windowData "w2" None true true) (map restored twoTabs)].
Definition scoreTabs : list Tab.t :=
  map (fun k => liveTab k 7 (k - 101) "http://example.org/") (tenTabs ++ twoTabs).

(** ** Container association: two window nodes whose restored tabs are the
    tabs of the live windows 7 and 8, all but one at their recorded
    position; window 8 already has a node of its own *)
Definition placedTree : Tree :=
  [MkNode (windowData "wa" None true true)
     [tabNode "a1" 501 7 0 "http://a/1"; tabNode "a2" 502 7 1 "http://a/2"];
   MkNode (windowData "wb" None true true)
     [tabNode "b1" 511 8 0 "http://b/1"];
   MkNode (windowData "w8" (Some 8) false false) []].
Definition placedTabs : list Tab.t :=
  [liveTab 501 7 0 "http://a/1"; liveTab 502 7 3 "http://a/2"; liveTab 511 8 0 "http://b/1"].

(** ** Disambiguation: three same-key nodes under windows 2, 3 and 1 *)
Definition swapTree : Tree :=
  [MkNode (windowData "w2" (Some 2) false false) [tabNode "x" 101 1 0 "http://dup/"];
   MkNode (windowData "w3" (Some 3) false false) [tabNode "y" 102 2 0 "http://dup/"];
   MkNode (windowData "w1" (Some 1) false false) [tabNode "z" 103 4 0 "http://dup/"]].

(** ** Disambiguation: two restored same-key tabs of live window 5 under a
    window node that is still hibernated *)
Definition missTree : Tree :=
  [MkNode (windowData "w" None true true)
     [tabNode "n1" 201 5 0 "chrome://newtab/"; tabNode "n2" 202 5 1 "chrome://newtab/"]].

(** ** Fast association: the window of the tab already has a node, the
    only candidate sits under another window node *)
Definition scopeTree : Tree :=
  [MkNode (windowData "live" (Some 5) false false) [tabNode "q" 300 5 0 "http://other/"];
   MkNode (windowData "old" None true true) [sleepingNode "s" 1 "http://site/"]].
Definition scopeTab : Tab.t := liveTab 301 5 1 "http://site/".

(** The same candidate when no node carries the window of the tab. *)
Definition freeTree : Tree :=
  [MkNode (windowData "old" None true true) [sleepingNode "s" 1 "http://site/"]].

(** A settings page with two identical hibernated candidates. *)
Definition settingsTree : Tree :=
  [MkNode (windowData "old" None true true)
     [sleepingNode "s1" 0 "chrome://settings/"; sleepingNode "s2" 0 "chrome://settings/"]].
Definition settingsTab : Tab.t := liveTab 400 9 0 "chrome://settings/".

(** ** Container association: the live window 7 already has an (empty)
    node, and its only tab is restored under a restorable window node *)
Definition stageTree : Tree :=
  [MkNode (windowData "wA" (Some 7) false false) [];
   MkNode (windowData "wB" None true true) [tabNode "b1" 20 7 0 "http://b/1"]].
Definition stageTabs : list Tab.t := [liveTab 20 7 0 "http://b/1"].

(** ** A run with tab 7 pending and a stubborn count of 3 *)
Definition pendingState : State :=
  mkState freeTree {[ "run" := RunInfo.mk "run" 1 0 [7] ]} {[ 7 := 3 ]} 1 [].
Definition pendingTab : Tab.t := liveTab 7 5 1 "http://site/".

Definition incognitoTab : Tab.t := Tab.mk 8 5 1 "http://site/" false true false.

End Ex.

(* ===================================================================== *)
(** * Statements used by the properties below *)
(* ===================================================================== *)






(** The [tabIds] of a run, empty when the run does not exist. *)
Definition pendingTabIds (st : State) (runId : string) : list Z :=
  match associationRuns st !! runId with
  | Some runInfo => RunInfo.tabIds runInfo
  | None => []
  end.

Definition isDetailQuery (e : Effect) : bool :=
  match e with GetPageDetails _ _ _ => true | _ => false end.

(** The candidate set as the specification words it: every hibernated
    page node of the tree (restorable if required) equal to the tab on
    url, index, incognito and pinned. *)
Definition fastCandidates_spec (t : Tree) (tab : Tab.t) (mustBeRestorable : bool) : list Node :=
  List.filter (fastMatches tab mustBeRestorable) (DataTree.nodes t).

(** The nodes among which [tryFastAssociateTab] searches. *)
Definition fastScope (t : Tree) (tab : Tab.t) : list Node :=
  match DataTree.getNodeByChromeId t (Tab.windowId tab) with
  | Some existingWindow => DataTree.nodes (children existingWindow)
  | None => DataTree.nodes t
  end.

(** The binding rule over a candidate list. *)
Definition bindsImmediately (candidates : list Node) (tab : Tab.t) : Prop :=
  length candidates = 1%nat
  \/ ((0 < length candidates)%nat /\ isScriptableUrl (Tab.url tab) = false).

(** Fast association as the specification words it: the tab is bound
    exactly when the binding rule holds of the tree-wide candidates. *)
Definition fastAssociation_spec `{Host} (tab : Tab.t) (mustBeRestorable : bool)
    (st : State) : Prop :=
  fst (tryFastAssociateTab tab mustBeRestorable st) <> None
  <-> bindsImmediately (fastCandidates_spec (tree st) tab mustBeRestorable) tab.

(** What the specification says a processed detail response leaves behind:
    the tab is no longer pending in its run and has no stubborn counter. *)
Definition clearedAfterDetail (tabId : Z) (runId : string) (st : State) : Prop :=
  (forall runInfo, associationRuns st !! runId = Some runInfo ->
                   ~ In tabId (RunInfo.tabIds runInfo))
  /\ associationStubbornTabIds st !! tabId = None.

(** The stage order as the specification lists it. *)
Definition stageOrder_spec : Prop :=
  Reconciler.associationStage 2 true true
  /\ Reconciler.associationStage 4 true false
  /\ Reconciler.associationStage 6 false true
  /\ Reconciler.associationStage 8 false false.

(** [o[k]] on an object with integer keys; [None] is [undefined]. *)
Definition objGet (k : Z) (o : list (Z * WindowAssociation.Score))
    : option WindowAssociation.Score :=
  option_map snd (List.find (fun e => fst e =? k) o).

(** Whether a descendant [e] of a window node counts for the live window
    [g], that is, whether it is a tab whose pinned and incognito flags are
    those of its live tab, which is in [g]; and if so, whether its recorded
    index is the live index. *)
Definition contribution (tabs : list Tab.t) (g : Z) (e : Node) : option bool :=
  if isTab e then
    match List.find (fun t => Js.looseEq (Some (Tab.id t)) (chromeId (data e))) tabs with
    | Some tab =>
        if Bool.eqb (pinned (data e)) (Tab.pinned tab)
           && Bool.eqb (incognito (data e)) (Tab.incognito tab)
           && (Tab.windowId tab =? g)
        then Some (Js.looseEq (index (data e)) (Some (Tab.index tab)))
        else None
    | None => None
    end
  else None.

(** The score accumulated for the live window [g] over the nodes [l], in
    order, starting from [start]: [1.0] is added for every node that
    counts for [g], and then [0.00001] when its index is the live one. *)
Definition accumulate (tabs : list Tab.t) (g : Z) (l : list Node)
    (start : option WindowAssociation.Score) : option WindowAssociation.Score :=
  fold_left (fun acc e =>
               match contribution tabs g e with
               | Some sameIndex => Some (WindowAssociation.addTab sameIndex acc)
               | None => acc
               end) l start.

(** Scores never increase along a processing order. *)
Fixpoint descendingScores (l : list (WindowAssociation.Score * WindowAssociation.Pair)) : Prop :=
  match l with
  | [] => True
  | (s, _) :: r =>
      match r with
      | [] => True
      | (s', _) :: _ => F64.leb s' s = true
      end /\ descendingScores r
  end.

(** Positions never decrease along the children of a node. *)
Fixpoint ascending (l : list Z) : Prop :=
  match l with
  | [] => True
  | x :: r =>
      match r with
      | [] => True
      | y :: _ => x <= y
      end /\ ascending r
  end.

(** The attributes of the node of the tree with a given id. *)
Definition dataOf (t : Tree) (i : string) : option NodeData :=
  option_map data (DataTree.getNodeById t i).

(** [e] is the first member of [items] passing the filter [p]. *)
Definition firstSatisfying (p : string -> bool) (items : list string) (e : string) : Prop :=
  exists before after, items = before ++ e :: after
                       /\ p e = true /\ forall x, In x before -> p x = false.

Definition noneSatisfying (p : string -> bool) (items : list string) : Prop :=
  forall x, In x items -> p x = false.

(** [a] with the container id, live id and position of [b]. *)
Definition withBindingOf (b a : NodeData) : NodeData :=
  applyDetails [set_chromeId (chromeId b); set_windowId (windowId b); set_index (index b)] a.

(** The attributes a swap leaves alone. *)
Definition sameButBinding (a b : NodeData) : Prop :=
  id a = id b /\ elemType a = elemType b /\ url a = url b /\ title a = title b
  /\ referrer a = referrer b /\ historylength a = historylength b
  /\ pinned a = pinned b /\ incognito a = incognito b
  /\ hibernated a = hibernated b /\ restorable a = restorable b
  /\ restored a = restored b /\ collapsed a = collapsed b.

(** Induction on a node with the hypothesis for all its children. *)
Section NodeInduction.
Variable P : Node -> Prop.
Hypothesis step : forall d cs, Forall P cs -> P (MkNode d cs).

Fixpoint Node_ind_nested (n : Node) : P n :=
  match n with
  | MkNode d cs =>
      step d cs ((fix go (l : list Node) : Forall P l :=
                    match l with
                    | [] => @List.Forall_nil _ P
                    | c :: r => @List.Forall_cons _ P c r (Node_ind_nested c) (go r)
                    end) cs)
  end.
End NodeInduction.

(* ===================================================================== *)
(** * Utilities: url hashes, favicons, titles, window geometry, arrays *)
(* ===================================================================== *)

Module Util.

(** [url.replace(/#.*$/, '')]. *)
Definition dropUrlHash (url : string) : string :=
  removeToEnd (Seq (Chr "#") (Star Dot)) url.

(** What reading a replacement table yields: a string of the table, or a
    member inherited from [Object.prototype], which is a function (the
    prototype object itself for [__proto__]): not a string, and truthy. *)
Inductive Value : Type :=
| Str (s : string)
| Inherited (member : string).

(** [v === s] for a string [s]. *)
Definition strictEq (v : Value) (s : string) : bool :=
  match v with
  | Str x => String.eqb x s
  | Inherited _ => false
  end.

(** The names every object created by an object literal inherits. *)
Definition OBJECT_PROTOTYPE_MEMBERS : list string :=
  ["constructor"; "hasOwnProperty"; "isPrototypeOf"; "propertyIsEnumerable";
   "toLocaleString"; "toString"; "valueOf"; "__proto__";
   "__defineGetter__"; "__defineSetter__"; "__lookupGetter__"; "__lookupSetter__"].

(** [o[k]] on an object literal whose values are strings; a key assigned
    twice keeps the later value, so later assignments come first in the
    list.  A key that is not in the table is looked up in
    [Object.prototype]; [__proto__] always denotes the prototype, since
    giving it a string value changes nothing.  [None] is [undefined]. *)
Definition lookup (k : string) (o : list (string * string)) : option Value :=
  if String.eqb k "__proto__" then Some (Inherited k)
  else
    match List.find (fun e => String.eqb (fst e) k) o with
    | Some e => Some (Str (snd e))
    | None =>
        if existsb (String.eqb k) OBJECT_PROTOTYPE_MEMBERS then Some (Inherited k)
        else None
    end.

Section Replacements.
(** [chrome.extension.getURL('/options.html')] and
    [getMessage('text_Extensions')], which the host supplies. *)
Variables (optionsUrl text_Extensions : string).

Definition URL_FAVICON_REPLACEMENTS : list (string * string) :=
  [ (optionsUrl, "/images/sidewise_icon_16.png");
    ("chrome://chrome/extensions", "/images/favicon/extensions.png");
    ("chrome://chrome/extensions/", "/images/favicon/extensions.png");
    ("chrome://extensions/", "/images/favicon/extensions.png");
    ("chrome://chrome/settings/", "/images/favicon/settings.png");
    ("chrome://settings/", "/images/favicon/settings.png") ].

Definition URL_TITLE_REPLACEMENTS : list (string * string) :=
  [ ("chrome://chrome/extensions", text_Extensions);
    ("chrome://chrome/extensions/", text_Extensions);
    ("chrome://extensions/", text_Extensions) ].

Definition getBestFavIconUrl (favIconUrl : option string) (url : string) : Value :=
  let replacedFavicon := lookup url URL_FAVICON_REPLACEMENTS in
  match replacedFavicon with
  | Some (Inherited m) => Inherited m
  | Some (Str r) =>
      if negb (String.eqb r "") then Str r
      else match favIconUrl with
           | Some f => if negb (String.eqb f "") then Str f else Str "chrome://favicon/"
           | None => Str "chrome://favicon/"
           end
  | None => match favIconUrl with
            | Some f => if negb (String.eqb f "") then Str f else Str "chrome://favicon/"
            | None => Str "chrome://favicon/"
            end
  end.

Definition getBestPageTitle (title : option string) (url : string) : Value :=
  let replacedTitle := lookup url URL_TITLE_REPLACEMENTS in
  match replacedTitle with
  | Some (Inherited m) => Inherited m
  | Some (Str r) =>
      if negb (String.eqb r "") then Str r
      else match title with
           | Some t => if negb (String.eqb t "") then Str t else Str url
           | None => Str url
           end
  | None => match title with
            | Some t => if negb (String.eqb t "") then Str t else Str url
            | None => Str url
            end
  end.

End Replacements.

Definition getChromeFavIconUrl (url : string) : string :=
  String.append "chrome://favicon/" (dropUrlHash url).

(** [favIconUrl.indexOf('chrome://favicon') == 0] is the test for a
    prefix.  A function has no [indexOf]: for an inherited member the call
    raises a [TypeError] ([None]). *)
Definition isStaticFavIconUrl (favIconUrl : option Value) : option bool :=
  match favIconUrl with
  | None => Some false
  | Some (Str f) =>
      if String.eqb f "" then Some false
      else if String.prefix "chrome://favicon" f then Some false
      else Some true
  | Some (Inherited _) => None
  end.

Definition clamp (value min max : Z) : Z :=
  let value := if value <? min then min else value in
  let value := if value >? max then max else value in
  value.

Record Dimensions : Type := mkDimensions {
  left : Z;
  top : Z;
  width : Z;
  height : Z
}.

Definition getClampedWindowDimensions
    (left top width height minLeft minTop maxWidth maxHeight : Z) : Dimensions :=
  let left := clamp left minLeft (minLeft + maxWidth) in
  let top := clamp top minTop (minTop + maxHeight) in
  let width := clamp width 0 maxWidth in
  let height := clamp height 0 maxHeight in
  mkDimensions left top width height.

(** [array.slice(start)]: a negative [start] counts from the end. *)
Definition slice {A} (start : Z) (l : list A) : list A :=
  let len := Z.of_nat (length l) in
  let s := if start <? 0 then Z.max (len + start) 0 else Z.min start len in
  skipn (Z.to_nat s) l.

(** The largest length of an array. *)
Definition MAX_ARRAY_LENGTH : Z := 4294967295.

(** An array: its elements, of which there are at most
    [MAX_ARRAY_LENGTH]. *)
Record Array (A : Type) : Type := mkArray {
  elements : list A;
  elements_bound : (Z.of_nat (length elements) <=? MAX_ARRAY_LENGTH) = true
}.
Arguments mkArray {A} elements elements_bound.
Arguments elements {A} a.
Arguments elements_bound {A} a.

(** [array.length = n]: the array is cut to [n] elements or extended to
    [n] elements by empty slots, which read as [undefined]; an [n] that is
    negative or above [MAX_ARRAY_LENGTH] raises a [RangeError] ([None]). *)
Definition setLength {A} (undefined : A) (n : Z) (l : list A) : option (list A) :=
  if (n <? 0) || (MAX_ARRAY_LENGTH <? n) then None
  else Some (firstn (Z.to_nat n) l ++ repeat undefined (Z.to_nat n - length l)).

(** [array.push.apply(array, items)]: the array with the items appended
    and its new length; a length above [MAX_ARRAY_LENGTH] raises a
    [RangeError] ([None]). *)
Definition push {A} (l items : list A) : option (list A * Z) :=
  let l' := l ++ items in
  if MAX_ARRAY_LENGTH <? Z.of_nat (length l') then None
  else Some (l', Z.of_nat (length l')).

(** Array Remove: the array after the call and the value returned (the
    new length, from [push]); [to] is [None] when omitted. *)
Definition remove {A} (undefined : A) (array : Array A) (from : Z) (to : option Z)
    : option (list A * Z) :=
  let len := Z.of_nat (length (elements array)) in
  let rest := slice (Js.orDefault (Some (Js.orDefault to from + 1)) len) (elements array) in
  match setLength undefined (if from <? 0 then len + from else from) (elements array) with
  | None => None
  | Some cut => push cut rest
  end.

End Util.

(** An array is read as the list of its elements. *)
Coercion Util.elements : Util.Array >-> list.

(* ===================================================================== *)
(** * Content scripts and detail queries for existing pages *)
(* ===================================================================== *)

(** [executeContentScript(url, tabId, scriptBody)]: the tabs into which a
    script is injected ([chrome.tabs.executeScript]), newest last. *)
Definition executeContentScript (url : string) (tabId : Z) (scriptBody : string)
    (injected : list (Z * string)) : list (Z * string) :=
  if isScriptableUrl url then injected ++ [(tabId, scriptBody)] else injected.

Definition ASSOCIATE_GET_DETAILS_MAX_RETRIES : Z := 30.
Definition ASSOCIATE_GET_DETAILS_RETRY_WAIT_MS : Z := 1500.

Module ExistingPage.

(** How a call of [tryAssociateExistingToRestorablePageNode] ends:
    [Retry p] is the [setTimeout] that calls the function again for the
    node [p] after [ASSOCIATE_GET_DETAILS_RETRY_WAIT_MS]. *)
Inductive Outcome : Type :=
| NoTabId       (* [console.error('tabId not available ...')] *)
| Asked         (* the port exists, the details were requested *)
| PageGone      (* ['Page no longer exists to get page details from'] *)
| GaveUp        (* ['Exceeded max retries for getting page details'] *)
| Retry (existingPage : Node).

Section Retry.
Context `{Host}.

(** [associationGetDetailsRetryList] is threaded beside the state. *)
Definition tryAssociateExistingToRestorablePageNode (existingPage : Node)
    (associationGetDetailsRetryList : gmap Z Z) (st : State)
    : Outcome * gmap Z Z * State :=
  match chromeId (data existingPage) with
  | None => (NoTabId, associationGetDetailsRetryList, st)
  | Some tabId =>
      if tabId =? 0 then (NoTabId, associationGetDetailsRetryList, st)
      else
        let '(asked, st) := getPageDetails tabId "associate_existing" None st in
        if negb asked then
          let existingPageId := id (data existingPage) in
          match DataTree.getNodeById (tree st) existingPageId with
          | None => (PageGone, associationGetDetailsRetryList, st)
          | Some existingPage =>
              let tries := Js.orDefault (associationGetDetailsRetryList !! tabId) 0 in
              if tries >=? ASSOCIATE_GET_DETAILS_MAX_RETRIES
              then (GaveUp, delete tabId associationGetDetailsRetryList, st)
              else (Retry existingPage,
                    <[tabId := tries + 1]> associationGetDetailsRetryList, st)
          end
        else (Asked, delete tabId associationGetDetailsRetryList, st)
  end.

(** The calls made for one page when nothing else runs in between: the
    first call and the calls of the timers it sets, at most [calls] of
    them, with the outcome of each. *)
Fixpoint retrying (calls : nat) (existingPage : Node) (retryList : gmap Z Z) (st : State)
    : list Outcome * gmap Z Z * State :=
  match calls with
  | O => ([], retryList, st)
  | S calls' =>
      match tryAssociateExistingToRestorablePageNode existingPage retryList st with
      | (Retry existingPage', retryList', st') =>
          let '(outcomes, retryList'', st'') := retrying calls' existingPage' retryList' st' in
          (Retry existingPage' :: outcomes, retryList'', st'')
      | (outcome, retryList', st') => ([outcome], retryList', st')
      end
  end.

End Retry.
End ExistingPage.

(* ===================================================================== *)
(** * Reconciler stages on the tree *)
(* ===================================================================== *)

Module Cleanup.

(** Modelled from the spec: [tree.removeNode(node)], the removal of a node
    of the tree store. *)
Definition removeNode (i : string) (t : Tree) : Tree := DataTree.detach i t.

Definition isZeroChildWindowNode (e : Node) : bool :=
  isWindowNode e && (length (children e) =? 0)%nat.

(** [duplicates.sort()] on an array of strings. *)
Fixpoint insertSorted (x : string) (l : list string) : list string :=
  match l with
  | [] => [x]
  | y :: r => if String.leb x y then x :: l else y :: insertSorted x r
  end.
Definition sortStrings (l : list string) : list string := fold_right insertSorted [] l.

(** The loop over the sorted [duplicates]: is some element equal to the
    one before it? *)
Fixpoint repeatsLast (last : string) (l : list string) : bool :=
  match l with
  | [] => false
  | x :: r => if String.eqb x last then true else repeatsLast x r
  end.

(** [removeZeroChildWindowNodes()]: the tree afterwards, and whether the
    reload of the sidebar is requested; [sidebarExists] is
    [sidebarHandler.sidebarExists()]. *)
Definition removeZeroChildWindowNodes (sidebarExists : bool) (t : Tree) : Tree * bool :=
  let baddies := DataTree.filter t isZeroChildWindowNode None in
  let t' := fold_left (fun t baddy => removeNode (id (data baddy)) t) (rev baddies) t in
  let removedWindow := (0 <? length baddies)%nat in
  let needReload :=
    if removedWindow && sidebarExists then
      match sortStrings (map (fun e => id (data e)) baddies) with
      | [] => false
      | last :: rest => repeatsLast last rest
      end
    else false in
  (t', needReload).

Section SwapByIndex.
(** [tree.getTabIndex(node)], read from the tab-position index of the tree
    store. *)
Variable getTabIndex : Tree -> string -> option Z.





End SwapByIndex.

End Cleanup.

(* ===================================================================== *)
(** * Drag and drop: [planMovingDraggedRows] *)
(* ===================================================================== *)

Module DragDrop.

(** A planned move: [{ row, relation: 'nomove' }] or
    [{ row, relation, to }].  Rows are named by their element ids. *)
Inductive Move : Type :=
| NoMove (row : string)
| MoveRel (row : string) (relation : DataTree.Relation) (to : string).

Definition moveRow (m : Move) : string :=
  match m with NoMove r => r | MoveRel r _ _ => r end.

Definition isPrependOrAppend (relation : DataTree.Relation) : bool :=
  match relation with
  | DataTree.prepend | DataTree.append => true
  | _ => false
  end.

Definition isBeforeOrAfter (relation : DataTree.Relation) : bool :=
  match relation with
  | DataTree.before | DataTree.after => true
  | _ => false
  end.

(** The variables of the loop. *)
Record Plan : Type := mkPlan {
  insertPoint : DataTree.Relation * string;
  lastCsp : option (string * string);   (* [$lastCsp] and [$lastCspChild] *)
  moves : list Move
}.

(** The body of the loop for [$row] and its closest selected parent
    [$csp] ([None] when [$csp.length == 0]). *)
Definition planStep (relation : DataTree.Relation) (toRow : string)
    (p : Plan) (entry : string * option string) : Plan :=
  let '(row, csp) := entry in
  if String.eqb row toRow && isPrependOrAppend relation
  then mkPlan (insertPoint p) (lastCsp p) (moves p ++ [NoMove row])
  else
    let '(move, lastCsp') :=
      match csp with
      | None => (MoveRel row (fst (insertPoint p)) (snd (insertPoint p)), lastCsp p)
      | Some c =>
          (match lastCsp p with
           | Some (lc, lastCspChild) =>
               if String.eqb lc c then MoveRel row DataTree.after lastCspChild
               else match relation with
                    | DataTree.append => MoveRel row DataTree.append c
                    | _ => MoveRel row DataTree.prepend c
                    end
           | None =>
               match relation with
               | DataTree.append => MoveRel row DataTree.append c
               | _ => MoveRel row DataTree.prepend c
               end
           end, Some (c, row))
      end in
    let insertPoint' :=
      match fst (insertPoint p), csp with
      | DataTree.prepend, _ => (DataTree.after, row)
      | _, None => (DataTree.after, row)
      | _, Some _ => insertPoint p
      end in
    mkPlan insertPoint' lastCsp' (moves p ++ [move]).

Section Plan.
(** The searches in the document: [$e.parent().closest($rows)] and
    [this.findNearestInsertPoint($toRow, $rows, lookForward)]. *)
Variable closestSelectedParent : list string -> string -> option string.
Variable findNearestInsertPoint : string -> list string -> bool -> DataTree.Relation * string.

Definition planMovingDraggedRows (rows : list string) (relation : DataTree.Relation)
    (toRow : string) : list Move :=
  let initialRows := map (fun e => (e, closestSelectedParent rows e)) rows in
  let insertPoint :=
    if isBeforeOrAfter relation && existsb (String.eqb toRow) rows
    then findNearestInsertPoint toRow rows
           (match relation with DataTree.after => true | _ => false end)
    else (relation, toRow) in
  moves (fold_left (planStep relation toRow) initialRows (mkPlan insertPoint None [])).

End Plan.

End DragDrop.

(* ===================================================================== *)
(** * Statements used by the properties of the utilities and stages *)
(* ===================================================================== *)

(** No character of [s] is a line terminator. *)
Fixpoint noLineTerminator (s : string) : bool :=
  match s with
  | EmptyString => true
  | String c s' => negb (isLineTerminator c) && noLineTerminator s'
  end.

(** [s] contains a [#]. *)
Fixpoint hasHash (s : string) : bool :=
  match s with
  | EmptyString => false
  | String c s' => Ascii.eqb "#" c || hasHash s'
  end.

(** The events that change the association runs: the start of a run and
    the answer to its tab enumeration, the tick of a run, a detail
    response or fallback association for a tab, and the answer to the
    window enumeration for a New Tab page. *)
Inductive EngineStep `{Host} : State -> State -> Prop :=
| step_start st :
    EngineStep st (startAssociationRun st)
| step_tabs runId tabs st :
    EngineStep st (startAssociationRun_onTabs runId tabs st)
| step_tick runId st :
    EngineStep st (associatePagesCheck runId st)
| step_details runId tab referrer historylength st :
    EngineStep st (associateTabToPageNode runId tab referrer historylength st)
| step_windowTabs runId tab tabs st :
    EngineStep st (tryAssociateTab_onWindowTabs runId tab tabs st).

(** [associationConcurrentRuns] counts the registered runs, and there is at
    most one. *)
Definition runsAccounted (st : State) : Prop :=
  associationConcurrentRuns st = Z.of_nat (size (associationRuns st))
  /\ (size (associationRuns st) <= 1)%nat.

(** The counter table after a sequence of ticks, [pendings] being the
    [tabIds] lists the ticks find. *)
Definition tableAfterTicks (threshold : Q) (pendings : list (list Z)) (table : gmap Z Z)
    : gmap Z Z :=
  fold_left (fun table tabIds => fst (stubbornLoop threshold tabIds table)) pendings table.

(** The registered run ids and the run counter are the same in both
    states. *)
Definition sameRuns (st st' : State) : Prop :=
  dom (associationRuns st') = dom (associationRuns st)
  /\ associationConcurrentRuns st' = associationConcurrentRuns st.

(** The count of tab [t] has come to the threshold: the next tick that
    finds the tab pending gives it the fallback association. *)
Definition ripe (threshold : Q) (t : Z) (table : gmap Z Z) : Prop :=
  Qle_bool threshold (inject_Z (Js.orDefault (table !! t) 0 + 1)) = true.

(** The number of live tabs of the window [windowId]. *)
Definition countTabs (tabs : list Tab.t) (windowId : Z) : Z :=
  Z.of_nat (length (List.filter (fun t => Tab.windowId t =? windowId) tabs)).

(** The pairs [(win, windowId)] a pass of [associateWindowstoWindowNodes]
    has assigned, in order. *)
Definition assigned (l : WindowAssociation.Loop) : list (string * Z) :=
  combine (WindowAssociation.usedWindowNodes l) (WindowAssociation.usedWindowIds l).

(** What holds of the loop state of [associateWindowstoWindowNodes] after
    any number of pairings. *)
Definition pairInvariant (requireChildrenCountMatch prohibitMergingWindows : bool)
    (tabs : list Tab.t) (tally : WindowAssociation.Tally)
    (l : WindowAssociation.Loop) : Prop :=
  List.NoDup (WindowAssociation.usedWindowIds l)
  /\ List.NoDup (WindowAssociation.usedWindowNodes l)
  /\ length (WindowAssociation.usedWindowNodes l) = length (WindowAssociation.usedWindowIds l)
  /\ (requireChildrenCountMatch = true ->
      forall win windowId, In (win, windowId) (assigned l) ->
        WindowAssociation.winNodePageCounts tally !! win
        = WindowAssociation.windowTabCounts tabs !! windowId)
  /\ (prohibitMergingWindows = true -> WindowAssociation.merged l = []).

(** A node with [f] applied to the attributes of all its nodes; the
    structure of the tree is kept. *)
Fixpoint mapData (f : NodeData -> NodeData) (n : Node) : Node :=
  match n with
  | MkNode d cs => MkNode (f d) (map (mapData f) cs)
  end.

(** The attributes of a node apart from its binding to a live tab
    (container id, live id, position). *)
Definition withoutBinding (d : NodeData) : NodeData :=
  applyDetails [set_chromeId None; set_windowId None; set_index None] d.


(** The attributes of a window node once it is restored as the live
    window [windowId]: what [tree.updateNode(win, details)] and
    [tree.expandNode(win)] leave. *)
Definition restoredAs `{Host} (windowId : Z) (d : NodeData) : NodeData :=
  applyDetails [set_restorable false; set_hibernated false; set_chromeId (Some windowId);
                set_title WINDOW_DEFAULT_TITLE; set_collapsed false] d.

(** The attributes of a node after the window nodes of [pairs] are
    restored as the live windows paired with them; the attributes of a
    node that is not among them are as before. *)
Definition afterRestoring `{Host} (pairs : list (string * Z)) (d : NodeData) : NodeData :=
  match List.find (fun p => String.eqb (fst p) (id d)) pairs with
  | Some p => restoredAs (snd p) d
  | None => d
  end.

(** What holds of the loop of [associateWindowstoWindowNodes] over the
    pairings [candidates] after any number of them when merging is
    prohibited: the tree is the tree [t] the pass began with, apart from
    the attributes of the window nodes restored so far. *)
Definition restoredInPlace `{Host} (t : Tree) (candidates : list WindowAssociation.Pair)
    (l : WindowAssociation.Loop) : Prop :=
  WindowAssociation.loopTree l = map (mapData (afterRestoring (assigned l))) t
  /\ length (WindowAssociation.usedWindowNodes l) = length (WindowAssociation.usedWindowIds l)
  /\ forall p, In p (assigned l) -> In p candidates.

(** The binding of a node to a live tab. *)
Definition binding (d : NodeData) : option Z * option Z * option Z :=
  (chromeId d, windowId d, index d).

(** The ids and the bindings of the nodes of a tree, in traversal order. *)
Definition nodeIds (t : Tree) : list string := map (fun n => id (data n)) (DataTree.nodes t).
Definition bindings (t : Tree) : list (option Z * option Z * option Z) :=
  map (fun n => binding (data n)) (DataTree.nodes t).

(** The attributes of a node after the bindings of the nodes [item] and
    [other], which had the attributes [di] and [do], are exchanged. *)
Definition swapped (item other : string) (di do d : NodeData) : NodeData :=
  if String.eqb (id d) item then withBindingOf do d
  else if String.eqb (id d) other then withBindingOf di d
  else d.

(** The nodes of [t] are those of [t0], in the same order, and the
    bindings of [t] are those of [t0], rearranged. *)
Definition rearranged (t0 t : Tree) : Prop :=
  nodeIds t = nodeIds t0 /\ Permutation (bindings t) (bindings t0).

(** The attributes of a node after [tree.updateNode(target, details)]. *)
Definition patched (target : string) (details : list Detail) (d : NodeData) : NodeData :=
  if String.eqb (id d) target then applyDetails details d else d.

(** The tree without the nodes whose id satisfies [p], and without their
    descendants. *)
Fixpoint pruneIn (p : string -> bool) (n : Node) : Node :=
  match n with
  | MkNode d cs =>
      MkNode d (flat_map (fun c => if p (id (data c)) then [] else [pruneIn p c]) cs)
  end.

Definition prune (p : string -> bool) (t : Tree) : Tree :=
  flat_map (fun c => if p (id (data c)) then [] else [pruneIn p c]) t.

(** What is asked of a planned move: a row is never moved relative to
    itself, and a row that is not moved is the drop target of a drop
    into it. *)
Definition soundMove (relation : DataTree.Relation) (toRow : string) (m : DragDrop.Move) : Prop :=
  match m with
  | DragDrop.NoMove row => row = toRow /\ DragDrop.isPrependOrAppend relation = true
  | DragDrop.MoveRel row _ to => to <> row
  end.

(** What the loop of [planMovingDraggedRows] keeps true, [done] being the
    rows already planned and [initial] the first insert point. *)
Definition planInvariant (relation : DataTree.Relation) (toRow : string)
    (initial : DataTree.Relation * string) (done : list string) (p : DragDrop.Plan) : Prop :=
  map DragDrop.moveRow (DragDrop.moves p) = done
  /\ Forall (soundMove relation toRow) (DragDrop.moves p)
  /\ (DragDrop.insertPoint p = initial \/ In (snd (DragDrop.insertPoint p)) done)
  /\ (forall c child, DragDrop.lastCsp p = Some (c, child) -> In child done).

(** A descendant of a window node that counts towards
    [winNodePageCounts]: a tab whose pinned and incognito flags are those
    of its live tab. *)
Definition countsAsPage (tabs : list Tab.t) (e : Node) : bool :=
  isTab e
  && match List.find (fun t => Js.looseEq (Some (Tab.id t)) (chromeId (data e))) tabs with
     | Some tab => Bool.eqb (pinned (data e)) (Tab.pinned tab)
                   && Bool.eqb (incognito (data e)) (Tab.incognito tab)
     | None => false
     end.

(** The attributes of the nodes of a tree, in traversal order. *)
Definition nodeData (t : Tree) : list NodeData := map data (DataTree.nodes t).

(** The topmost nodes of id [i], which [tree.moveNodeRel] takes out of the
    tree together with their descendants. *)
Fixpoint cutIn (i : string) (n : Node) : list Node :=
  match n with
  | MkNode _ cs => flat_map (fun c => if String.eqb (id (data c)) i then [c] else cutIn i c) cs
  end.

Definition cut (i : string) (t : Tree) : list Node :=
  flat_map (fun c => if String.eqb (id (data c)) i then [c] else cutIn i c) t.

(** The number of places at which [tree.moveNodeRel] puts the moved node
    back for the target id [to]. *)
Fixpoint insertionsAmong (inside : Node -> nat) (to : string) (siblings : list Node) : nat :=
  match siblings with
  | [] => 0
  | c :: rest =>
      if String.eqb (id (data c)) to then 1
      else inside c + insertionsAmong inside to rest
  end.

Fixpoint insertionsIn (to : string) (n : Node) : nat :=
  match n with
  | MkNode _ cs => insertionsAmong (insertionsIn to) to cs
  end.

(** [k] copies of the attributes of the nodes of the subtree of [n]. *)
Definition copies (n : Node) (k : nat) : list NodeData :=
  concat (repeat (map data (DataTree.subtree n)) k).

(** The [total] counters of the registered runs. *)
Definition runTotals (st : State) : gmap string Z := RunInfo.total <$> associationRuns st.

(** Every scored pairing with its score, as recorded in [counts]. *)
Definition recordedPairings (counts : list (WindowAssociation.Score * list WindowAssociation.Pair))
    : list (WindowAssociation.Score * WindowAssociation.Pair) :=
  flat_map (fun e => map (fun p => (fst e, p)) (snd e)) counts.

(** The attributes of a page node once it is bound to the live tab [tab]:
    it carries the id, the window id, the position and the pinned state of
    the tab, is restored, and is neither hibernated nor restorable; its
    other attributes are as before. *)
Definition boundTo (tab : Tab.t) (d : NodeData) : NodeData :=
  {| id := id d; elemType := elemType d;
     chromeId := Some (Tab.id tab); windowId := Some (Tab.windowId tab);
     index := Some (Tab.index tab);
     url := url d; title := title d; referrer := referrer d;
     historylength := historylength d;
     pinned := Tab.pinned tab; incognito := incognito d;
     hibernated := false; restorable := false; restored := true;
     collapsed := collapsed d |}.

(** Every node of the tree carrying the live id [windowId] is the node of
    a live window. *)
Definition windowIsLive (t : Tree) (windowId : Z) : Prop :=
  forall n, In n (DataTree.nodes t) -> chromeId (data n) = Some windowId ->
            isWindowNode n = true /\ hibernated (data n) = false.

(** The host reorders pinned and unpinned tabs without touching the
    attributes of any node. *)
Definition keepsAttributes `{Host} : Prop :=
  forall page t i, dataOf (fixPinnedUnpinnedTabOrder page t) i = dataOf t i.

(* ===================================================================== *)
(** * Properties *)
(* ===================================================================== *)

(** ** JavaScript helpers *)

Lemma looseEq_spec a b : Js.looseEq a b = true <-> a = b.
Proof.
  destruct a as [x|], b as [y|]; simpl; split; intros E;
    try discriminate; try reflexivity.
  - apply Z.eqb_eq in E. now subst.
  - inversion E. apply Z.eqb_refl.
Qed.

Lemma splice_nothing {A} (start : Z) (l : list A) : Js.splice start 0 l = l.
Proof.
  unfold Js.splice.
  set (len := Z.of_nat (length l)).
  set (s := if start <? 0 then Z.max (len + start) 0 else Z.min start len).
  assert (Hs : 0 <= s <= len).
  { subst s len. destruct (start <? 0) eqn:E.
    - apply Z.ltb_lt in E. lia.
    - apply Z.ltb_ge in E. lia. }
  replace (Z.min (Z.max 0 0) (len - s)) with 0 by lia.
  rewrite Z.add_0_r. apply firstn_skipn.
Qed.

(** ** Regular expressions: the matcher decides [Matches] *)

Section RegexCorrect.
Import Regex.

Lemma append_empty (s1 s2 : string) :
  String.append s1 s2 = "" -> s1 = "" /\ s2 = "".
Proof. destruct s1; simpl; [now split | discriminate]. Qed.

Lemma nullable_spec (r : re) : nullable r = true <-> Matches r "".
Proof.
  split.
  - induction r; simpl; intros E; try discriminate.
    + constructor.
    + apply andb_prop in E as [E1 E2].
      change "" with (String.append "" ""). constructor; auto.
    + apply orb_prop in E as [E | E]; [apply MAltL | apply MAltR]; auto.
    + constructor.
  - intros M. remember "" as s eqn:Es.
    induction M; subst; simpl; try reflexivity; try discriminate.
    + apply append_empty in Es as [-> ->]. now rewrite IHM1, IHM2.
    + now rewrite IHM.
    + rewrite IHM; [apply orb_true_r | reflexivity].
Qed.

Lemma seq'_spec (a b : re) (s : string) : Matches (seq' a b) s <-> Matches (Seq a b) s.
Proof.
  assert (Hv : forall x w, Matches (Seq Void x) w -> False).
  { intros x w M. inversion M as [| |? ? ? ? M1| | | |]; subst. inversion M1. }
  assert (Hv' : forall x w, Matches (Seq x Void) w -> False).
  { intros x w M. inversion M as [| |? ? ? ? M1 M2| | | |]; subst. inversion M2. }
  assert (He : forall x w, Matches x w <-> Matches (Seq Eps x) w).
  { intros x w. split.
    - intros M. change w with (String.append "" w). constructor; [constructor | assumption].
    - intros M. inversion M as [| |? ? ? ? M1 M2| | | |]; subst.
      inversion M1; subst. exact M2. }
  destruct a, b; simpl; try reflexivity; try apply He;
    split; intros M; try (now inversion M);
    try (exfalso; eapply Hv; eassumption); try (exfalso; eapply Hv'; eassumption).
Qed.

Lemma alt'_spec (a b : re) (s : string) : Matches (alt' a b) s <-> Matches (Alt a b) s.
Proof.
  destruct a, b; simpl; try reflexivity; split; intros M;
    try (now apply MAltL); try (now apply MAltR);
    try (inversion M as [| | |? ? ? M1|? ? ? M1| |]; subst; (assumption || now inversion M1)).
Qed.

Lemma Matches_seq_cons (a b : re) (c : ascii) (s : string) :
  Matches (Seq a b) (String c s)
  <-> (exists s1 s2, s = String.append s1 s2 /\ Matches a (String c s1) /\ Matches b s2)
      \/ (Matches a "" /\ Matches b (String c s)).
Proof.
  split.
  - intros M. remember (Seq a b) as r eqn:Er. remember (String c s) as w eqn:Ew.
    destruct M as [| |a' b' s1 s2 M1 M2| | | |]; try discriminate.
    injection Er as -> ->.
    destruct s1 as [|c' s1]; simpl in Ew.
    + right. subst. now split.
    + injection Ew as -> <-. left. now exists s1, s2.
  - intros [(s1 & s2 & -> & M1 & M2) | [M1 M2]].
    + change (String c (String.append s1 s2)) with (String.append (String c s1) s2).
      now constructor.
    + change (String c s) with (String.append "" (String c s)). now constructor.
Qed.

Lemma Matches_star_cons (a : re) (c : ascii) (s : string) :
  Matches (Star a) (String c s) ->
  exists s1 s2, s = String.append s1 s2 /\ Matches a (String c s1) /\ Matches (Star a) s2.
Proof.
  intros M. remember (Star a) as r eqn:Er. remember (String c s) as w eqn:Ew.
  revert s Ew.
  induction M as [| | | | | |a' s1 s2 M1 _ M2 IH2]; intros s0 Ew; try discriminate.
  injection Er as ->.
  destruct s1 as [|c' s1]; simpl in Ew.
  - now apply IH2.
  - injection Ew as -> <-. now exists s1, s2.
Qed.

Lemma deriv_spec (r : re) : forall (c : ascii) (s : string),
  Matches (deriv c r) s <-> Matches r (String c s).
Proof.
  induction r as [| |p|a IHa b IHb|a IHa b IHb|a IHa]; intros c s; simpl.
  - split; intros M; inversion M.
  - split; intros M; inversion M.
  - destruct (p c) eqn:E; split; intros M.
    + inversion M; subst. now constructor.
    + inversion M; subst. constructor.
    + inversion M.
    + inversion M; subst. congruence.
  - rewrite Matches_seq_cons.
    destruct (nullable a) eqn:En.
    + rewrite alt'_spec. split.
      * intros M. inversion M as [| | |? ? ? M1|? ? ? M1| |]; subst.
        -- apply seq'_spec in M1.
           inversion M1 as [| |? ? s1 s2 N1 N2| | | |]; subst.
           left. exists s1, s2. split; [reflexivity|]. split; [now apply IHa | assumption].
        -- right. split; [now apply nullable_spec | now apply IHb].
      * intros [(s1 & s2 & -> & M1 & M2) | [M1 M2]].
        -- apply MAltL. apply seq'_spec. constructor; [now apply IHa | assumption].
        -- apply MAltR. now apply IHb.
    + rewrite seq'_spec. split.
      * intros M. inversion M as [| |? ? s1 s2 N1 N2| | | |]; subst.
        left. exists s1, s2. split; [reflexivity|]. split; [now apply IHa | assumption].
      * intros [(s1 & s2 & -> & M1 & M2) | [M1 M2]].
        -- constructor; [now apply IHa | assumption].
        -- apply nullable_spec in M1. congruence.
  - rewrite alt'_spec. split; intros M;
      inversion M as [| | |? ? ? M1|? ? ? M1| |]; subst;
      [apply MAltL; now apply IHa | apply MAltR; now apply IHb
      | apply MAltL; now apply IHa | apply MAltR; now apply IHb].
  - rewrite seq'_spec. split.
    + intros M. inversion M as [| |? ? s1 s2 N1 N2| | | |]; subst.
      change (String c (String.append s1 s2)) with (String.append (String c s1) s2).
      constructor; [now apply IHa | assumption].
    + intros M. apply Matches_star_cons in M as (s1 & s2 & -> & M1 & M2).
      constructor; [now apply IHa | assumption].
Qed.

(** [fullMatch] decides whether the whole string matches. *)
Lemma fullMatch_spec (s : string) : forall r, fullMatch r s = true <-> Matches r s.
Proof.
  induction s as [|c s IH]; intros r; simpl.
  - apply nullable_spec.
  - rewrite IH. apply deriv_spec.
Qed.

(** [test] decides whether a prefix of the string matches. *)
Lemma test_spec (s : string) : forall r,
  test r s = true <-> exists p rest, s = String.append p rest /\ Matches r p.
Proof.
  induction s as [|c s IH]; intros r; simpl.
  - rewrite orb_false_r, nullable_spec. split.
    + intros M. now exists "", "".
    + intros (p & rest & E & M). symmetry in E. apply append_empty in E as [-> _].
      exact M.
  - rewrite orb_true_iff, nullable_spec, IH. split.
    + intros [M | (p & rest & -> & M)].
      * now exists "", (String c s).
      * exists (String c p), rest. split; [reflexivity | now apply deriv_spec].
    + intros (p & rest & E & M). destruct p as [|c' p]; simpl in E.
      * now left.
      * injection E as <- ->. right. exists p, rest. split; [reflexivity|].
        now apply deriv_spec.
Qed.

End RegexCorrect.

(** ** URL helpers *)

Example isScriptableUrl_examples :
  map isScriptableUrl
    [""; "about:blank"; "file:///tmp/a.html"; "view-source:http://example.org/";
     "chrome://settings/"; "chrome-extension://abcdef/sidebar.html";
     "https://chrome.google.com/webstore/detail/x"; "http://example.org/";
     "https://www.google.com/search?q=chrome"]
  = [false; false; false; false; false; false; false; true; true].
Proof. reflexivity. Qed.

Example blankable_referrer_examples :
  map blankedReferrer
    [""; "http://example.org/";
     "https://www.google.com/url?sa=t&source=web&cd=1";
     "http://www.google.com/search?q=x&sugexp=chrome,mod=12&sourceid=chrome&ie=UTF-8";
     "https://www.google.com/search?q=x"]
  = [""; "http://example.org/"; ""; ""; "https://www.google.com/search?q=x"].
Proof. reflexivity. Qed.

Example getGoogleTestUrl_examples :
  isGoogleSearchUrl "https://www.google.com/search?q=abc&sei=AbC123&x=1#foo" = true
  /\ getGoogleTestUrl "https://www.google.com/search?q=abc&sei=AbC123&x=1#foo"
     = "https://www.google.com/search?q=abc&&x=1"
  /\ isGoogleSearchUrl "http://example.org/search?q=abc" = false.
Proof. repeat split. Qed.

(** ** Matcher *)

(** The referrer used for the second comparison is the referrer itself
    unless it matches [CHROME_BLANKABLE_REFERRER_REGEXP], in which case it
    is the empty string. *)
Lemma blankedReferrer_spec (r : string) :
  blankedReferrer r = if test CHROME_BLANKABLE_REFERRER_REGEXP r then "" else r.
Proof.
  unfold blankedReferrer. destruct (String.eqb_spec r "") as [->|_]; simpl.
  - now destruct (test CHROME_BLANKABLE_REFERRER_REGEXP "").
  - reflexivity.
Qed.

(** C6: when a referrer criterion is supplied and differs from the
    referrer of the candidate, the candidate matches exactly when the other
    criteria hold and either the query and the candidate are both pinned,
    or the two referrers are equal once each of them that matches
    [CHROME_BLANKABLE_REFERRER_REGEXP] is replaced by the empty string; a
    candidate failing both rules does not match. *)
Theorem findPageNodeForAssociation_referrer_rule
    (t : Tree) (params : Params.t) (node : Node) (r : string) :
  Params.referrer params = Some r ->
  r <> referrer (data node) ->
  testNodeForAssociation t params node
  = testNodeForAssociation t (Params.withoutReferrer params) node
    && ((match Params.pinned params with Some true => pinned (data node) | _ => false end)
        || String.eqb
             (if test CHROME_BLANKABLE_REFERRER_REGEXP r then "" else r)
             (if test CHROME_BLANKABLE_REFERRER_REGEXP (referrer (data node))
              then "" else referrer (data node))).
Proof.
  intros Hr Hne.
  apply String.eqb_neq in Hne.
  rewrite <- !blankedReferrer_spec.
  unfold testNodeForAssociation.
  destruct params as [hib rest top u ti rf hl pn inc nm]; simpl in *; subst rf.
  destruct (negb (isPageNode node)); [reflexivity|].
  destruct (isGoogleSearchUrl u && negb (isGoogleSearchUrl (url (data node))));
    [reflexivity|].
  match goal with |- (if negb ?m then _ else _) = _ => destruct m end;
    simpl; [|reflexivity].
  match goal with |- (if ?c then _ else _) = _ => destruct c end;
    simpl; [reflexivity|].
  rewrite Hne.
  destruct pn as [[|]|]; simpl; reflexivity.
Qed.

(** A node whose referrer Chrome blanked after a restart matches a query
    carrying the blankable referrer; a node with another referrer does
    not. *)
Lemma findPageNodeForAssociation_referrer_rule_witness :
  Params.referrer
    (Params.mk true true false "http://site/" None
       (Some "https://www.google.com/url?sa=t&source=web") None (Some false) None None)
  = Some "https://www.google.com/url?sa=t&source=web"
  /\ "https://www.google.com/url?sa=t&source=web"
     <> referrer (data (Ex.sleepingNode "s" 1 "http://site/"))
  /\ testNodeForAssociation Ex.freeTree
       (Params.mk true true false "http://site/" None
          (Some "https://www.google.com/url?sa=t&source=web") None (Some false) None None)
       (Ex.sleepingNode "s" 1 "http://site/")
     = true.
Proof.
  split; [reflexivity|]. split; [discriminate|].
  rewrite (findPageNodeForAssociation_referrer_rule Ex.freeTree _ _
             "https://www.google.com/url?sa=t&source=web");
    [reflexivity | reflexivity | discriminate].
Defined.

(** The same node does not match a query whose referrer is not blankable
    and differs from its own. *)
Example findPageNodeForAssociation_other_referrer :
  testNodeForAssociation Ex.freeTree
    (Params.mk true true false "http://site/" None
       (Some "http://example.org/") None (Some false) None None)
    (Ex.sleepingNode "s" 1 "http://site/")
  = false.
Proof. reflexivity. Qed.

(** ** Association runs *)

(** C10: for a tab whose incognito flag is set, [tryAssociateTab] returns
    [false] and leaves the state as it was: no fast or blind association,
    no detail query, and the tab is not added to the [tabIds] of the
    run. *)
Theorem tryAssociateTab_incognito `{Host}
    (runId : string) (tab : Tab.t) (forceNewTabAssociation : bool) (st : State) :
  Tab.incognito tab = true ->
  tryAssociateTab runId tab forceNewTabAssociation st = (false, st).
Proof.
  intros Hinc. unfold tryAssociateTab. rewrite Hinc. reflexivity.
Qed.

Lemma tryAssociateTab_incognito_witness :
  Tab.incognito Ex.incognitoTab = true
  /\ tryAssociateTab "run" Ex.incognitoTab false Ex.pendingState
     = (false, Ex.pendingState).
Proof.
  split; [reflexivity|].
  apply (tryAssociateTab_incognito "run" Ex.incognitoTab false Ex.pendingState).
  reflexivity.
Defined.

(** At the start of a run an incognito tab that has no node only adds
    to the [total] of the run: the tree, the pending lists and the effects
    are as before. *)
Lemma associateListedTab_incognito `{Host} (runId : string) (st : State) (tab : Tab.t) :
  Tab.incognito tab = true ->
  tree (associateListedTab runId st tab) = tree st
  /\ effects (associateListedTab runId st tab) = effects st
  /\ forall r, pendingTabIds (associateListedTab runId st tab) r = pendingTabIds st r.
Proof.
  intros Hinc. unfold associateListedTab, tryAssociateTab. rewrite Hinc.
  destruct (isSidebarTab tab); [now repeat split|].
  destruct (DataTree.getNodeByChromeId (tree st) (Tab.id tab)); [now repeat split|].
  repeat split. intros r. unfold pendingTabIds, bumpTotal; simpl.
  destruct (associationRuns st !! runId) as [runInfo|] eqn:E; [|reflexivity].
  destruct (decide (runId = r)) as [<-|Hne].
  - now rewrite lookup_insert_eq, E.
  - now rewrite lookup_insert_ne.
Qed.

(** ** Stubborn tabs *)

Section StubbornLoop.
Variable threshold : Q.
Variable t : Z.





End StubbornLoop.

Lemma threshold_reached (count : Z) :
  Qle_bool ASSOCIATE_STUBBORN_TAB_FALLBACK_THRESHOLD_ITERATIONS (inject_Z count)
  = (15 <=? count).
Proof.
  unfold Qle_bool. simpl.
  unfold ASSOCIATE_STUBBORN_TAB_FALLBACK_THRESHOLD_MS.
  change (Z.pos (1 * 1000)) with 1000.
  destruct (15 <=? count) eqn:E.
  - apply Z.leb_le in E. apply Z.leb_le. lia.
  - apply Z.leb_gt in E. apply Z.leb_gt. lia.
Qed.

(** Effects accumulate; the other components of the state are untouched by
    [emit]. *)
Lemma fold_emit (f : Z -> Effect) (l : list Z) : forall s,
  fold_left (fun st x => emit (f x) st) l s
  = mkState (tree s) (associationRuns s) (associationStubbornTabIds s)
            (associationConcurrentRuns s) (effects s ++ map f l).
Proof.
  induction l as [|x l IH]; intros s; simpl.
  - destruct s; simpl. now rewrite app_nil_r.
  - rewrite IH. unfold emit; simpl. now rewrite <- app_assoc.
Qed.


Lemma associatePagesCheckWith_fallbacks `{Host} (threshold : Q) (runId : string)
    (st : State) (runInfo : RunInfo.t) (t : Z) :
  associationRuns st !! runId = Some runInfo ->
  (In (FallbackAssociation t runId) (effects (associatePagesCheckWith threshold runId st))
   <-> In (FallbackAssociation t runId) (effects st)
       \/ In t (snd (stubbornLoop threshold (RunInfo.tabIds runInfo)
                       (associationStubbornTabIds st)))).
Proof.
  intros Hrun. unfold associatePagesCheckWith. rewrite Hrun.
  destruct (stubbornLoop threshold _ _) as [table forced]; simpl.
  rewrite fold_emit. unfold startAssociationRun, endAssociationRun; simpl.
  assert (Hmap : In (FallbackAssociation t runId)
                    (map (fun x => FallbackAssociation x runId) forced) <-> In t forced).
  { rewrite in_map_iff. split.
    - intros [x [E Hx]]. now injection E as ->.
    - intros Hx. now exists t. }
  match goal with |- context [if ?c then _ else _] => destruct c end; simpl;
    rewrite !in_app_iff, Hmap; simpl; intuition discriminate.
Qed.

(** A tick never deletes an entry of the counter table. *)
Lemma stubbornLoop_keeps_entries (threshold : Q) (tabIds : list Z) : forall (table : gmap Z Z) (k : Z),
  is_Some (table !! k) ->
  is_Some (fst (stubbornLoop threshold tabIds table) !! k).
Proof.
  induction tabIds as [|a p IH]; intros table k Hk; simpl; [assumption|].
  destruct (Qle_bool threshold _).
  - specialize (IH table k Hk).
    destruct (stubbornLoop threshold p table); assumption.
  - apply IH. destruct (decide (a = k)) as [->|Hne].
    + rewrite lookup_insert_eq. eauto.
    + now rewrite lookup_insert_ne.
Qed.







(** ** Restoring and binding *)

Section Frames.
Context `{Host}.

Lemma restoreAssociatedPage_frame (tab : Tab.t) (page : string) (st : State) :
  associationRuns (restoreAssociatedPage tab page st) = associationRuns st
  /\ associationStubbornTabIds (restoreAssociatedPage tab page st)
     = associationStubbornTabIds st
  /\ List.filter isDetailQuery (effects (restoreAssociatedPage tab page st))
     = List.filter isDetailQuery (effects st).
Proof.
  unfold restoreAssociatedPage.
  destruct (Tab.active tab && Js.looseEq getFocused (Some (Tab.windowId tab))); simpl;
    match goal with |- context [match ?o with Some _ => _ | None => _ end] =>
      destruct o end; simpl;
    rewrite ?List.filter_app; simpl; rewrite ?app_nil_r; auto.
Qed.

Lemma fastCandidates_scope (t : Tree) (tab : Tab.t) (mustBeRestorable : bool) :
  fastCandidates t tab mustBeRestorable
  = List.filter (fastMatches tab mustBeRestorable) (fastScope t tab).
Proof.
  unfold fastCandidates, fastScope, DataTree.filter.
  destruct (DataTree.getNodeByChromeId t (Tab.windowId tab)); reflexivity.
Qed.

End Frames.

(** C5 (as stated): on a tree where the window of the tab already has a
    node and the only candidate lies under another window node, the
    tree-wide candidate set has exactly one member, yet the tab is not
    bound. *)
Lemma tryFastAssociateTab_ignores_candidates_out_of_scope :
  ~ fastAssociation_spec Ex.scopeTab true (Ex.emptyState Ex.scopeTree).
Proof.
  unfold fastAssociation_spec. intros [_ Hbind].
  apply Hbind; [left; reflexivity | reflexivity].
Qed.

(** A settings page with two identical candidates is bound to the first
    of them without a detail query. *)
Example tryFastAssociateTab_settings_page :
  isScriptableUrl (Tab.url Ex.settingsTab) = false
  /\ option_map (fun n => id (data n))
       (fst (tryFastAssociateTab Ex.settingsTab true (Ex.emptyState Ex.settingsTree)))
     = Some "s1"
  /\ Disambiguator.chromeIdOf
       (tree (snd (tryFastAssociateTab Ex.settingsTab true (Ex.emptyState Ex.settingsTree))))
       "s1" = Some 400
  /\ effects (snd (tryFastAssociateTab Ex.settingsTab true (Ex.emptyState Ex.settingsTree)))
     = [GetTabStatus 400].
Proof. repeat split. Qed.

Section BlindAssociation.
Context `{Host}.

Lemma associateTabToPageNode_frame (runId : string) (tab : Tab.t)
    (referrer : option string) (historylength : option Z) (st : State) :
  List.filter isDetailQuery
    (effects (associateTabToPageNode runId tab referrer historylength st))
  = List.filter isDetailQuery (effects st)
  /\ forall r, pendingTabIds (associateTabToPageNode runId tab referrer historylength st) r
               = pendingTabIds st r.
Proof.
  unfold associateTabToPageNode.
  set (st1 := match associationRuns st !! runId with Some _ => _ | None => st end).
  assert (H1 : List.filter isDetailQuery (effects st1) = List.filter isDetailQuery (effects st)
               /\ forall r, pendingTabIds st1 r = pendingTabIds st r).
  { subst st1. destruct (associationRuns st !! runId) as [runInfo|] eqn:E; [|now split].
    split.
    - simpl. rewrite List.filter_app. simpl. apply app_nil_r.
    - intros r. unfold pendingTabIds; simpl.
      destruct (decide (runId = r)) as [<-|Hne].
      + rewrite lookup_insert_eq, E. simpl. apply splice_nothing.
      + now rewrite lookup_insert_ne. }
  destruct H1 as [Hq Hp]. cbv zeta.
  destruct (DataTree.getNodeByChromeId (tree st1) (Tab.id tab)); [now split|].
  destruct (findPageNodeForAssociation (tree st1) _).
  - destruct (restoreAssociatedPage_frame tab (id (data n)) st1) as (R1 & _ & R3).
    split; [now rewrite R3|].
    intros r. unfold pendingTabIds. rewrite R1. apply Hp.
  - destruct (Tab.active tab && _); simpl.
    + split; [|exact Hp]. rewrite List.filter_app. simpl. now rewrite app_nil_r.
    + split; [exact Hq | exact Hp].
Qed.

(** X27.  A tab whose url is not scriptable is never queued for a detail
    response and never asked for one by [tryAssociateTab]. *)
Lemma tryAssociateTab_not_scriptable (runId : string) (tab : Tab.t)
    (forceNewTabAssociation : bool) (st : State) :
  isScriptableUrl (Tab.url tab) = false ->
  List.filter isDetailQuery
    (effects (snd (tryAssociateTab runId tab forceNewTabAssociation st)))
  = List.filter isDetailQuery (effects st)
  /\ forall r, pendingTabIds (snd (tryAssociateTab runId tab forceNewTabAssociation st)) r
               = pendingTabIds st r.
Proof.
  intros Hns. unfold tryAssociateTab.
  destruct (Tab.incognito tab); [now split|].
  destruct (negb forceNewTabAssociation && isNewTabUrl (Tab.url tab)
            && (Tab.index tab =? 0) && negb (Tab.pinned tab)).
  { simpl. split; [|now intros r]. rewrite List.filter_app. simpl. apply app_nil_r. }
  unfold tryFastAssociateTab. rewrite Hns. simpl.
  destruct (fastCandidates (tree st) tab true) as [|m ms]; simpl.
  - destruct (isNewTabUrl (Tab.url tab)); [now split|].
    apply associateTabToPageNode_frame.
  - rewrite orb_true_r. simpl.
    destruct (restoreAssociatedPage_frame tab (id (data m)) st) as (R1 & _ & R3).
    split; [exact R3|]. intros r. unfold pendingTabIds. now rewrite R1.
Qed.

End BlindAssociation.

(** C8 (as amended): when a detail response is processed for a tab of a
    run that is still active, the count of associated tabs of the run is
    incremented, and the stubborn counter table is left as it was; a tick
    never deletes an entry of the table either, so a tab that is bound or
    given the fallback association keeps the counter entry it had. *)
Theorem associateTabToPageNode_live_run `{Host}
    (runId : string) (tab : Tab.t) (referrer : option string)
    (historylength : option Z) (st : State) (runInfo : RunInfo.t) :
  associationRuns st !! runId = Some runInfo ->
  associationStubbornTabIds (associateTabToPageNode runId tab referrer historylength st)
  = associationStubbornTabIds st
  /\ (exists runInfo',
        associationRuns (associateTabToPageNode runId tab referrer historylength st)
          !! runId = Some runInfo'
        /\ RunInfo.count runInfo' = RunInfo.count runInfo + 1)
  /\ (forall threshold tabIds k,
        is_Some (associationStubbornTabIds st !! k) ->
        is_Some (fst (stubbornLoop threshold tabIds (associationStubbornTabIds st)) !! k)).
Proof.
  intros Hrun. unfold associateTabToPageNode. rewrite Hrun. cbv zeta.
  set (st1 := withRuns _ (emit _ st)).
  assert (Hruns1 : exists runInfo', associationRuns st1 !! runId = Some runInfo'
                     /\ RunInfo.count runInfo' = RunInfo.count runInfo + 1).
  { eexists. split; [apply lookup_insert_eq | reflexivity]. }
  split; [|split].
  - destruct (DataTree.getNodeByChromeId (tree st1) (Tab.id tab)); [reflexivity|].
    destruct (findPageNodeForAssociation (tree st1) _).
    + now rewrite (proj1 (proj2 (restoreAssociatedPage_frame _ _ _))).
    + destruct (Tab.active tab && _); reflexivity.
  - destruct (DataTree.getNodeByChromeId (tree st1) (Tab.id tab)); [assumption|].
    destruct (findPageNodeForAssociation (tree st1) _).
    + now rewrite (proj1 (restoreAssociatedPage_frame _ _ _)).
    + destruct (Tab.active tab && _); assumption.
  - intros threshold tabIds k. apply stubbornLoop_keeps_entries.
Qed.

Lemma associateTabToPageNode_live_run_witness :
  associationRuns Ex.pendingState !! "run" = Some (RunInfo.mk "run" 1 0 [7])
  /\ associationStubbornTabIds
       (associateTabToPageNode "run" Ex.pendingTab (Some "") (Some 1) Ex.pendingState)
     = associationStubbornTabIds Ex.pendingState.
Proof.
  split; [reflexivity|].
  apply (associateTabToPageNode_live_run "run" Ex.pendingTab (Some "") (Some 1)
           Ex.pendingState (RunInfo.mk "run" 1 0 [7])).
  reflexivity.
Defined.

(** C8 (as stated): tab 7 is pending in the active run with a stubborn
    count of 3; once its detail response is processed the tab is bound to
    the node [s], yet it has not been cleared: its counter entry is still
    there. *)
Lemma associateTabToPageNode_leaves_counter :
  Disambiguator.chromeIdOf
    (tree (associateTabToPageNode "run" Ex.pendingTab (Some "") (Some 1) Ex.pendingState))
    "s" = Some 7
  /\ ~ clearedAfterDetail 7 "run"
         (associateTabToPageNode "run" Ex.pendingTab (Some "") (Some 1) Ex.pendingState).
Proof.
  split; [reflexivity|].
  intros [_ Hcounter]. vm_compute in Hcounter. discriminate.
Qed.

(** ** Reconciler *)

Section AssociatePair.
Context `{Host}.
Variables (requireChildrenCountMatch prohibitMergingWindows : bool).
Variables (tabs : list Tab.t) (tally : WindowAssociation.Tally).
Variables (l : WindowAssociation.Loop) (win : string) (windowId : Z).

(** A pairing whose live window id or window node was already assigned in
    this pass is skipped. *)
Lemma associatePair_used_skips :
  In windowId (WindowAssociation.usedWindowIds l)
  \/ In win (WindowAssociation.usedWindowNodes l) ->
  WindowAssociation.associatePair requireChildrenCountMatch prohibitMergingWindows
    tabs tally l (win, windowId) = l.
Proof.
  intros Hused. unfold WindowAssociation.associatePair.
  assert (E : existsb (Z.eqb windowId) (WindowAssociation.usedWindowIds l)
              || existsb (String.eqb win) (WindowAssociation.usedWindowNodes l) = true).
  { apply orb_true_iff. destruct Hused as [Hin | Hin]; [left | right];
      apply existsb_exists; eexists; (split; [exact Hin|]).
    - apply Z.eqb_refl.
    - apply String.eqb_refl. }
  now rewrite E.
Qed.

(** Stringent matching: a pairing whose counts differ is skipped. *)
Lemma associatePair_stringent_skips :
  requireChildrenCountMatch = true ->
  WindowAssociation.winNodePageCounts tally !! win
  <> WindowAssociation.windowTabCounts tabs !! windowId ->
  WindowAssociation.associatePair requireChildrenCountMatch prohibitMergingWindows
    tabs tally l (win, windowId) = l.
Proof.
  intros -> Hne. unfold WindowAssociation.associatePair.
  destruct (existsb _ _ || existsb _ _); [reflexivity|].
  destruct (Js.looseEq _ _) eqn:E; [|reflexivity].
  apply looseEq_spec in E. contradiction.
Qed.

(** Merging prohibited: a pairing whose live window id already has a node
    is skipped. *)
Lemma associatePair_prohibited_skips (existingWinNode : Node) :
  prohibitMergingWindows = true ->
  DataTree.getNodeByChromeId (WindowAssociation.loopTree l) windowId = Some existingWinNode ->
  WindowAssociation.associatePair requireChildrenCountMatch prohibitMergingWindows
    tabs tally l (win, windowId) = l.
Proof.
  intros -> Hex. unfold WindowAssociation.associatePair.
  destruct (existsb _ _ || existsb _ _); [reflexivity|].
  destruct (requireChildrenCountMatch && _); [reflexivity|].
  now rewrite Hex.
Qed.

End AssociatePair.

(** A container-association stage runs [associateWindowstoWindowNodes] with
    its two flags. *)
Lemma runStage_association `{Host} (tabs : list Tab.t)
    (collaborator : Reconciler.Stage -> Tree -> Tree) (s : Reconciler.Stage) (t : Tree) :
  Reconciler.isAssociateWindows s = true ->
  Reconciler.runStage tabs collaborator s t
  = WindowAssociation.associateWindowstoWindowNodes
      (Reconciler.stringent s) (Reconciler.mergingProhibited s) tabs t.
Proof. destruct s; simpl; intros E; try discriminate. reflexivity. Qed.

(** C2 (as amended): the container-association stages of the pipeline
    are stage 2, stringent with merging permitted; stage 4, stringent with
    merging prohibited; stage 6, relaxed with merging prohibited; stage 8,
    relaxed with merging permitted. *)
Theorem rectifyAssociations_association_stages :
  Reconciler.associationStage 2 true false
  /\ Reconciler.associationStage 4 true true
  /\ Reconciler.associationStage 6 false true
  /\ Reconciler.associationStage 8 false false.
Proof.
  repeat split; eexists; (split; [reflexivity | repeat split]).
Qed.

(** C2 (as stated): the stages are not in the order listed, stage 2
    permits merging. *)
Lemma rectifyAssociations_stage_order_not_as_listed : ~ stageOrder_spec.
Proof.
  intros [[s [Hs [_ [_ Hm]]]] _].
  vm_compute in Hs. injection Hs as <-. discriminate.
Qed.

(** Stage 2 merges the node of an already-live window into the restorable
    window node; with the flags of stage 4 the same tree is left alone. *)
Example stage2_merges_stage4_does_not :
  option_map (fun t => (WindowMerger.childIds t "wB",
                        Disambiguator.chromeIdOf t "wB",
                        DataTree.getNodeById t "wA"))
    (WindowAssociation.associateWindowstoWindowNodes true false Ex.stageTabs Ex.stageTree)
  = Some (["b1"], Some 7, None)
  /\ WindowAssociation.associateWindowstoWindowNodes true true Ex.stageTabs Ex.stageTree
     = Some Ex.stageTree.
Proof. split; reflexivity. Qed.

(** ** WindowMerger *)

(** C4: merging a window whose children are at live positions 0, 1, 2
    into a window holding position 1 leaves the destination children at
    positions 1, 2, 0, 1, the nodes from the source in the order [a2],
    [a0], [a1]: the source is walked last to first, and the child at
    position 0 is placed after the node placed before it instead of at the
    front.  With source positions 0 and 2 the result is 1, 2, 0. *)
Theorem mergeWindowsPreservingTabIndexes_out_of_order :
  WindowMerger.childIds
    (WindowMerger.mergeWindowsPreservingTabIndexes Ex.mergeFrom Ex.mergeTo Ex.mergeTree) "wB"
  = ["b1"; "a2"; "a0"; "a1"]
  /\ WindowMerger.childIndexes
       (WindowMerger.mergeWindowsPreservingTabIndexes Ex.mergeFrom Ex.mergeTo Ex.mergeTree) "wB"
     = [Some 1; Some 2; Some 0; Some 1]
  /\ ~ ascending [1; 2; 0; 1]
  /\ WindowMerger.childIndexes
       (WindowMerger.mergeWindowsPreservingTabIndexes Ex.mergeFrom2 Ex.mergeTo Ex.mergeTree2) "wB"
     = [Some 1; Some 2; Some 0]
  /\ ~ ascending [1; 2; 0].
Proof.
  repeat split; try reflexivity; simpl; lia.
Qed.

(** Walking the source first to last, with the same loop body, puts
    positions 0 and 2 around position 1. *)
Example mergeForward_in_order :
  WindowMerger.childIndexes
    (WindowMerger.accTree (WindowMerger.mergeForwardAcc Ex.mergeFrom2 Ex.mergeTo Ex.mergeTree2))
    "wB"
  = [Some 0; Some 1; Some 2].
Proof. reflexivity. Qed.

(** ** Container association *)

(** The score a window node gets for a live window is accumulated over
    the contributions of its descendants, in traversal order. *)
Lemma objGet_above (k : Z) (o : list (Z * WindowAssociation.Score)) :
  Forall (fun x => k < x) (map fst o) -> objGet k o = None.
Proof.
  unfold objGet. induction o as [|[k' v'] r IH]; simpl; intros Hall; [reflexivity|].
  inversion Hall as [|? ? Hk Hr]; subst.
  destruct (k' =? k) eqn:E; [apply Z.eqb_eq in E; lia | now apply IH].
Qed.

Lemma objAdd_keys (k : Z) (f : option WindowAssociation.Score -> WindowAssociation.Score)
    (o : list (Z * WindowAssociation.Score)) (lo : Z) :
  lo < k -> Forall (fun x => lo < x) (map fst o) ->
  Forall (fun x => lo < x) (map fst (WindowAssociation.objAdd k f o)).
Proof.
  intros Hlo. induction o as [|[k' v'] r IH]; simpl; intros Hall.
  - now repeat constructor.
  - inversion Hall as [|? ? Hk Hr]; subst.
    destruct (k =? k'); [now constructor|].
    destruct (k <? k'); simpl; [constructor; assumption|].
    constructor; [assumption | now apply IH].
Qed.

Lemma objAdd_sorted (k : Z) (f : option WindowAssociation.Score -> WindowAssociation.Score)
    (o : list (Z * WindowAssociation.Score)) :
  StronglySorted Z.lt (map fst o) ->
  StronglySorted Z.lt (map fst (WindowAssociation.objAdd k f o)).
Proof.
  induction o as [|[k' v'] r IH]; simpl; intros Hs.
  - repeat constructor.
  - inversion Hs as [|? ? Hr Hall]; subst.
    destruct (k =? k') eqn:E1; [now constructor|].
    destruct (k <? k') eqn:E2; simpl.
    + apply Z.ltb_lt in E2. constructor; [assumption|].
      constructor; [assumption|].
      eapply List.Forall_impl; [|exact Hall]. simpl. intros; lia.
    + apply Z.ltb_ge in E2. apply Z.eqb_neq in E1.
      constructor; [now apply IH|].
      apply objAdd_keys; [lia | assumption].
Qed.

Lemma objGet_cons (g k : Z) (v : WindowAssociation.Score)
    (o : list (Z * WindowAssociation.Score)) :
  objGet g ((k, v) :: o) = if k =? g then Some v else objGet g o.
Proof. unfold objGet; simpl. now destruct (k =? g). Qed.

Lemma objGet_objAdd (g k : Z) (f : option WindowAssociation.Score -> WindowAssociation.Score)
    (o : list (Z * WindowAssociation.Score)) :
  StronglySorted Z.lt (map fst o) ->
  objGet g (WindowAssociation.objAdd k f o)
  = if k =? g then Some (f (objGet g o)) else objGet g o.
Proof.
  induction o as [|[k' v'] r IH]; simpl; intros Hs.
  - rewrite objGet_cons. unfold objGet; simpl. now destruct (k =? g).
  - inversion Hs as [|? ? Hr Hall]; subst.
    destruct (k =? k') eqn:E1.
    + apply Z.eqb_eq in E1. subst k'. rewrite !objGet_cons.
      now destruct (k =? g).
    + destruct (k <? k') eqn:E2.
      * apply Z.ltb_lt in E2.
        rewrite (objGet_cons g k).
        destruct (k =? g) eqn:E3; [|reflexivity].
        apply Z.eqb_eq in E3. subst g.
        rewrite (objGet_above k ((k', v') :: r)); [reflexivity|].
        simpl. constructor; [assumption|].
        eapply List.Forall_impl; [|exact Hall]. simpl. intros; lia.
      * rewrite !objGet_cons, (IH Hr).
        destruct (k' =? g) eqn:E3; [|reflexivity].
        apply Z.eqb_eq in E3. subst g. now rewrite E1.
Qed.

Lemma scoreStep_fold (tabs : list Tab.t) (g : Z) (l : list Node) :
  forall last pageCount groups n,
    StronglySorted Z.lt (map fst last) ->
    fold_left (WindowAssociation.scoreStep tabs) l (Some (last, pageCount))
    = Some (groups, n) ->
    StronglySorted Z.lt (map fst groups)
    /\ objGet g groups = accumulate tabs g l (objGet g last).
Proof.
  assert (Hnone : forall l', fold_left (WindowAssociation.scoreStep tabs) l' None = None)
    by (induction l' as [|x l' IHl']; [reflexivity | exact IHl']).
  unfold accumulate.
  induction l as [|e l IH]; intros last pageCount groups n Hs Hf; simpl in *.
  - injection Hf as <- <-. now split.
  - unfold contribution at 2.
    destruct (isTab e); simpl in Hf; [|now apply (IH _ _ _ _ Hs Hf)].
    destruct (List.find _ tabs) as [tab|]; [|rewrite Hnone in Hf; discriminate].
    destruct (Bool.eqb (pinned (data e)) (Tab.pinned tab));
      destruct (Bool.eqb (incognito (data e)) (Tab.incognito tab)); simpl in Hf |- *;
      try (now apply (IH _ _ _ _ Hs Hf)).
    destruct (IH _ _ _ _ (objAdd_sorted _ _ _ Hs) Hf) as [S1 S2].
    split; [assumption|]. rewrite S2, objGet_objAdd by assumption.
    now destruct (Tab.windowId tab =? g).
Qed.

Lemma scoreWindow_score (tabs : list Tab.t) (win : Node)
    (groups : list (Z * WindowAssociation.Score)) (n : Z) (g : Z) :
  WindowAssociation.scoreWindow tabs win = Some (groups, n) ->
  objGet g groups = accumulate tabs g (DataTree.nodes (children win)) None.
Proof.
  intros Hs. unfold WindowAssociation.scoreWindow in Hs.
  destruct (scoreStep_fold tabs g _ [] 0 groups n ltac:(constructor) Hs) as [_ E].
  exact E.
Qed.

(** [Number.prototype.toString] on numbers of several sizes. *)
Example toString_examples :
  map F64.toString
    [F64.ofZ 0; F64.ofZ 2; F64.ofZ 10; F64.ofZ (-3);
     F64.hundredThousandth;
     S754_finite false 5404319552844595 (-54);    (* 0.3 *)
     S754_finite false 4897664594765414 (-50);    (* 4.35 *)
     S754_finite false 6004799503160661 (-53);    (* 2/3 *)
     S754_finite false 7555786372591432 (-76);    (* 1e-7 *)
     S754_finite false 4722366482869645 (-72);    (* 0.000001 *)
     S754_finite false 7629394531249999 17;       (* 999999999999999900000 *)
     S754_finite false 7629394531250000 17;       (* 1e21 *)
     S754_infinity false; S754_nan]
  = ["0"; "2"; "10"; "-3"; "0.00001"; "0.3"; "4.35"; "0.6666666666666666";
     "1e-7"; "0.000001"; "999999999999999900000"; "1e+21"; "Infinity"; "NaN"].
Proof. vm_compute. reflexivity. Qed.

(** Scores are binary64 numbers: four tabs of which the last two are at
    their recorded position score [4.000019999999999], and [4.00002] when
    it is the first two. *)
Example score_is_binary64 :
  F64.toString
    (fold_left (fun s sameIndex => WindowAssociation.addTab sameIndex (Some s))
               [false; false; true; true] F64.zero)
  = "4.000019999999999"
  /\ F64.toString
       (fold_left (fun s sameIndex => WindowAssociation.addTab sameIndex (Some s))
                  [true; true; false; false] F64.zero)
     = "4.00002"
  /\ F64.toString (F64.ofZ 10) = "10"
  /\ F64.toString (WindowAssociation.addTab true None) = "1.00001".
Proof. vm_compute. repeat split. Qed.

(** C1: a window node with ten restored tabs and one with two, all live in
    window 7.  The pairings score 10 and 2; [sort()] orders the scores as
    the strings ["10"] and ["2"], so the pairing scoring 2 is visited first
    and takes window 7, and the pairing scoring 10 is skipped. *)
Theorem associateWindows_visits_lower_score_first :
  option_map (fun tally => WindowAssociation.processingOrder (WindowAssociation.counts tally))
    (WindowAssociation.tallyWindows Ex.scoreTree Ex.scoreTabs)
  = Some [(F64.ofZ 2, ("w2", 7)); (F64.ofZ 10, ("w1", 7))]
  /\ ~ descendingScores [(F64.ofZ 2, ("w2", 7)); (F64.ofZ 10, ("w1", 7))]
  /\ option_map (fun l => (WindowAssociation.usedWindowNodes l,
                           Disambiguator.chromeIdOf (WindowAssociation.loopTree l) "w2",
                           Disambiguator.chromeIdOf (WindowAssociation.loopTree l) "w1"))
       (WindowAssociation.associateWindowstoWindowNodesLoop false false
          Ex.scoreTabs Ex.scoreTree)
     = Some (["w2"], Some 7, None).
Proof.
  split; [vm_compute; reflexivity|].
  split; [simpl; intros [E _]; vm_compute in E; discriminate|].
  vm_compute. reflexivity.
Qed.

(** ** Disambiguator: rounds *)

Lemma itemAt_some (items : list string) (iterations : Z) (i : nat) :
  0 <= iterations -> (i < length items)%nat ->
  exists item, Disambiguator.itemAt items iterations (Z.of_nat i) = Some item.
Proof.
  intros Hit Hi. unfold Disambiguator.itemAt.
  assert (Hlen : 0 < Z.of_nat (length items)) by lia.
  pose proof (Z.rem_bound_pos (Z.of_nat i + iterations) (Z.of_nat (length items))
                ltac:(lia) Hlen) as [Hlo Hhi].
  destruct (Z.rem _ _ <? 0) eqn:E; [apply Z.ltb_lt in E; lia|].
  destruct (nth_error items (Z.to_nat (Z.rem (Z.of_nat i + iterations)
                                         (Z.of_nat (length items))))) eqn:En.
  - now eexists.
  - apply nth_error_None in En. lia.
Qed.

Lemma disambiguateGroup_some (iterations : Z) (r : Disambiguator.Round)
    (group : string * list string) :
  0 <= iterations ->
  exists r', Disambiguator.disambiguateGroup iterations (Some r) group = Some r'.
Proof.
  intros Hit. unfold Disambiguator.disambiguateGroup.
  destruct (length (snd group) <? 2)%nat; [now eexists|].
  assert (G : forall l r0, Forall (fun i => (i < length (snd group))%nat) l ->
    exists r', fold_left (fun acc i =>
                 match acc with
                 | None => None
                 | Some r =>
                     match Disambiguator.itemAt (snd group) iterations (Z.of_nat i) with
                     | None => None
                     | Some item => Some (Disambiguator.disambiguateItem (snd group) r item)
                     end
                 end) l (Some r0) = Some r').
  { induction l as [|i l IH]; intros r0 Hall; simpl; [now eexists|].
    inversion Hall as [|? ? Hi Hl]; subst.
    destruct (itemAt_some (snd group) iterations i Hit Hi) as [item ->].
    now apply IH. }
  apply G. apply List.Forall_forall. intros i Hi. apply in_seq in Hi. lia.
Qed.

(** A round on a non-negative [iterations] completes. *)
Lemma disambiguateRound_some (iterations : Z) (t : Tree) :
  0 <= iterations ->
  exists r, Disambiguator.disambiguateRound iterations t = Some r.
Proof.
  intros Hit. unfold Disambiguator.disambiguateRound.
  generalize (Disambiguator.mkRound t 0 [] []).
  induction (Disambiguator.groupBy t (Disambiguator.groupKey t)) as [|g gs IH];
    intros r0; simpl; [now eexists|].
  destruct (disambiguateGroup_some iterations r0 g Hit) as [r1 ->].
  apply IH.
Qed.

(** Termination and the bound on the number of rounds:
    [disambiguatePageNodesByWindowId] is defined by recursion on
    [iterations], returns for every tree and every non-negative
    [iterations], and runs at least one round and at most
    [max 1 iterations] rounds. *)
Lemma disambiguateFrom_rounds_bound (iterations : Z) (t : Tree) (o : Disambiguator.Outcome) :
  Disambiguator.disambiguateFrom iterations t = Some o ->
  (1 <= Disambiguator.rounds o)%nat
  /\ Z.of_nat (Disambiguator.rounds o) <= Z.max 1 iterations.
Proof.
  revert o. funelim (Disambiguator.disambiguateFrom iterations t); intros o Ho.
  - discriminate.
  - destruct (Disambiguator.disambiguateFrom (iterations - 1) (Disambiguator.roundTree r))
      as [o'|] eqn:Erec; simpl in Ho; [|discriminate].
    injection Ho as <-. simpl.
    destruct (H o' eq_refl) as [H1 H2].
    pose proof (proj2 (andb_prop _ _ e)) as Hit. apply Z.ltb_lt in Hit.
    split; lia.
  - injection Ho as <-. simpl. split; lia.
Qed.

Lemma disambiguateFrom_total (iterations : Z) (t : Tree) :
  0 <= iterations ->
  exists o, Disambiguator.disambiguateFrom iterations t = Some o.
Proof.
  funelim (Disambiguator.disambiguateFrom iterations t); intros Hit.
  - destruct (disambiguateRound_some iterations t Hit) as [r Hr]. congruence.
  - pose proof (proj2 (andb_prop _ _ e)) as Hgt. apply Z.ltb_lt in Hgt.
    destruct H as [o' ->]; [lia|]. simpl. now eexists.
  - now eexists.
Qed.

(** X26.  [disambiguatePageNodesByWindowId] returns for every tree and every
    non-negative [iterations] (3 when omitted), after at least one round
    and at most [max 1 iterations] rounds. *)
Lemma disambiguatePageNodesByWindowId_terminates (iterations : option Z) (t : Tree) :
  match iterations with Some n => 0 <= n | None => True end ->
  exists o, Disambiguator.disambiguatePageNodesByWindowId iterations t = Some o
            /\ (1 <= Disambiguator.rounds o)%nat
            /\ Z.of_nat (Disambiguator.rounds o)
               <= Z.max 1 (match iterations with Some n => n | None => 3 end).
Proof.
  intros Hit. unfold Disambiguator.disambiguatePageNodesByWindowId.
  destruct (disambiguateFrom_total (match iterations with Some n => n | None => 3 end) t)
    as [o Ho].
  { destruct iterations; [assumption | lia]. }
  exists o. split; [assumption|]. now apply disambiguateFrom_rounds_bound with (t := t).
Qed.

(** C9: two restored tabs with the same key sit under a window node that
    is still hibernated.  Both are examined and neither finds a partner, so
    the first round performs no swap; [swapCount] is 2 all the same, and
    the function calls itself until [iterations] is used up: three rounds
    without a single swap. *)
Theorem disambiguate_repeats_without_swap :
  option_map (fun r => (Disambiguator.swapCount r, Disambiguator.swaps r,
                        Disambiguator.missed r))
    (Disambiguator.disambiguateRound 3 Ex.missTree)
  = Some (2, [], ["n2"; "n1"])
  /\ option_map (fun o => (Disambiguator.rounds o, Disambiguator.allSwaps o))
       (Disambiguator.disambiguatePageNodesByWindowId None Ex.missTree)
     = Some (3%nat, []).
Proof.
  split; reflexivity.
Qed.

(** ** The tree store: updates *)


Lemma applyDetails_id (details : list Detail) : forall d, id (applyDetails details d) = id d.
Proof.
  unfold applyDetails.
  induction details as [|a ds IH]; intros d; simpl; [reflexivity|].
  rewrite IH. now destruct a.
Qed.

Lemma data_updateNodeIn (target : string) (details : list Detail) (n : Node) :
  data (DataTree.updateNodeIn target details n)
  = if String.eqb (id (data n)) target then applyDetails details (data n) else data n.
Proof. now destruct n. Qed.

Lemma subtree_updateNodeIn (target : string) (details : list Detail) (n : Node) :
  DataTree.subtree (DataTree.updateNodeIn target details n)
  = map (DataTree.updateNodeIn target details) (DataTree.subtree n).
Proof.
  induction n as [d cs IH] using Node_ind_nested. simpl. f_equal.
  induction IH as [|c cs' Hc Hcs IHcs]; simpl; [reflexivity|].
  now rewrite Hc, IHcs, map_app.
Qed.

Lemma nodes_updateNode (target : string) (details : list Detail) (t : Tree) :
  DataTree.nodes (DataTree.updateNode target details t)
  = map (DataTree.updateNodeIn target details) (DataTree.nodes t).
Proof.
  unfold DataTree.nodes, DataTree.updateNode.
  induction t as [|n t IH]; simpl; [reflexivity|].
  now rewrite subtree_updateNodeIn, IH, map_app.
Qed.

Lemma find_map_ext {A B} (f : A -> B) (p : B -> bool) (q : A -> bool) (l : list A) :
  (forall x, p (f x) = q x) ->
  List.find p (map f l) = option_map f (List.find q l).
Proof.
  intros Hpq. induction l as [|x l IH]; simpl; [reflexivity|].
  rewrite Hpq. now destruct (q x).
Qed.

Lemma dataOf_id (t : Tree) (i : string) (d : NodeData) : dataOf t i = Some d -> id d = i.
Proof.
  unfold dataOf, DataTree.getNodeById, DataTree.getNode.
  destruct (List.find _ _) as [n|] eqn:E; simpl; [|discriminate].
  intros [= <-]. apply find_some in E as [_ E]. now apply String.eqb_eq.
Qed.

Lemma dataOf_updateNode (target : string) (details : list Detail) (t : Tree) (i : string) :
  dataOf (DataTree.updateNode target details t) i
  = option_map (fun d => if String.eqb i target then applyDetails details d else d)
      (dataOf t i).
Proof.
  destruct (dataOf t i) as [d|] eqn:Ed.
  - pose proof (dataOf_id t i d Ed) as Hid. revert Ed.
    unfold dataOf, DataTree.getNodeById, DataTree.getNode.
    rewrite nodes_updateNode.
    rewrite (find_map_ext _ _ (fun n => String.eqb (id (data n)) i)).
    + destruct (List.find _ _) as [n|]; simpl; [|discriminate].
      intros [= <-]. now rewrite data_updateNodeIn, Hid.
    + intros x. rewrite data_updateNodeIn.
      destruct (String.eqb (id (data x)) target); [now rewrite applyDetails_id | reflexivity].
  - revert Ed. unfold dataOf, DataTree.getNodeById, DataTree.getNode.
    rewrite nodes_updateNode.
    rewrite (find_map_ext _ _ (fun n => String.eqb (id (data n)) i)).
    + now destruct (List.find _ _).
    + intros x. rewrite data_updateNodeIn.
      destruct (String.eqb (id (data x)) target); [now rewrite applyDetails_id | reflexivity].
Qed.

Lemma chromeIdOf_dataOf (t : Tree) (i : string) :
  Disambiguator.chromeIdOf t i = match dataOf t i with Some d => chromeId d | None => None end.
Proof. unfold Disambiguator.chromeIdOf, dataOf. now destruct (DataTree.getNodeById t i). Qed.

Lemma windowIdOf_dataOf (t : Tree) (i : string) :
  Disambiguator.windowIdOf t i = match dataOf t i with Some d => windowId d | None => None end.
Proof. unfold Disambiguator.windowIdOf, dataOf. now destruct (DataTree.getNodeById t i). Qed.

Lemma indexOf_dataOf (t : Tree) (i : string) :
  Disambiguator.indexOf t i = match dataOf t i with Some d => index d | None => None end.
Proof. unfold Disambiguator.indexOf, dataOf. now destruct (DataTree.getNodeById t i). Qed.

(** ** Disambiguator: the swap *)

(** A swap gives each of the two nodes the container id, live id and
    position of the other and changes nothing else. *)
Lemma swapNodes_dataOf (t : Tree) (item other : string) (di do : NodeData) (i : string) :
  other <> item ->
  dataOf t item = Some di ->
  dataOf t other = Some do ->
  dataOf (Disambiguator.swapNodes item other t) i
  = if String.eqb i item then Some (withBindingOf do di)
    else if String.eqb i other then Some (withBindingOf di do)
    else dataOf t i.
Proof.
  intros Hne Hi Ho.
  assert (Eoi : String.eqb other item = false) by now apply String.eqb_neq.
  assert (Eio : String.eqb item other = false) by (apply String.eqb_neq; congruence).
  unfold Disambiguator.swapNodes. cbv zeta.
  rewrite !chromeIdOf_dataOf, !windowIdOf_dataOf, !indexOf_dataOf.
  rewrite !dataOf_updateNode.
  rewrite Hi, Ho. simpl.
  rewrite !String.eqb_refl, !Eoi, !Eio. simpl.
  destruct (String.eqb i item) eqn:E1.
  - apply String.eqb_eq in E1. subst i. rewrite Hi, Eio. simpl.
    now destruct di.
  - destruct (String.eqb i other) eqn:E2.
    + apply String.eqb_eq in E2. subst i. rewrite Ho. simpl.
      now destruct do.
    + now destruct (dataOf t i).
Qed.

Lemma withBindingOf_same (b a : NodeData) : sameButBinding (withBindingOf b a) a.
Proof. destruct a. repeat split. Qed.

Lemma sameButBinding_refl (a : NodeData) : sameButBinding a a.
Proof. repeat split. Qed.

Lemma filter_head {A} (p : A -> bool) (l : list A) (e : A) (rest : list A) :
  List.filter p l = e :: rest ->
  exists before after, l = before ++ e :: after
                       /\ p e = true /\ forall x, In x before -> p x = false.
Proof.
  induction l as [|x l IH]; simpl; [discriminate|].
  destruct (p x) eqn:Ex.
  - intros [= -> _]. exists [], l. repeat split; [assumption | intros y []].
  - intros Hf. destruct (IH Hf) as (b & a & -> & He & Hb).
    exists (x :: b), a. repeat split; [assumption|].
    intros y [<- | Hy]; [assumption | now apply Hb].
Qed.

Lemma filter_none {A} (p : A -> bool) (l : list A) :
  List.filter p l = [] -> forall x, In x l -> p x = false.
Proof.
  intros Hf x Hx. destruct (p x) eqn:Ex; [|reflexivity].
  assert (Hin : In x (List.filter p l)) by (apply filter_In; now split).
  rewrite Hf in Hin. destruct Hin.
Qed.

(** ** Disambiguator: the swap partner *)

(** What the four filters ask of a member [e] for the node [item]. *)
Lemma swap_filters_meaning (t : Tree) (item e : string) :
  (Disambiguator.transposedSameIndex t item e = true
   <-> e <> item
       /\ Disambiguator.windowIdOf t e = Disambiguator.topParentChromeId t item
       /\ Disambiguator.windowIdOf t item = Disambiguator.topParentChromeId t e
       /\ Disambiguator.indexOf t e = Disambiguator.indexOf t item)
  /\ (Disambiguator.transposed t item e = true
      <-> e <> item
          /\ Disambiguator.windowIdOf t e = Disambiguator.topParentChromeId t item
          /\ Disambiguator.windowIdOf t item = Disambiguator.topParentChromeId t e)
  /\ (Disambiguator.inWantedWindow t item e = true
      <-> e <> item
          /\ Disambiguator.windowIdOf t item = Disambiguator.topParentChromeId t e)
  /\ (Disambiguator.wantsOurWindow t item e = true
      <-> e <> item
          /\ Disambiguator.windowIdOf t e = Disambiguator.topParentChromeId t item).
Proof.
  unfold Disambiguator.transposedSameIndex, Disambiguator.transposed,
    Disambiguator.inWantedWindow, Disambiguator.wantsOurWindow.
  rewrite !andb_true_iff, !negb_true_iff, !looseEq_spec, !String.eqb_neq.
  tauto.
Qed.

(** C3 (as amended): for a mismatched node of a group, the swap partner
    is the first member passing the first non-empty of four filters, in
    this order: (1) container id and parent's live id transposed with the
    node's, and equal position; (2) the same transposition without the
    position; (3) a member whose parent's live id equals the container id
    of the node; (4) a member whose container id equals the live id of the
    parent of the node.  When a partner is found, the two nodes exchange
    container id, live id and position, every other attribute of every
    node is kept and all nodes but the two are untouched; when none is
    found the tree is left as it is. *)
Theorem disambiguateItem_swap_priority
    (t : Tree) (items : list string) (item : string) (r : Disambiguator.Round) :
  Forall (fun i => DataTree.getNodeById t i <> None) (item :: items) ->
  Disambiguator.roundTree r = t ->
  Js.looseEq (Disambiguator.windowIdOf t item) (Disambiguator.topParentChromeId t item) = false ->
  match Disambiguator.findSwapWith t items item with
  | Some partner =>
      (firstSatisfying (Disambiguator.transposedSameIndex t item) items partner
       \/ (noneSatisfying (Disambiguator.transposedSameIndex t item) items
           /\ firstSatisfying (Disambiguator.transposed t item) items partner)
       \/ (noneSatisfying (Disambiguator.transposedSameIndex t item) items
           /\ noneSatisfying (Disambiguator.transposed t item) items
           /\ firstSatisfying (Disambiguator.inWantedWindow t item) items partner)
       \/ (noneSatisfying (Disambiguator.transposedSameIndex t item) items
           /\ noneSatisfying (Disambiguator.transposed t item) items
           /\ noneSatisfying (Disambiguator.inWantedWindow t item) items
           /\ firstSatisfying (Disambiguator.wantsOurWindow t item) items partner))
      /\ (forall i d,
            dataOf t i = Some d ->
            exists d',
              dataOf (Disambiguator.roundTree (Disambiguator.disambiguateItem items r item)) i
              = Some d'
              /\ sameButBinding d' d
              /\ (i <> item -> i <> partner -> d' = d))
      /\ (forall di dp,
            dataOf t item = Some di -> dataOf t partner = Some dp ->
            dataOf (Disambiguator.roundTree (Disambiguator.disambiguateItem items r item)) item
            = Some (withBindingOf dp di)
            /\ dataOf (Disambiguator.roundTree (Disambiguator.disambiguateItem items r item))
                 partner
               = Some (withBindingOf di dp))
  | None =>
      noneSatisfying (Disambiguator.transposedSameIndex t item) items
      /\ noneSatisfying (Disambiguator.transposed t item) items
      /\ noneSatisfying (Disambiguator.inWantedWindow t item) items
      /\ noneSatisfying (Disambiguator.wantsOurWindow t item) items
      /\ Disambiguator.roundTree (Disambiguator.disambiguateItem items r item) = t
  end.
Proof.
  intros Hnodes Ht Hmis.
  assert (Hstep : Disambiguator.roundTree (Disambiguator.disambiguateItem items r item)
                  = match Disambiguator.findSwapWith t items item with
                    | Some other => Disambiguator.swapNodes item other t
                    | None => t
                    end).
  { unfold Disambiguator.disambiguateItem. rewrite Ht, Hmis.
    now destruct (Disambiguator.findSwapWith t items item). }
  assert (Hsel : match Disambiguator.findSwapWith t items item with
                 | Some partner =>
                     firstSatisfying (Disambiguator.transposedSameIndex t item) items partner
                     \/ (noneSatisfying (Disambiguator.transposedSameIndex t item) items
                         /\ firstSatisfying (Disambiguator.transposed t item) items partner)
                     \/ (noneSatisfying (Disambiguator.transposedSameIndex t item) items
                         /\ noneSatisfying (Disambiguator.transposed t item) items
                         /\ firstSatisfying (Disambiguator.inWantedWindow t item) items partner)
                     \/ (noneSatisfying (Disambiguator.transposedSameIndex t item) items
                         /\ noneSatisfying (Disambiguator.transposed t item) items
                         /\ noneSatisfying (Disambiguator.inWantedWindow t item) items
                         /\ firstSatisfying (Disambiguator.wantsOurWindow t item) items partner)
                 | None =>
                     noneSatisfying (Disambiguator.transposedSameIndex t item) items
                     /\ noneSatisfying (Disambiguator.transposed t item) items
                     /\ noneSatisfying (Disambiguator.inWantedWindow t item) items
                     /\ noneSatisfying (Disambiguator.wantsOurWindow t item) items
                 end).
  { unfold Disambiguator.findSwapWith, firstSatisfying, noneSatisfying.
    destruct (List.filter (Disambiguator.transposedSameIndex t item) items) eqn:F1.
    2: { left. eapply filter_head; eassumption. }
    pose proof (filter_none _ _ F1) as N1.
    destruct (List.filter (Disambiguator.transposed t item) items) eqn:F2.
    2: { right; left. split; [assumption | eapply filter_head; eassumption]. }
    pose proof (filter_none _ _ F2) as N2.
    destruct (List.filter (Disambiguator.inWantedWindow t item) items) eqn:F3.
    2: { right; right; left. repeat split; try assumption. eapply filter_head; eassumption. }
    pose proof (filter_none _ _ F3) as N3.
    destruct (List.filter (Disambiguator.wantsOurWindow t item) items) eqn:F4.
    2: { right; right; right. repeat split; try assumption. eapply filter_head; eassumption. }
    pose proof (filter_none _ _ F4) as N4.
    repeat split; assumption. }
  rewrite Hstep.
  destruct (Disambiguator.findSwapWith t items item) as [partner|] eqn:Efind.
  2: { destruct Hsel as (N1 & N2 & N3 & N4). repeat split; assumption. }
  split; [exact Hsel|].
  (* the partner is another member of the group, hence a node of the tree *)
  assert (Hpartner : In partner items /\ partner <> item).
  { assert (G : forall p, firstSatisfying p items partner ->
                  (forall e, p e = true -> e <> item) -> In partner items /\ partner <> item).
    { intros p (b & a & -> & Hp & _) Hmean. split; [|now apply Hmean].
      apply in_or_app. right. now left. }
    destruct (swap_filters_meaning t item partner) as (M1 & M2 & M3 & M4).
    destruct Hsel as [S | [[_ S] | [(_ & _ & S) | (_ & _ & _ & S)]]];
      (eapply G; [exact S|]); intros e He;
      destruct (swap_filters_meaning t item e) as (E1 & E2 & E3 & E4);
      [apply E1 in He | apply E2 in He | apply E3 in He | apply E4 in He];
      tauto. }
  destruct Hpartner as [Hin Hne].
  inversion Hnodes as [|? ? Hitem Hitems]; subst.
  assert (Hpn : DataTree.getNodeById (Disambiguator.roundTree r) partner <> None).
  { rewrite List.Forall_forall in Hitems. now apply Hitems. }
  destruct (dataOf (Disambiguator.roundTree r) item) as [di|] eqn:Edi.
  2: { unfold dataOf in Edi. destruct (DataTree.getNodeById _ item); [discriminate | congruence]. }
  destruct (dataOf (Disambiguator.roundTree r) partner) as [dp|] eqn:Edp.
  2: { unfold dataOf in Edp. destruct (DataTree.getNodeById _ partner); [discriminate | congruence]. }
  split.
  - intros i d Hd.
    rewrite (swapNodes_dataOf _ item partner di dp i Hne Edi Edp).
    destruct (String.eqb i item) eqn:E1.
    + apply String.eqb_eq in E1. subst i.
      assert (d = di) by congruence. subst d.
      eexists. split; [reflexivity|]. split; [apply withBindingOf_same | congruence].
    + destruct (String.eqb i partner) eqn:E2.
      * apply String.eqb_eq in E2. subst i.
        assert (d = dp) by congruence. subst d.
        eexists. split; [reflexivity|]. split; [apply withBindingOf_same | congruence].
      * exists d. split; [assumption|]. split; [apply sameButBinding_refl | reflexivity].
  - intros di' dp' [= <-] [= <-].
    rewrite !(swapNodes_dataOf _ item partner di dp _ Hne Edi Edp).
    rewrite String.eqb_refl.
    assert (Epi : String.eqb partner item = false) by now apply String.eqb_neq.
    rewrite Epi, String.eqb_refl. now split.
Qed.

Lemma disambiguateItem_swap_priority_witness :
  Forall (fun i => DataTree.getNodeById Ex.swapTree i <> None) ["x"; "x"; "y"; "z"]
  /\ Js.looseEq (Disambiguator.windowIdOf Ex.swapTree "x")
                (Disambiguator.topParentChromeId Ex.swapTree "x") = false
  /\ match Disambiguator.findSwapWith Ex.swapTree ["x"; "y"; "z"] "x" with
     | Some partner =>
         forall di dp,
           dataOf Ex.swapTree "x" = Some di -> dataOf Ex.swapTree partner = Some dp ->
           dataOf (Disambiguator.roundTree
                     (Disambiguator.disambiguateItem ["x"; "y"; "z"]
                        (Disambiguator.mkRound Ex.swapTree 0 [] []) "x")) "x"
           = Some (withBindingOf dp di)
           /\ dataOf (Disambiguator.roundTree
                        (Disambiguator.disambiguateItem ["x"; "y"; "z"]
                           (Disambiguator.mkRound Ex.swapTree 0 [] []) "x")) partner
              = Some (withBindingOf di dp)
     | None => True
     end.
Proof.
  assert (Hnodes : Forall (fun i => DataTree.getNodeById Ex.swapTree i <> None)
                     ["x"; "x"; "y"; "z"]) by (repeat constructor; discriminate).
  split; [exact Hnodes|]. split; [reflexivity|].
  pose proof (disambiguateItem_swap_priority Ex.swapTree ["x"; "y"; "z"] "x"
                (Disambiguator.mkRound Ex.swapTree 0 [] []) Hnodes eq_refl eq_refl) as W.
  destruct (Disambiguator.findSwapWith Ex.swapTree ["x"; "y"; "z"] "x");
    [exact (proj2 (proj2 W)) | exact I].
Defined.

(** C3 (as stated): three same-key nodes [x], [y], [z]; [y] has the
    container id that equals the live id of the parent of [x], and [z] sits
    under the window [x] belongs to.  Tier (3) as the specification words
    it selects [y]; the search selects [z]. *)
Lemma findSwapWith_third_filter_differs :
  Disambiguator.findSwapWith_spec Ex.swapTree ["x"; "y"; "z"] "x" = Some "y"
  /\ Disambiguator.findSwapWith Ex.swapTree ["x"; "y"; "z"] "x" = Some "z"
  /\ Disambiguator.findSwapWith Ex.swapTree ["x"; "y"; "z"] "x"
     <> Disambiguator.findSwapWith_spec Ex.swapTree ["x"; "y"; "z"] "x".
Proof.
  repeat split; try reflexivity. discriminate.
Qed.
(* ===================================================================== *)
(** * Properties of the utilities *)
(* ===================================================================== *)

(** ** [clamp] and [getClampedWindowDimensions] *)

(** X1.  With bounds in order, [clamp] returns a value within the bounds,
    and returns the value itself exactly when it already lies within
    them. *)
Theorem clamp_within_bounds (value min max : Z) :
  min <= max ->
  min <= Util.clamp value min max <= max
  /\ (Util.clamp value min max = value <-> min <= value <= max).
Proof.
  intros Hle. unfold Util.clamp.
  destruct (Z.ltb_spec value min), (Z.gtb_spec value max);
    try destruct (Z.gtb_spec min max); lia.
Qed.

Lemma clamp_within_bounds_witness :
  (0 <= 10) /\ (0 <= Util.clamp 25 0 10 <= 10
                /\ (Util.clamp 25 0 10 = 25 <-> 0 <= 25 <= 10)).
Proof. split; [lia | apply (clamp_within_bounds 25 0 10); lia]. Defined.

(** X2.  With the bounds out of order ([max < min]) [clamp] returns [max]
    whatever the value is: the upper bound is applied last. *)
Theorem clamp_inverted_bounds (value min max : Z) :
  max < min -> Util.clamp value min max = max.
Proof.
  intros Hlt. unfold Util.clamp.
  destruct (Z.ltb_spec value min), (Z.gtb_spec value max);
    try destruct (Z.gtb_spec min max); lia.
Qed.

Lemma clamp_inverted_bounds_witness : (3 < 7) /\ Util.clamp 5 7 3 = 3.
Proof. split; [lia | apply (clamp_inverted_bounds 5 7 3); lia]. Defined.

(** X3.  For an area of non-negative size, the clamped window has its
    corner inside the area and is no larger than the area; a window whose
    corner and size already satisfy this is returned as it is.  The far
    edges [left + width] and [top + height] are not clamped. *)
Theorem getClampedWindowDimensions_in_area
    (left top width height minLeft minTop maxWidth maxHeight : Z) :
  0 <= maxWidth -> 0 <= maxHeight ->
  let r := Util.getClampedWindowDimensions left top width height
             minLeft minTop maxWidth maxHeight in
  (minLeft <= Util.left r <= minLeft + maxWidth
   /\ minTop <= Util.top r <= minTop + maxHeight
   /\ 0 <= Util.width r <= maxWidth
   /\ 0 <= Util.height r <= maxHeight)
  /\ (minLeft <= left <= minLeft + maxWidth -> minTop <= top <= minTop + maxHeight ->
      0 <= width <= maxWidth -> 0 <= height <= maxHeight ->
      r = Util.mkDimensions left top width height).
Proof.
  intros Hw Hh r. subst r. unfold Util.getClampedWindowDimensions. simpl.
  pose proof (clamp_within_bounds left minLeft (minLeft + maxWidth)) as [L1 L2]; [lia|].
  pose proof (clamp_within_bounds top minTop (minTop + maxHeight)) as [T1 T2]; [lia|].
  pose proof (clamp_within_bounds width 0 maxWidth Hw) as [W1 W2].
  pose proof (clamp_within_bounds height 0 maxHeight Hh) as [H1 H2].
  split; [tauto|].
  intros A B C D.
  rewrite (proj2 L2 A), (proj2 T2 B), (proj2 W2 C), (proj2 H2 D). reflexivity.
Qed.

Lemma getClampedWindowDimensions_in_area_witness :
  (0 <= 800) /\ (0 <= 600)
  /\ (0 <= Util.left (Util.getClampedWindowDimensions (-20) 700 1000 300 0 0 800 600) <= 0 + 800
      /\ 0 <= Util.top (Util.getClampedWindowDimensions (-20) 700 1000 300 0 0 800 600) <= 0 + 600
      /\ 0 <= Util.width (Util.getClampedWindowDimensions (-20) 700 1000 300 0 0 800 600) <= 800
      /\ 0 <= Util.height (Util.getClampedWindowDimensions (-20) 700 1000 300 0 0 800 600) <= 600).
Proof.
  split; [lia | split; [lia|]].
  apply (getClampedWindowDimensions_in_area (-20) 700 1000 300 0 0 800 600); lia.
Defined.

(** ** [dropUrlHash] *)

Lemma fullMatch_Void (s : string) : fullMatch Void s = false.
Proof. induction s; simpl; auto. Qed.

Lemma fullMatch_StarDot (s : string) : fullMatch (Star Dot) s = noLineTerminator s.
Proof.
  induction s as [|c s IH]; [reflexivity|].
  unfold Dot. set (p := fun c => negb (isLineTerminator c)).
  change (fullMatch (seq' (if p c then Eps else Void) (Star (Cls p))) s
          = p c && noLineTerminator s).
  destruct (p c); [exact IH | apply fullMatch_Void].
Qed.

Lemma fullMatch_hash (s : string) :
  fullMatch (Seq (Chr "#") (Star Dot)) s
  = match s with
    | EmptyString => false
    | String c t => Ascii.eqb "#" c && noLineTerminator t
    end.
Proof.
  destruct s as [|c t]; [reflexivity|].
  unfold Chr. set (p := Ascii.eqb "#").
  change (fullMatch (seq' (if p c then Eps else Void) (Star Dot)) t
          = p c && noLineTerminator t).
  destruct (p c); [apply fullMatch_StarDot | apply fullMatch_Void].
Qed.

Lemma dropUrlHash_cons (c : ascii) (t : string) :
  Util.dropUrlHash (String c t)
  = if Ascii.eqb "#" c && noLineTerminator t then ""
    else String c (Util.dropUrlHash t).
Proof.
  unfold Util.dropUrlHash.
  change (removeToEnd ?r (String c t))
    with (if fullMatch r (String c t) then "" else String c (removeToEnd r t)).
  rewrite fullMatch_hash. reflexivity.
Qed.

Lemma dropUrlHash_empty : Util.dropUrlHash "" = "".
Proof. reflexivity. Qed.

Lemma noLineTerminator_dropUrlHash (s : string) :
  noLineTerminator (Util.dropUrlHash s) = noLineTerminator s.
Proof.
  induction s as [|c t IH]; [reflexivity|].
  rewrite dropUrlHash_cons.
  destruct (Ascii.eqb "#" c) eqn:Ec; cbn [andb].
  - apply Ascii.eqb_eq in Ec. subst c.
    destruct (noLineTerminator t) eqn:Et; cbn [noLineTerminator].
    + rewrite Et. reflexivity.
    + rewrite IH, Et. reflexivity.
  - cbn [noLineTerminator]. rewrite IH. reflexivity.
Qed.

(** X4.  [dropUrlHash] is idempotent: a url whose hash has been dropped
    is left unchanged by a second call. *)
Theorem dropUrlHash_idempotent (url : string) :
  Util.dropUrlHash (Util.dropUrlHash url) = Util.dropUrlHash url.
Proof.
  induction url as [|c t IH]; [reflexivity|].
  rewrite dropUrlHash_cons.
  destruct (Ascii.eqb "#" c && noLineTerminator t) eqn:E; [reflexivity|].
  rewrite dropUrlHash_cons, noLineTerminator_dropUrlHash, E, IH. reflexivity.
Qed.

(** X5.  On a url without line terminators [dropUrlHash] returns exactly
    the part before the first [#]: the result contains no [#], and the url
    is the result followed by nothing or by a text starting with [#]. *)
Theorem dropUrlHash_cuts_at_first_hash (url : string) :
  noLineTerminator url = true ->
  hasHash (Util.dropUrlHash url) = false
  /\ exists rest, url = String.append (Util.dropUrlHash url) rest
                  /\ (rest = "" \/ exists r, rest = String "#" r).
Proof.
  induction url as [|c t IH]; intros Hn.
  - split; [reflexivity|]. exists "". split; [reflexivity | now left].
  - cbn [noLineTerminator] in Hn. apply andb_prop in Hn as [Hc Ht].
    rewrite dropUrlHash_cons, Ht, andb_true_r.
    destruct (Ascii.eqb "#" c) eqn:Ec.
    + apply Ascii.eqb_eq in Ec. subst c. split; [reflexivity|].
      exists (String "#" t). split; [reflexivity | right; now exists t].
    + destruct (IH Ht) as [H1 [rest [H2 H3]]]. split.
      * cbn [hasHash]. rewrite Ec, H1. reflexivity.
      * exists rest. split; [|exact H3].
        change (String c t = String c (String.append (Util.dropUrlHash t) rest)).
        f_equal. exact H2.
Qed.

Lemma dropUrlHash_cuts_at_first_hash_witness :
  noLineTerminator "http://example.org/a?b=1#top#more" = true
  /\ hasHash (Util.dropUrlHash "http://example.org/a?b=1#top#more") = false
  /\ exists rest,
       "http://example.org/a?b=1#top#more"
       = String.append (Util.dropUrlHash "http://example.org/a?b=1#top#more") rest
       /\ (rest = "" \/ exists r, rest = String "#" r).
Proof.
  split; [reflexivity|].
  apply (dropUrlHash_cuts_at_first_hash "http://example.org/a?b=1#top#more"). reflexivity.
Defined.

(** ** Favicons and titles *)

Lemma prefix_append (p s : string) : String.prefix p (String.append p s) = true.
Proof.
  induction p as [|c p IH]; simpl; [now destruct s|].
  destruct (ascii_dec c c) as [_|N]; [exact IH | now elim N].
Qed.

(** X6.  A url built by [getChromeFavIconUrl] is never a static favicon
    url; for a url that has no replacement and is not the name of a member
    of [Object.prototype], [getBestFavIconUrl] yields a static favicon url
    exactly when it was given one; and for the name of an inherited member
    that has no replacement, [getBestFavIconUrl] yields that member, on
    which [isStaticFavIconUrl] raises a [TypeError]. *)
Theorem chrome_favicon_is_not_static (optionsUrl : string)
    (favIconUrl : option string) (url : string) :
  Util.isStaticFavIconUrl (Some (Util.Str (Util.getChromeFavIconUrl url))) = Some false
  /\ (Util.lookup url (Util.URL_FAVICON_REPLACEMENTS optionsUrl) = None ->
      Util.isStaticFavIconUrl (Some (Util.getBestFavIconUrl optionsUrl favIconUrl url))
      = Util.isStaticFavIconUrl (option_map Util.Str favIconUrl))
  /\ (forall m, Util.lookup url (Util.URL_FAVICON_REPLACEMENTS optionsUrl)
                = Some (Util.Inherited m) ->
      Util.isStaticFavIconUrl (Some (Util.getBestFavIconUrl optionsUrl favIconUrl url))
      = None).
Proof.
  split; [|split].
  - unfold Util.isStaticFavIconUrl, Util.getChromeFavIconUrl.
    change "chrome://favicon/" with (String.append "chrome://favicon" "/").
    set (d := Util.dropUrlHash url). simpl. reflexivity.
  - intros E. unfold Util.getBestFavIconUrl. rewrite E.
    destruct favIconUrl as [f|]; [|reflexivity].
    destruct (String.eqb f "") eqn:Ef; simpl.
    + apply String.eqb_eq in Ef. subst f. reflexivity.
    + rewrite Ef. reflexivity.
  - intros m E. unfold Util.getBestFavIconUrl. rewrite E. reflexivity.
Qed.

(** The names of the members of [Object.prototype] are not urls without a
    replacement: [constructor] is found, and is not a string. *)
Example lookup_inherited_member (optionsUrl : string) :
  Util.lookup "constructor" (Util.URL_FAVICON_REPLACEMENTS optionsUrl)
  = (if String.eqb optionsUrl "constructor"
     then Some (Util.Str "/images/sidewise_icon_16.png")
     else Some (Util.Inherited "constructor"))
  /\ Util.lookup "http://example.org/" (Util.URL_FAVICON_REPLACEMENTS "chrome-extension://e/options.html")
     = None.
Proof.
  split; [|reflexivity].
  unfold Util.lookup, Util.URL_FAVICON_REPLACEMENTS. simpl.
  destruct (String.eqb optionsUrl "constructor"); reflexivity.
Qed.

(** X7.  [getBestFavIconUrl] never returns the empty string, and for the
    urls of the replacement table it returns the replacement whatever
    favicon the tab reports. *)
Theorem getBestFavIconUrl_never_empty (optionsUrl : string)
    (favIconUrl : option string) (url : string) :
  Util.strictEq (Util.getBestFavIconUrl optionsUrl favIconUrl url) "" = false
  /\ forall r, Util.lookup url (Util.URL_FAVICON_REPLACEMENTS optionsUrl) = Some (Util.Str r) ->
               Util.getBestFavIconUrl optionsUrl favIconUrl url = Util.Str r.
Proof.
  assert (V : forall r, Util.lookup url (Util.URL_FAVICON_REPLACEMENTS optionsUrl)
                        = Some (Util.Str r) ->
                        String.eqb r "" = false).
  { unfold Util.lookup, Util.URL_FAVICON_REPLACEMENTS. simpl. intros r.
    repeat match goal with
           | |- context [if ?c then _ else _] => destruct c
           end; simpl; intros E; inversion E; reflexivity. }
  unfold Util.getBestFavIconUrl.
  destruct (Util.lookup url (Util.URL_FAVICON_REPLACEMENTS optionsUrl)) as [[r|m]|] eqn:E.
  - rewrite (V r eq_refl). simpl. split; [apply (V r eq_refl)|].
    intros r' E'. now inversion E'.
  - split; [reflexivity | discriminate].
  - split; [|discriminate].
    destruct favIconUrl as [f|]; [|reflexivity].
    destruct (String.eqb f "") eqn:Ef; simpl; [reflexivity | exact Ef].
Qed.

(** X8.  [getBestPageTitle] returns the empty string only for a page
    whose url is empty; a non-empty title of a page whose url has no
    replacement and is not the name of a member of [Object.prototype] is
    returned as it is. *)
Theorem getBestPageTitle_falls_back_to_url (text_Extensions : string)
    (title : option string) (url : string) :
  (Util.getBestPageTitle text_Extensions title url = Util.Str "" -> url = "")
  /\ (forall t, title = Some t -> String.eqb t "" = false ->
                Util.lookup url (Util.URL_TITLE_REPLACEMENTS text_Extensions) = None ->
                Util.getBestPageTitle text_Extensions title url = Util.Str t)
  /\ (forall m, Util.lookup url (Util.URL_TITLE_REPLACEMENTS text_Extensions)
                = Some (Util.Inherited m) ->
                Util.getBestPageTitle text_Extensions title url = Util.Inherited m).
Proof.
  unfold Util.getBestPageTitle. split; [|split].
  - destruct (Util.lookup url _) as [[r|m]|].
    + destruct (String.eqb r "") eqn:Er; simpl.
      * destruct title as [t|]; [|now intros [= ->]].
        destruct (String.eqb t "") eqn:Et; simpl; [now intros [= ->]|].
        intros [= ->]. discriminate.
      * intros [= ->]. discriminate.
    + discriminate.
    + destruct title as [t|]; [|now intros [= ->]].
      destruct (String.eqb t "") eqn:Et; simpl; [now intros [= ->]|].
      intros [= ->]. discriminate.
  - intros t -> Et E. rewrite E, Et. reflexivity.
  - intros m E. rewrite E. reflexivity.
Qed.

(** ** Array Remove *)

Lemma length_firstn_le {A} (n : nat) (l : list A) :
  (n <= length l)%nat -> length (firstn n l) = n.
Proof. intros L. rewrite length_firstn. lia. Qed.

Lemma Array_length_bound {A} (array : Util.Array A) :
  Z.of_nat (length array) <= Util.MAX_ARRAY_LENGTH.
Proof. apply Z.leb_le, Util.elements_bound. Qed.

(** X9.  [remove(array, from, to)] with [0 <= from <= to < array.length]
    ([to] standing for [from] when omitted) deletes exactly the elements
    at positions [from] to [to]: the elements before [from] and after [to]
    are kept in order, and the new length is returned. *)
Theorem remove_deletes_range {A} (undefined : A) (array : Util.Array A)
    (from : Z) (to : option Z) :
  0 <= from ->
  from <= match to with Some t => t | None => from end ->
  match to with Some t => t | None => from end < Z.of_nat (length array) ->
  Util.remove undefined array from to
  = Some (firstn (Z.to_nat from) array
          ++ skipn (Z.to_nat (match to with Some t => t | None => from end + 1)) array,
          Z.of_nat (length array)
          - (match to with Some t => t | None => from end - from + 1)).
Proof.
  set (last := match to with Some t => t | None => from end).
  intros H0 H1 H2.
  pose proof (Array_length_bound array) as Hb.
  assert (Hl : Js.orDefault to from = last).
  { subst last. destruct to as [t|]; simpl; [|reflexivity].
    destruct (Z.eqb_spec t 0); [lia | reflexivity]. }
  unfold Util.remove. rewrite Hl.
  assert (Hs : Js.orDefault (Some (last + 1)) (Z.of_nat (length array)) = last + 1).
  { simpl. destruct (Z.eqb_spec (last + 1) 0); [lia | reflexivity]. }
  rewrite Hs. unfold Util.slice, Util.setLength, Util.push.
  destruct (Z.ltb_spec from 0); [lia|].
  destruct (Z.ltb_spec from 0); [lia|].
  destruct (Z.ltb_spec Util.MAX_ARRAY_LENGTH from); [lia|].
  destruct (Z.ltb_spec (last + 1) 0); [lia|].
  rewrite Z.min_l by lia.
  replace (Z.to_nat from - length array)%nat with 0%nat by lia.
  simpl. rewrite app_nil_r.
  assert (Hlen : Z.of_nat (length (firstn (Z.to_nat from) array
                                   ++ skipn (Z.to_nat (last + 1)) array))
                 = Z.of_nat (length array) - (last - from + 1)).
  { rewrite length_app, length_firstn_le, length_skipn by lia. lia. }
  rewrite Hlen.
  destruct (Z.ltb_spec Util.MAX_ARRAY_LENGTH (Z.of_nat (length array) - (last - from + 1)));
    [lia | reflexivity].
Qed.

Lemma remove_deletes_range_witness :
  (0 <= 1) /\ (1 <= 2) /\ (2 < Z.of_nat (length ["a"; "b"; "c"; "d"]))
  /\ Util.remove "" (Util.mkArray ["a"; "b"; "c"; "d"] eq_refl) 1 (Some 2)
     = Some (["a"; "d"], 2).
Proof.
  split; [lia | split; [lia | split; [simpl; lia|]]].
  rewrite (remove_deletes_range "" (Util.mkArray ["a"; "b"; "c"; "d"] eq_refl) 1 (Some 2));
    [reflexivity | lia | simpl; lia | simpl; lia].
Defined.

(** X10.  [remove(array, from)] with a negative [from] no smaller than
    [-array.length] deletes the element at that position counted from the
    end; a [from] below [-array.length] raises a [RangeError]. *)
Theorem remove_from_the_end {A} (undefined : A) (array : Util.Array A) (from : Z) :
  from < 0 ->
  (- Z.of_nat (length array) <= from ->
   Util.remove undefined array from None
   = Some (firstn (Z.to_nat (Z.of_nat (length array) + from)) array
           ++ skipn (Z.to_nat (Z.of_nat (length array) + from + 1)) array,
           Z.of_nat (length array) - 1))
  /\ (from < - Z.of_nat (length array) ->
      Util.remove undefined array from None = None).
Proof.
  intros Hneg.
  pose proof (Array_length_bound array) as Hb.
  unfold Util.remove, Util.setLength, Util.slice, Util.push.
  destruct (Z.ltb_spec from 0); [|lia]. split; intros Hr.
  - destruct (Z.ltb_spec (Z.of_nat (length array) + from) 0); [lia|].
    destruct (Z.ltb_spec Util.MAX_ARRAY_LENGTH (Z.of_nat (length array) + from)); [lia|].
    replace (Z.to_nat (Z.of_nat (length array) + from) - length array)%nat
      with 0%nat by lia.
    simpl Js.orDefault.
    assert (Hsk : skipn (Z.to_nat
                (if (if from + 1 =? 0 then Z.of_nat (length array) else from + 1) <? 0
                 then Z.max (Z.of_nat (length array)
                             + (if from + 1 =? 0 then Z.of_nat (length array) else from + 1)) 0
                 else Z.min (if from + 1 =? 0 then Z.of_nat (length array) else from + 1)
                            (Z.of_nat (length array)))) array
            = skipn (Z.to_nat (Z.of_nat (length array) + from + 1)) array).
    { f_equal. f_equal. destruct (Z.eqb_spec (from + 1) 0).
      - destruct (Z.ltb_spec (Z.of_nat (length array)) 0); lia.
      - destruct (Z.ltb_spec (from + 1) 0); lia. }
    rewrite Hsk. simpl. rewrite app_nil_r.
    assert (Hlen : Z.of_nat (length (firstn (Z.to_nat (Z.of_nat (length array) + from)) array
                     ++ skipn (Z.to_nat (Z.of_nat (length array) + from + 1)) array))
                   = Z.of_nat (length array) - 1).
    { rewrite length_app, length_firstn_le, length_skipn by lia. lia. }
    rewrite Hlen.
    destruct (Z.ltb_spec Util.MAX_ARRAY_LENGTH (Z.of_nat (length array) - 1));
      [lia | reflexivity].
  - destruct (Z.ltb_spec (Z.of_nat (length array) + from) 0); [reflexivity | lia].
Qed.

Lemma remove_from_the_end_witness :
  (-2 < 0) /\ (- Z.of_nat (length ["a"; "b"; "c"; "d"]) <= -2)
  /\ Util.remove "" (Util.mkArray ["a"; "b"; "c"; "d"] eq_refl) (-2) None
     = Some (["a"; "b"; "d"], 3).
Proof.
  split; [lia | split; [simpl; lia|]].
  rewrite (proj1 (remove_from_the_end "" (Util.mkArray ["a"; "b"; "c"; "d"] eq_refl) (-2)
                    ltac:(lia)));
    [reflexivity | simpl; lia].
Defined.

(** X11.  [remove(array, from)] with [from] at or beyond the end deletes
    nothing.  It sets the length to [from]: up to the largest length of an
    array, [2^32 - 1], the array keeps its elements and grows by
    [from - array.length] empty slots; beyond it the call raises a
    [RangeError]. *)
Theorem remove_beyond_the_end_grows {A} (undefined : A) (array : Util.Array A) (from : Z) :
  Z.of_nat (length array) <= from ->
  (from <= Util.MAX_ARRAY_LENGTH ->
   Util.remove undefined array from None
   = Some (array ++ repeat undefined (Z.to_nat from - length array), from))
  /\ (Util.MAX_ARRAY_LENGTH < from ->
      Util.remove undefined array from None = None).
Proof.
  intros Hge. unfold Util.remove, Util.setLength, Util.slice, Util.push. simpl Js.orDefault.
  destruct (Z.ltb_spec from 0); [lia|].
  destruct (Z.ltb_spec from 0); [lia|].
  split; intros Hmax.
  - destruct (Z.ltb_spec Util.MAX_ARRAY_LENGTH from); [lia|].
    destruct (Z.eqb_spec (from + 1) 0); [lia|].
    destruct (Z.ltb_spec (from + 1) 0); [lia|].
    cbn [orb]. rewrite Z.min_r by lia. rewrite Nat2Z.id, skipn_all, app_nil_r.
    rewrite firstn_all2 by lia.
    assert (Hlen : Z.of_nat (length (Util.elements array
                                     ++ repeat undefined (Z.to_nat from - length array)))
                   = from).
    { rewrite length_app, repeat_length. lia. }
    rewrite Hlen.
    destruct (Z.ltb_spec Util.MAX_ARRAY_LENGTH from); [lia | reflexivity].
  - destruct (Z.ltb_spec Util.MAX_ARRAY_LENGTH from); [reflexivity | lia].
Qed.

Lemma remove_beyond_the_end_grows_witness :
  (Z.of_nat (length ["a"; "b"]) <= 4)
  /\ Util.remove "" (Util.mkArray ["a"; "b"] eq_refl) 4 None = Some (["a"; "b"; ""; ""], 4)
  /\ Util.remove "" (Util.mkArray ["a"; "b"] eq_refl) 4294967296 None = None.
Proof.
  split; [simpl; lia|].
  destruct (remove_beyond_the_end_grows "" (Util.mkArray ["a"; "b"] eq_refl) 4
              ltac:(simpl; lia)) as [Hgrow _].
  destruct (remove_beyond_the_end_grows "" (Util.mkArray ["a"; "b"] eq_refl) 4294967296
              ltac:(simpl; lia)) as [_ Hraise].
  split.
  - rewrite Hgrow; [reflexivity | unfold Util.MAX_ARRAY_LENGTH; lia].
  - apply Hraise. unfold Util.MAX_ARRAY_LENGTH. lia.
Defined.

(* ===================================================================== *)
(** * Properties of scripts, retries and the matcher *)
(* ===================================================================== *)

(** ** [isScriptableUrl] and [executeContentScript] *)

Lemma Matches_Lit (s : string) : Matches (Lit s) s.
Proof.
  induction s as [|c s IH]; simpl; [constructor|].
  change (String c s) with (String.append (String c "") s).
  constructor; [|exact IH]. constructor. apply Ascii.eqb_refl.
Qed.

Lemma Matches_StarDot (s : string) : noLineTerminator s = true -> Matches (Star Dot) s.
Proof. intros Hs. apply fullMatch_spec. now rewrite fullMatch_StarDot. Qed.

Lemma append_assoc (a b c : string) :
  String.append (String.append a b) c = String.append a (String.append b c).
Proof.
  induction a as [|x a IH]; [reflexivity|].
  change (String x (String.append (String.append a b) c)
          = String x (String.append a (String.append b c))).
  f_equal. exact IH.
Qed.

Lemma test_prefix (r : re) (p rest : string) :
  fullMatch r p = true -> test r (String.append p rest) = true.
Proof.
  intros Hp. apply test_spec. exists p, rest. split; [reflexivity|].
  now apply fullMatch_spec.
Qed.

(** X12.  No script is ever injected into an internal page: for the empty
    url, for every url of scheme [about], [file] or [view-source], for
    every url whose scheme starts with [chrome] (such as [chrome://...]
    and [chrome-extension://...]) and for the pages of the Chrome Web
    Store, [isScriptableUrl] is false and [executeContentScript] does
    nothing. *)
Theorem executeContentScript_skips_internal_pages
    (url : string) (tabId : Z) (scriptBody : string) (injected : list (Z * string)) :
  (url = ""
   \/ (exists rest, url = String.append "about:" rest)
   \/ (exists rest, url = String.append "file:" rest)
   \/ (exists rest, url = String.append "view-source:" rest)
   \/ (exists mid rest, noLineTerminator mid = true
                        /\ url = String.append "chrome" (String.append mid (String ":" rest)))
   \/ (exists rest, url = String.append "https://chrome.google.com/webstore" rest)
   \/ (exists rest, url = String.append "http://chrome.google.com/webstore" rest)) ->
  isScriptableUrl url = false
  /\ executeContentScript url tabId scriptBody injected = injected.
Proof.
  intros Hurl.
  assert (Hs : isScriptableUrl url = false).
  { unfold isScriptableUrl.
    destruct Hurl as [-> | [[rest ->] | [[rest ->] | [[rest ->]
                     | [(mid & rest & Hmid & ->) | [[rest ->] | [rest ->]]]]]]].
    - reflexivity.
    - now rewrite (test_prefix NON_SCRIPTABLE_SCHEME_REGEXP "about:" rest eq_refl), orb_true_r.
    - now rewrite (test_prefix NON_SCRIPTABLE_SCHEME_REGEXP "file:" rest eq_refl), orb_true_r.
    - now rewrite (test_prefix NON_SCRIPTABLE_SCHEME_REGEXP "view-source:" rest eq_refl),
        orb_true_r.
    - assert (T : test NON_SCRIPTABLE_SCHEME_REGEXP
                    (String.append "chrome" (String.append mid (String ":" rest))) = true).
      { apply test_spec.
        exists (String.append (String.append "chrome" mid) ":"), rest. split.
        - rewrite !append_assoc. reflexivity.
        - unfold NON_SCRIPTABLE_SCHEME_REGEXP. constructor.
          + apply MAltR, MAltR, MAltR. constructor.
            * apply (Matches_Lit "chrome").
            * now apply Matches_StarDot.
          + constructor. reflexivity. }
      now rewrite T, orb_true_r.
    - now rewrite (test_prefix WEBSTORE_REGEXP "https://chrome.google.com/webstore" rest eq_refl),
        orb_true_r.
    - now rewrite (test_prefix WEBSTORE_REGEXP "http://chrome.google.com/webstore" rest eq_refl),
        orb_true_r. }
  split; [exact Hs|]. unfold executeContentScript. now rewrite Hs.
Qed.

Lemma executeContentScript_skips_internal_pages_witness :
  ("chrome-extension://abc/options.html" = ""
   \/ (exists rest, "chrome-extension://abc/options.html" = String.append "about:" rest)
   \/ (exists rest, "chrome-extension://abc/options.html" = String.append "file:" rest)
   \/ (exists rest, "chrome-extension://abc/options.html" = String.append "view-source:" rest)
   \/ (exists mid rest, noLineTerminator mid = true
         /\ "chrome-extension://abc/options.html"
            = String.append "chrome" (String.append mid (String ":" rest)))
   \/ (exists rest, "chrome-extension://abc/options.html"
                    = String.append "https://chrome.google.com/webstore" rest)
   \/ (exists rest, "chrome-extension://abc/options.html"
                    = String.append "http://chrome.google.com/webstore" rest))
  /\ isScriptableUrl "chrome-extension://abc/options.html" = false
  /\ executeContentScript "chrome-extension://abc/options.html" 4 "go()" [] = [].
Proof.
  assert (W : "chrome-extension://abc/options.html" = ""
   \/ (exists rest, "chrome-extension://abc/options.html" = String.append "about:" rest)
   \/ (exists rest, "chrome-extension://abc/options.html" = String.append "file:" rest)
   \/ (exists rest, "chrome-extension://abc/options.html" = String.append "view-source:" rest)
   \/ (exists mid rest, noLineTerminator mid = true
         /\ "chrome-extension://abc/options.html"
            = String.append "chrome" (String.append mid (String ":" rest)))
   \/ (exists rest, "chrome-extension://abc/options.html"
                    = String.append "https://chrome.google.com/webstore" rest)
   \/ (exists rest, "chrome-extension://abc/options.html"
                    = String.append "http://chrome.google.com/webstore" rest)).
  { right. right. right. right. left.
    exists "-extension", "//abc/options.html". split; reflexivity. }
  split; [exact W|].
  exact (executeContentScript_skips_internal_pages
           "chrome-extension://abc/options.html" 4 "go()" [] W).
Defined.

(** ** Retries of the detail query for an existing page *)

Section RetryProps.
Context `{Host}.
Variables (page : Node) (tabId : Z).
Hypothesis Hid : chromeId (data page) = Some tabId.
Hypothesis Hnz : tabId <> 0.
Hypothesis Hport : portExists tabId = false.

Lemma tryAssociateExisting_step (retryList : gmap Z Z) (st : State) :
  DataTree.getNodeById (tree st) (id (data page)) = Some page ->
  ExistingPage.tryAssociateExistingToRestorablePageNode page retryList st
  = if Js.orDefault (retryList !! tabId) 0 >=? ASSOCIATE_GET_DETAILS_MAX_RETRIES
    then (ExistingPage.GaveUp, delete tabId retryList,
          emit (GetPageDetails tabId "associate_existing" None) st)
    else (ExistingPage.Retry page,
          <[tabId := Js.orDefault (retryList !! tabId) 0 + 1]> retryList,
          emit (GetPageDetails tabId "associate_existing" None) st).
Proof.
  intros Hin. unfold ExistingPage.tryAssociateExistingToRestorablePageNode.
  rewrite Hid. destruct (Z.eqb_spec tabId 0) as [E|_]; [contradiction|].
  unfold getPageDetails. rewrite Hport. cbn [negb]. cbv zeta.
  change (tree (emit (GetPageDetails tabId "associate_existing" None) st)) with (tree st).
  rewrite Hin. reflexivity.
Qed.

Lemma retrying_S (calls : nat) (retryList : gmap Z Z) (st : State) :
  ExistingPage.retrying (S calls) page retryList st
  = match ExistingPage.tryAssociateExistingToRestorablePageNode page retryList st with
    | (ExistingPage.Retry existingPage', retryList', st') =>
        let '(outcomes, retryList'', st'') :=
          ExistingPage.retrying calls existingPage' retryList' st' in
        (ExistingPage.Retry existingPage' :: outcomes, retryList'', st'')
    | (outcome, retryList', st') => ([outcome], retryList', st')
    end.
Proof. reflexivity. Qed.

Lemma retrying_counts (n : nat) : forall (extra : nat) (retryList : gmap Z Z) (st : State),
  DataTree.getNodeById (tree st) (id (data page)) = Some page ->
  0 <= Js.orDefault (retryList !! tabId) 0 ->
  Js.orDefault (retryList !! tabId) 0 + Z.of_nat n = ASSOCIATE_GET_DETAILS_MAX_RETRIES ->
  exists st',
    ExistingPage.retrying (S n + extra) page retryList st
    = (repeat (ExistingPage.Retry page) n ++ [ExistingPage.GaveUp],
       delete tabId retryList, st')
    /\ tree st' = tree st
    /\ effects st'
       = effects st ++ repeat (GetPageDetails tabId "associate_existing" None) (S n).
Proof.
  unfold ASSOCIATE_GET_DETAILS_MAX_RETRIES.
  induction n as [|n IH]; intros extra retryList st Hin H0 Hk.
  - change (1 + extra)%nat with (S extra).
    rewrite retrying_S, tryAssociateExisting_step by assumption.
    unfold ASSOCIATE_GET_DETAILS_MAX_RETRIES.
    destruct (Z.geb_spec (Js.orDefault (retryList !! tabId) 0) 30); [|lia].
    eexists. split; [reflexivity|]. split; reflexivity.
  - change (S (S n) + extra)%nat with (S (S n + extra)).
    rewrite retrying_S, tryAssociateExisting_step by assumption.
    unfold ASSOCIATE_GET_DETAILS_MAX_RETRIES.
    destruct (Z.geb_spec (Js.orDefault (retryList !! tabId) 0) 30); [lia|].
    set (k := Js.orDefault (retryList !! tabId) 0) in *.
    assert (Hk' : Js.orDefault (<[tabId := k + 1]> retryList !! tabId) 0 = k + 1).
    { rewrite lookup_insert_eq. simpl. destruct (Z.eqb_spec (k + 1) 0); [lia | reflexivity]. }
    destruct (IH extra (<[tabId := k + 1]> retryList)
                (emit (GetPageDetails tabId "associate_existing" None) st))
      as (st' & E & Ht & He).
    + exact Hin.
    + rewrite Hk'. lia.
    + rewrite Hk'. lia.
    + rewrite E.
      exists st'. split; [|split].
      * rewrite delete_insert_eq. reflexivity.
      * exact Ht.
      * rewrite He. simpl. rewrite <- app_assoc. reflexivity.
Qed.

End RetryProps.

(** X13.  The detail query for an existing page is retried at most
    [ASSOCIATE_GET_DETAILS_MAX_RETRIES] (30) times: while the tab has no
    port and the page stays in the tree, the first call and the thirty
    calls made by the retry timers each ask for the details and find no
    port; the thirty-first call gives up, sets no further timer and
    leaves no retry count for the tab behind. *)
Theorem tryAssociateExisting_gives_up_after_max_retries `{Host}
    (page : Node) (tabId : Z) (retryList : gmap Z Z) (st : State) (calls : nat) :
  chromeId (data page) = Some tabId ->
  tabId <> 0 ->
  portExists tabId = false ->
  DataTree.getNodeById (tree st) (id (data page)) = Some page ->
  retryList !! tabId = None ->
  (31 <= calls)%nat ->
  exists retryList' st',
    ExistingPage.retrying calls page retryList st
    = (repeat (ExistingPage.Retry page) 30 ++ [ExistingPage.GaveUp], retryList', st')
    /\ retryList' !! tabId = None
    /\ effects st'
       = effects st ++ repeat (GetPageDetails tabId "associate_existing" None) 31.
Proof.
  intros Hid Hnz Hport Hin Hnone Hcalls.
  destruct (retrying_counts page tabId Hid Hnz Hport 30 (calls - 31) retryList st)
    as (st' & E & _ & He).
  - exact Hin.
  - rewrite Hnone. simpl. lia.
  - rewrite Hnone. reflexivity.
  - replace (31 + (calls - 31))%nat with calls in E by lia.
    exists (delete tabId retryList), st'. split; [exact E|]. split; [|exact He].
    apply lookup_delete_eq.
Qed.

Lemma tryAssociateExisting_gives_up_after_max_retries_witness :
  exists retryList' st',
    ExistingPage.retrying 40 (Ex.tabNode "q" 300 5 0 "http://other/") ∅
      (Ex.emptyState Ex.scopeTree)
    = (repeat (ExistingPage.Retry (Ex.tabNode "q" 300 5 0 "http://other/")) 30
       ++ [ExistingPage.GaveUp], retryList', st')
    /\ retryList' !! 300 = None
    /\ effects st'
       = effects (Ex.emptyState Ex.scopeTree)
         ++ repeat (GetPageDetails 300 "associate_existing" None) 31.
Proof.
  apply (tryAssociateExisting_gives_up_after_max_retries
           (Ex.tabNode "q" 300 5 0 "http://other/") 300 ∅ (Ex.emptyState Ex.scopeTree) 40);
    [reflexivity | lia | reflexivity | reflexivity | reflexivity | lia].
Defined.

(** ** The matcher *)

(** X14.  Every node found by [findPageNodeForAssociation] with [findAll]
    is a page node of the tree that meets the criteria of [params]:
    hibernated and restorable when required, equal to the supplied
    incognito, pinned and history length values, not the excluded node,
    and with the url of [params] unless that is a Google search url;
    without [findAll] the function returns the first of these nodes, or
    nothing when there is none. *)
Theorem findPageNodeForAssociation_sound (t : Tree) (params : Params.t) :
  findPageNodeForAssociation t params
  = hd_error (findAllPageNodesForAssociation t params)
  /\ forall node, In node (findAllPageNodesForAssociation t params) ->
       In node (DataTree.nodes t)
       /\ isPageNode node = true
       /\ (Params.mustBeHibernated params = true -> hibernated (data node) = true)
       /\ (Params.mustBeRestorable params = true -> restorable (data node) = true)
       /\ (forall b, Params.incognito params = Some b -> incognito (data node) = b)
       /\ (forall b, Params.pinned params = Some b -> pinned (data node) = b)
       /\ (forall n, Params.historylength params = Some n -> historylength (data node) = n)
       /\ (forall other, Params.notMatchingNode params = Some other ->
                         id (data node) <> other)
       /\ (isGoogleSearchUrl (Params.url params) = false ->
           url (data node) = Params.url params).
Proof.
  split.
  - unfold findPageNodeForAssociation, findAllPageNodesForAssociation,
      DataTree.getNode, DataTree.filter.
    induction (DataTree.nodes t) as [|n l IH]; simpl; [reflexivity|].
    destruct (testNodeForAssociation t params n); [reflexivity | exact IH].
  - intros node Hin.
    unfold findAllPageNodesForAssociation, DataTree.filter in Hin.
    apply filter_In in Hin as [Hin Htest]. split; [exact Hin|].
    unfold testNodeForAssociation in Htest.
    destruct (isPageNode node) eqn:Ep; [|discriminate]. cbn [negb] in Htest.
    split; [reflexivity|].
    destruct (isGoogleSearchUrl (Params.url params) && negb (isGoogleSearchUrl (url (data node))));
      [discriminate|].
    match type of Htest with
    | (if negb ?m then _ else _) = true => destruct m eqn:Em; [|discriminate]
    end.
    clear Htest.
    repeat (apply andb_prop in Em as [Em ?]).
    repeat split.
    + intros Hh. rewrite Hh in Em. exact Em.
    + intros Hr. match goal with H0 : negb (Params.mustBeRestorable params) || _ = true |- _ =>
        rewrite Hr in H0; exact H0 end.
    + intros b Hb. match goal with H0 : optEqb Bool.eqb (Params.incognito params) _ = true |- _ =>
        rewrite Hb in H0; simpl in H0; now apply Bool.eqb_prop in H0 end.
    + intros b Hb. match goal with H0 : optEqb Bool.eqb (Params.pinned params) _ = true |- _ =>
        rewrite Hb in H0; simpl in H0; now apply Bool.eqb_prop in H0 end.
    + intros n Hn. match goal with H0 : optEqb Z.eqb (Params.historylength params) _ = true |- _ =>
        rewrite Hn in H0; simpl in H0; now apply Z.eqb_eq in H0 end.
    + intros other Ho. match goal with H0 : match Params.notMatchingNode params with _ => _ end = true |- _ =>
        rewrite Ho in H0; apply negb_true_iff in H0; now apply String.eqb_neq in H0 end.
    + intros Hg. match goal with H0 : (if negb (isGoogleSearchUrl _) then _ else _) = true |- _ =>
        rewrite Hg in H0; simpl in H0; apply String.eqb_eq in H0; now symmetry end.
Qed.

(* ===================================================================== *)
(** * Properties of the association runs *)
(* ===================================================================== *)

Section RunAccounting.
Context `{Host}.

Lemma sameRuns_refl (st : State) : sameRuns st st.
Proof. now split. Qed.

Lemma sameRuns_trans (a b c : State) : sameRuns a b -> sameRuns b c -> sameRuns a c.
Proof. intros [A1 A2] [B1 B2]. split; congruence. Qed.

Lemma sameRuns_withTree (f : Tree -> Tree) (st : State) : sameRuns st (withTree f st).
Proof. now split. Qed.

Lemma sameRuns_emit (e : Effect) (st : State) : sameRuns st (emit e st).
Proof. now split. Qed.

Lemma sameRuns_restoreAssociatedPage (tab : Tab.t) (page : string) (st : State) :
  sameRuns st (restoreAssociatedPage tab page st).
Proof.
  unfold restoreAssociatedPage.
  destruct (Tab.active tab && Js.looseEq getFocused (Some (Tab.windowId tab))); simpl;
    match goal with |- context [match ?o with Some _ => _ | None => _ end] =>
      destruct o end; now split.
Qed.

Lemma sameRuns_update (runId : string) (f : RunInfo.t -> RunInfo.t) (st : State) :
  sameRuns st
    (withRuns (fun runs => match runs !! runId with
                           | Some runInfo => <[runId := f runInfo]> runs
                           | None => runs
                           end) st).
Proof.
  split; [|reflexivity]. simpl.
  destruct (associationRuns st !! runId) as [runInfo|] eqn:E; [|reflexivity].
  apply dom_insert_lookup_L. now rewrite E.
Qed.

Lemma sameRuns_associateTabToPageNode (runId : string) (tab : Tab.t)
    (referrer : option string) (historylength : option Z) (st : State) :
  sameRuns st (associateTabToPageNode runId tab referrer historylength st).
Proof.
  unfold associateTabToPageNode.
  set (st1 := match associationRuns st !! runId with Some _ => _ | None => st end).
  assert (H1 : sameRuns st st1).
  { subst st1. destruct (associationRuns st !! runId) as [runInfo|] eqn:E;
      [|apply sameRuns_refl].
    split; [|reflexivity]. simpl. apply dom_insert_lookup_L. now rewrite E. }
  cbv zeta.
  destruct (DataTree.getNodeByChromeId (tree st1) (Tab.id tab)); [exact H1|].
  destruct (findPageNodeForAssociation (tree st1) _).
  - eapply sameRuns_trans; [exact H1 | apply sameRuns_restoreAssociatedPage].
  - destruct (Tab.active tab && _); exact H1.
Qed.

Lemma sameRuns_tryAssociateTab (runId : string) (tab : Tab.t)
    (forceNewTabAssociation : bool) (st : State) :
  sameRuns st (snd (tryAssociateTab runId tab forceNewTabAssociation st)).
Proof.
  unfold tryAssociateTab.
  destruct (Tab.incognito tab); [apply sameRuns_refl|].
  destruct (negb forceNewTabAssociation && isNewTabUrl (Tab.url tab)
            && (Tab.index tab =? 0) && negb (Tab.pinned tab)); [apply sameRuns_emit|].
  unfold tryFastAssociateTab.
  destruct ((length (fastCandidates (tree st) tab true) =? 1)%nat
            || (0 <? length (fastCandidates (tree st) tab true))%nat
               && negb (isScriptableUrl (Tab.url tab))).
  - destruct (fastCandidates (tree st) tab true) as [|m ms]; simpl.
    + destruct (isNewTabUrl (Tab.url tab)); [apply sameRuns_withTree|].
      destruct (negb (isScriptableUrl (Tab.url tab)));
        [apply sameRuns_associateTabToPageNode|].
      simpl. apply (sameRuns_update runId
        (fun runInfo => RunInfo.mk (RunInfo.runId runInfo) (RunInfo.total runInfo)
                          (RunInfo.count runInfo) (RunInfo.tabIds runInfo ++ [Tab.id tab]))).
    + destruct (isScriptableUrl (Tab.url tab)); simpl;
        apply sameRuns_restoreAssociatedPage.
  - simpl. destruct (isNewTabUrl (Tab.url tab)); [apply sameRuns_withTree|].
    destruct (negb (isScriptableUrl (Tab.url tab)));
      [apply sameRuns_associateTabToPageNode|].
    simpl. apply (sameRuns_update runId
      (fun runInfo => RunInfo.mk (RunInfo.runId runInfo) (RunInfo.total runInfo)
                        (RunInfo.count runInfo) (RunInfo.tabIds runInfo ++ [Tab.id tab]))).
Qed.

Lemma sameRuns_associateListedTab (runId : string) (st : State) (tab : Tab.t) :
  sameRuns st (associateListedTab runId st tab).
Proof.
  unfold associateListedTab.
  destruct (isSidebarTab tab); [apply sameRuns_refl|].
  destruct (DataTree.getNodeByChromeId (tree st) (Tab.id tab)); [apply sameRuns_refl|].
  pose proof (sameRuns_tryAssociateTab runId tab false st) as S1.
  destruct (tryAssociateTab runId tab false st) as [associated st1]. simpl in S1.
  destruct associated; [exact S1|].
  eapply sameRuns_trans; [exact S1|].
  apply (sameRuns_update runId
    (fun runInfo => RunInfo.mk (RunInfo.runId runInfo) (RunInfo.total runInfo + 1)
                      (RunInfo.count runInfo) (RunInfo.tabIds runInfo))).
Qed.

Lemma sameRuns_fold (runId : string) (tabs : list Tab.t) : forall st,
  sameRuns st (fold_left (associateListedTab runId) tabs st).
Proof.
  induction tabs as [|tab tabs IH]; intros st; simpl; [apply sameRuns_refl|].
  eapply sameRuns_trans; [apply sameRuns_associateListedTab | apply IH].
Qed.

Lemma runsAccounted_sameRuns (st st' : State) :
  sameRuns st st' -> runsAccounted st -> runsAccounted st'.
Proof.
  intros [Hd Hc] [A1 A2]. unfold runsAccounted.
  rewrite <- (size_dom (D := gset string) (associationRuns st')), Hd, size_dom, Hc.
  now split.
Qed.

Lemma runsAccounted_step (st st' : State) :
  EngineStep st st' -> runsAccounted st -> runsAccounted st'.
Proof.
  intros Hstep Hacc. destruct Hstep.
  - (* startAssociationRun *)
    unfold startAssociationRun. destruct (0 <? associationConcurrentRuns st); [exact Hacc|].
    exact Hacc.
  - (* the tab enumeration answers *)
    unfold startAssociationRun_onTabs.
    destruct (Z.ltb_spec 0 (associationConcurrentRuns st)) as [_|Hle]; [exact Hacc|].
    destruct Hacc as [A1 A2].
    assert (Hempty : associationRuns st = ∅) by (apply map_size_empty_iff; lia).
    set (st1 := withConcurrentRuns _ (withRuns _ st)).
    assert (H1 : runsAccounted st1).
    { unfold runsAccounted, st1. simpl. rewrite Hempty, map_size_insert_None
        by apply lookup_empty. rewrite A1, Hempty, map_size_empty. split; [reflexivity | lia]. }
    pose proof (runsAccounted_sameRuns _ _ (sameRuns_fold runId tabs st1) H1) as H2.
    cbv zeta. fold st1.
    destruct (associationRuns (fold_left (associateListedTab runId) tabs st1) !! runId)
      as [runInfo|] eqn:E; [|exact H2].
    destruct (RunInfo.total runInfo =? 0); [|exact H2].
    destruct H2 as [B1 B2]. unfold runsAccounted, endAssociationRun. simpl.
    rewrite map_size_delete_Some by (now rewrite E). rewrite B1.
    assert (0 < size (associationRuns (fold_left (associateListedTab runId) tabs st1)))%nat.
    { apply Nat.neq_0_lt_0. intros Hz. apply map_size_empty_iff in Hz.
      rewrite Hz, lookup_empty in E. discriminate. }
    split; lia.
  - (* the tick *)
    unfold associatePagesCheck, associatePagesCheckWith.
    destruct (associationRuns st !! runId) as [runInfo|] eqn:E; [|exact Hacc].
    destruct (stubbornLoop _ _ _) as [table forced]. cbv zeta.
    rewrite fold_emit.
    unfold startAssociationRun, endAssociationRun, runsAccounted. simpl.
    destruct Hacc as [A1 A2].
    assert (0 < size (associationRuns st))%nat.
    { apply Nat.neq_0_lt_0. intros Hz. apply map_size_empty_iff in Hz.
      rewrite Hz, lookup_empty in E. discriminate. }
    match goal with |- context [if ?c then _ else _] => destruct c end; simpl;
      rewrite map_size_delete_Some by (now rewrite E); split; lia.
  - (* a detail response *)
    eapply runsAccounted_sameRuns; [apply sameRuns_associateTabToPageNode | exact Hacc].
  - (* the window enumeration answers *)
    unfold tryAssociateTab_onWindowTabs.
    destruct (length tabs =? 1)%nat.
    + eapply runsAccounted_sameRuns; [apply sameRuns_withTree | exact Hacc].
    + eapply runsAccounted_sameRuns; [apply sameRuns_tryAssociateTab | exact Hacc].
Qed.

End RunAccounting.

(** X15.  At most one association run is registered at any time, and
    [associationConcurrentRuns] is the number of registered runs: this
    holds of the initial state (no run, counter 0) and is kept by every
    sequence of run starts, tab and window enumeration answers, ticks and
    detail responses. *)
Theorem single_association_run `{Host} (st st' : State) :
  runsAccounted st ->
  rtc EngineStep st st' ->
  runsAccounted st'.
Proof.
  intros Hacc Hsteps. induction Hsteps as [|a b c Hab _ IH]; [exact Hacc|].
  apply IH. now apply (runsAccounted_step a b).
Qed.

Lemma single_association_run_witness :
  runsAccounted (Ex.emptyState Ex.freeTree)
  /\ runsAccounted
       (associatePagesCheck "run"
          (startAssociationRun_onTabs "run" [Ex.pendingTab] (Ex.emptyState Ex.freeTree))).
Proof.
  assert (A : runsAccounted (Ex.emptyState Ex.freeTree)).
  { split; [reflexivity | simpl; rewrite map_size_empty; lia]. }
  split; [exact A|].
  apply (single_association_run (Ex.emptyState Ex.freeTree) _ A).
  eapply rtc_l; [apply (step_tabs "run" [Ex.pendingTab])|].
  apply rtc_once. apply step_tick.
Defined.

(** ** Stubborn tabs, again *)

Section StubbornAgain.
Variable threshold : Q.
Variable t : Z.

Lemma stubbornLoop_ripe_kept (tabIds : list Z) : forall table,
  ripe threshold t table ->
  fst (stubbornLoop threshold tabIds table) !! t = table !! t
  /\ (In t tabIds -> In t (snd (stubbornLoop threshold tabIds table))).
Proof.
  induction tabIds as [|a p IH]; intros table Hr; simpl; [now split|].
  destruct (Qle_bool threshold (inject_Z (Js.orDefault (table !! a) 0 + 1))) eqn:E.
  - destruct (IH table Hr) as [I1 I2].
    destruct (stubbornLoop threshold p table) as [table' forced]. simpl in *.
    split; [exact I1|]. intros [->|Hin]; [now left | right; now apply I2].
  - assert (Hne : a <> t).
    { intros ->. unfold ripe in Hr. rewrite Hr in E. discriminate. }
    destruct (IH (<[a := Js.orDefault (table !! a) 0 + 1]> table)) as [I1 I2].
    { unfold ripe. now rewrite lookup_insert_ne. }
    rewrite lookup_insert_ne in I1 by assumption.
    split; [exact I1|]. intros [->|Hin]; [contradiction | now apply I2].
Qed.

Lemma stubbornLoop_forced_ripe (tabIds : list Z) : forall table,
  In t (snd (stubbornLoop threshold tabIds table)) ->
  ripe threshold t (fst (stubbornLoop threshold tabIds table)).
Proof.
  induction tabIds as [|a p IH]; intros table; simpl; [intros []|].
  destruct (Qle_bool threshold (inject_Z (Js.orDefault (table !! a) 0 + 1))) eqn:E.
  - destruct (decide (a = t)) as [->|Hne].
    + intros _. assert (Hr : ripe threshold t table) by exact E.
      pose proof (stubbornLoop_ripe_kept p table Hr) as [I1 _].
      destruct (stubbornLoop threshold p table) as [table' forced]. simpl in *.
      unfold ripe. now rewrite I1.
    + specialize (IH table).
      destruct (stubbornLoop threshold p table) as [table' forced]. simpl in *.
      intros [->|Hin]; [contradiction | now apply IH].
  - apply IH.
Qed.

Lemma tableAfterTicks_ripe (pendings : list (list Z)) : forall table,
  ripe threshold t table -> ripe threshold t (tableAfterTicks threshold pendings table).
Proof.
  induction pendings as [|p ps IH]; intros table Hr; simpl; [exact Hr|].
  apply IH. unfold ripe. now rewrite (proj1 (stubbornLoop_ripe_kept p table Hr)).
Qed.

End StubbornAgain.

(** X16.  The fallback association is repeated: once a tick has given a
    tab the fallback association, its counter stays just below the
    threshold, and every later tick that finds the tab pending gives it
    the fallback association again, whatever ticks ran in between. *)
Theorem fallback_association_repeats (threshold : Q) (t : Z)
    (tabIds : list Z) (between : list (list Z)) (tabIds' : list Z) (table : gmap Z Z) :
  In t (snd (stubbornLoop threshold tabIds table)) ->
  In t tabIds' ->
  In t (snd (stubbornLoop threshold tabIds'
               (tableAfterTicks threshold between
                  (fst (stubbornLoop threshold tabIds table))))).
Proof.
  intros Hforced Hpending.
  apply stubbornLoop_ripe_kept; [|exact Hpending].
  apply tableAfterTicks_ripe. now apply stubbornLoop_forced_ripe.
Qed.

Lemma fallback_association_repeats_witness :
  In 7 (snd (stubbornLoop ASSOCIATE_STUBBORN_TAB_FALLBACK_THRESHOLD_ITERATIONS
               [7; 8] {[ 7 := 14 ]}))
  /\ In 7 [9; 7]
  /\ In 7 (snd (stubbornLoop ASSOCIATE_STUBBORN_TAB_FALLBACK_THRESHOLD_ITERATIONS [9; 7]
                  (tableAfterTicks ASSOCIATE_STUBBORN_TAB_FALLBACK_THRESHOLD_ITERATIONS
                     [[8]; [7; 9]]
                     (fst (stubbornLoop ASSOCIATE_STUBBORN_TAB_FALLBACK_THRESHOLD_ITERATIONS
                             [7; 8] {[ 7 := 14 ]}))))).
Proof.
  assert (A : In 7 (snd (stubbornLoop ASSOCIATE_STUBBORN_TAB_FALLBACK_THRESHOLD_ITERATIONS
                           [7; 8] {[ 7 := 14 ]}))) by (vm_compute; now left).
  assert (B : In 7 [9; 7]) by (right; now left).
  split; [exact A | split; [exact B|]].
  exact (fallback_association_repeats _ 7 [7; 8] [[8]; [7; 9]] [9; 7] {[ 7 := 14 ]} A B).
Defined.

(* ===================================================================== *)
(** * Properties of the container association *)
(* ===================================================================== *)

Lemma NoDup_map_injective {A B} (f : A -> B) (l : list A) (x y : A) :
  List.NoDup (map f l) -> In x l -> In y l -> f x = f y -> x = y.
Proof.
  induction l as [|a l IH]; simpl; [intros _ []|].
  intros Hnd Hx Hy Hf. inversion Hnd as [|? ? Hn Hl]; subst.
  destruct Hx as [<-|Hx], Hy as [<-|Hy].
  - reflexivity.
  - exfalso. apply Hn. rewrite Hf. now apply in_map.
  - exfalso. apply Hn. rewrite <- Hf. now apply in_map.
  - now apply IH.
Qed.

Lemma NoDup_snoc {A} (l : list A) (x : A) :
  List.NoDup l -> ~ In x l -> List.NoDup (l ++ [x]).
Proof.
  intros Hnd Hx. apply List.NoDup_app; [assumption | |].
  - constructor; [intros [] | constructor].
  - intros a Ha [<- | []]. contradiction.
Qed.

Lemma combine_snoc {A B} (l : list A) (l' : list B) (x : A) (y : B) :
  length l = length l' -> combine (l ++ [x]) (l' ++ [y]) = combine l l' ++ [(x, y)].
Proof.
  revert l'. induction l as [|a l IH]; intros [|b l'] Hlen; simpl in *; try discriminate.
  - reflexivity.
  - f_equal. apply IH. now injection Hlen.
Qed.

Lemma existsb_Zeqb_false (x : Z) (l : list Z) : existsb (Z.eqb x) l = false -> ~ In x l.
Proof.
  intros E Hin. assert (T : existsb (Z.eqb x) l = true).
  { apply existsb_exists. exists x. split; [exact Hin | apply Z.eqb_refl]. }
  congruence.
Qed.

Lemma existsb_Seqb_false (x : string) (l : list string) :
  existsb (String.eqb x) l = false -> ~ In x l.
Proof.
  intros E Hin. assert (T : existsb (String.eqb x) l = true).
  { apply existsb_exists. exists x. split; [exact Hin | apply String.eqb_refl]. }
  congruence.
Qed.

Lemma windowTabCounts_spec (tabs : list Tab.t) (w : Z) :
  WindowAssociation.windowTabCounts tabs !! w
  = if countTabs tabs w =? 0 then None else Some (countTabs tabs w).
Proof.
  unfold WindowAssociation.windowTabCounts, countTabs.
  rewrite <- fold_left_rev_right, rev_involutive.
  induction tabs as [|t tabs IH]; simpl; [apply lookup_empty|].
  destruct (Z.eqb_spec (Tab.windowId t) w) as [->|Hne].
  - rewrite lookup_insert_eq, IH. simpl length.
    set (len := length (List.filter (fun t0 => Tab.windowId t0 =? w) tabs)).
    replace (Z.of_nat (S len)) with (Z.of_nat len + 1) by lia.
    destruct (Z.eqb_spec (Z.of_nat len + 1) 0) as [E|_]; [lia|].
    destruct (Z.eqb_spec (Z.of_nat len) 0) as [E|E]; simpl.
    + rewrite E. reflexivity.
    + destruct (Z.eqb_spec (Z.of_nat len) 0); [contradiction | reflexivity].
  - rewrite lookup_insert_ne by assumption. exact IH.
Qed.

Section PairInvariant.
Context `{Host}.
Variables (requireChildrenCountMatch prohibitMergingWindows : bool).
Variables (tabs : list Tab.t) (tally : WindowAssociation.Tally).

Lemma pairInvariant_restoreWindow (l : WindowAssociation.Loop) (win : string) (windowId : Z)
    (t : Tree) (merges : list (string * string)) :
  pairInvariant requireChildrenCountMatch prohibitMergingWindows tabs tally l ->
  existsb (Z.eqb windowId) (WindowAssociation.usedWindowIds l) = false ->
  existsb (String.eqb win) (WindowAssociation.usedWindowNodes l) = false ->
  (requireChildrenCountMatch = true ->
   WindowAssociation.winNodePageCounts tally !! win
   = WindowAssociation.windowTabCounts tabs !! windowId) ->
  (prohibitMergingWindows = true -> merges = []) ->
  pairInvariant requireChildrenCountMatch prohibitMergingWindows tabs tally (WindowAssociation.restoreWindow win windowId l t merges).
Proof.
  intros (I1 & I2 & I3 & I4 & I5) Hid Hwin Hcount Hmerge.
  unfold pairInvariant, WindowAssociation.restoreWindow, assigned. simpl.
  split; [apply NoDup_snoc; [assumption | now apply existsb_Zeqb_false]|].
  split; [apply NoDup_snoc; [assumption | now apply existsb_Seqb_false]|].
  split; [rewrite !length_app; simpl; lia|].
  split; [|exact Hmerge].
  intros Hreq w i. rewrite combine_snoc by assumption. rewrite in_app_iff. simpl.
  intros [Hin | [E | []]]; [now apply I4|].
  injection E as <- <-. now apply Hcount.
Qed.

Lemma pairInvariant_associatePair (l : WindowAssociation.Loop) (pair : WindowAssociation.Pair) :
  pairInvariant requireChildrenCountMatch prohibitMergingWindows tabs tally l ->
  pairInvariant requireChildrenCountMatch prohibitMergingWindows tabs tally (WindowAssociation.associatePair requireChildrenCountMatch
                   prohibitMergingWindows tabs tally l pair).
Proof.
  intros Hinv. destruct pair as [win windowId]. unfold WindowAssociation.associatePair.
  destruct (existsb (Z.eqb windowId) (WindowAssociation.usedWindowIds l)) eqn:E1;
    [exact Hinv|].
  destruct (existsb (String.eqb win) (WindowAssociation.usedWindowNodes l)) eqn:E2;
    [exact Hinv|].
  cbn [orb].
  destruct (requireChildrenCountMatch
            && negb (Js.looseEq (WindowAssociation.winNodePageCounts tally !! win)
                       (WindowAssociation.windowTabCounts tabs !! windowId))) eqn:E3;
    [exact Hinv|].
  assert (Hcount : requireChildrenCountMatch = true ->
                   WindowAssociation.winNodePageCounts tally !! win
                   = WindowAssociation.windowTabCounts tabs !! windowId).
  { intros Hreq. rewrite Hreq in E3. cbn [andb] in E3.
    apply negb_false_iff in E3. now apply looseEq_spec. }
  destruct (DataTree.getNodeByChromeId (WindowAssociation.loopTree l) windowId)
    as [existingWinNode|].
  - destruct (negb prohibitMergingWindows) eqn:Ep; [|exact Hinv].
    destruct (DataTree.getNodeById (WindowAssociation.loopTree l) win); [|exact Hinv].
    apply pairInvariant_restoreWindow; try assumption.
    intros Hp. rewrite Hp in Ep. discriminate.
  - apply pairInvariant_restoreWindow; try assumption.
    intros Hp. destruct Hinv as (_ & _ & _ & _ & I5). now apply I5.
Qed.

Lemma pairInvariant_fold (pairs : list WindowAssociation.Pair) : forall l,
  pairInvariant requireChildrenCountMatch prohibitMergingWindows tabs tally l ->
  pairInvariant requireChildrenCountMatch prohibitMergingWindows tabs tally (fold_left (WindowAssociation.associatePair requireChildrenCountMatch
                              prohibitMergingWindows tabs tally) pairs l).
Proof.
  induction pairs as [|p ps IH]; intros l Hinv; simpl; [exact Hinv|].
  apply IH. now apply pairInvariant_associatePair.
Qed.

End PairInvariant.

Lemma pairInvariant_initial `{Host} (rc pm : bool) (tabs : list Tab.t)
    (tally : WindowAssociation.Tally) (t : Tree) :
  pairInvariant rc pm tabs tally (WindowAssociation.mkLoop t [] [] []).
Proof.
  unfold pairInvariant, assigned. simpl.
  repeat split; try constructor. intros _ win windowId [].
Qed.

(** X17.  A pass of [associateWindowstoWindowNodes] assigns one-to-one: no
    live window id is given to two window nodes and no window node is
    given two live window ids. *)
Theorem associateWindows_assigns_one_to_one `{Host}
    (requireChildrenCountMatch prohibitMergingWindows : bool)
    (tabs : list Tab.t) (t : Tree) (l : WindowAssociation.Loop) :
  WindowAssociation.associateWindowstoWindowNodesLoop
    requireChildrenCountMatch prohibitMergingWindows tabs t = Some l ->
  List.NoDup (WindowAssociation.usedWindowIds l)
  /\ List.NoDup (WindowAssociation.usedWindowNodes l)
  /\ length (WindowAssociation.usedWindowNodes l) = length (WindowAssociation.usedWindowIds l).
Proof.
  unfold WindowAssociation.associateWindowstoWindowNodesLoop.
  destruct (DataTree.filter t WindowAssociation.isRestorableWindow None).
  - intros [= <-]. simpl. repeat split; constructor.
  - destruct (WindowAssociation.tallyWindows t tabs) as [tally|]; [|discriminate].
    intros [= <-].
    pose proof (pairInvariant_fold requireChildrenCountMatch prohibitMergingWindows tabs tally
                  (map snd (WindowAssociation.processingOrder (WindowAssociation.counts tally)))
                  _ (pairInvariant_initial _ _ tabs tally t)) as (I1 & I2 & I3 & _).
    now repeat split.
Qed.

Lemma associateWindows_assigns_one_to_one_witness :
  exists l,
    WindowAssociation.associateWindowstoWindowNodesLoop false false Ex.scoreTabs Ex.scoreTree
    = Some l
    /\ List.NoDup (WindowAssociation.usedWindowIds l)
    /\ List.NoDup (WindowAssociation.usedWindowNodes l)
    /\ length (WindowAssociation.usedWindowNodes l)
       = length (WindowAssociation.usedWindowIds l).
Proof.
  destruct (WindowAssociation.associateWindowstoWindowNodesLoop false false
              Ex.scoreTabs Ex.scoreTree) as [l|] eqn:E; [|vm_compute in E; discriminate].
  exists l. split; [reflexivity|].
  exact (associateWindows_assigns_one_to_one false false Ex.scoreTabs Ex.scoreTree l E).
Defined.

(** X18.  The two flags of [associateWindowstoWindowNodes] are obeyed by
    every assignment of a pass: with [requireChildrenCountMatch] the page
    count tallied for an assigned window node equals the number of live
    tabs of the window it is given, and with [prohibitMergingWindows] no
    two window nodes are merged. *)
Theorem associateWindows_obeys_flags `{Host}
    (requireChildrenCountMatch prohibitMergingWindows : bool)
    (tabs : list Tab.t) (t : Tree) (l : WindowAssociation.Loop)
    (tally : WindowAssociation.Tally) :
  WindowAssociation.associateWindowstoWindowNodesLoop
    requireChildrenCountMatch prohibitMergingWindows tabs t = Some l ->
  WindowAssociation.tallyWindows t tabs = Some tally ->
  (requireChildrenCountMatch = true ->
   forall win windowId, In (win, windowId) (assigned l) ->
     WindowAssociation.winNodePageCounts tally !! win
     = if countTabs tabs windowId =? 0 then None else Some (countTabs tabs windowId))
  /\ (prohibitMergingWindows = true -> WindowAssociation.merged l = []).
Proof.
  unfold WindowAssociation.associateWindowstoWindowNodesLoop. intros Hl Ht.
  destruct (DataTree.filter t WindowAssociation.isRestorableWindow None).
  - injection Hl as <-. split; [intros _ win windowId [] | reflexivity].
  - rewrite Ht in Hl. injection Hl as <-.
    pose proof (pairInvariant_fold requireChildrenCountMatch prohibitMergingWindows tabs tally
                  (map snd (WindowAssociation.processingOrder (WindowAssociation.counts tally)))
                  _ (pairInvariant_initial _ _ tabs tally t)) as (_ & _ & _ & I4 & I5).
    split; [|exact I5].
    intros Hreq win windowId Hin. rewrite <- windowTabCounts_spec. now apply I4.
Qed.

Lemma associateWindows_obeys_flags_witness :
  exists l tally,
    WindowAssociation.associateWindowstoWindowNodesLoop true true Ex.placedTabs Ex.placedTree
    = Some l
    /\ WindowAssociation.tallyWindows Ex.placedTree Ex.placedTabs = Some tally
    /\ assigned l = [("wa", 7)]
    /\ (forall win windowId, In (win, windowId) (assigned l) ->
          WindowAssociation.winNodePageCounts tally !! win
          = if countTabs Ex.placedTabs windowId =? 0 then None
            else Some (countTabs Ex.placedTabs windowId))
    /\ WindowAssociation.merged l = [].
Proof.
  destruct (WindowAssociation.associateWindowstoWindowNodesLoop true true
              Ex.placedTabs Ex.placedTree) as [l|] eqn:E; [|vm_compute in E; discriminate].
  destruct (WindowAssociation.tallyWindows Ex.placedTree Ex.placedTabs) as [tally|] eqn:T;
    [|vm_compute in T; discriminate].
  exists l, tally. split; [reflexivity | split; [reflexivity|]].
  destruct (associateWindows_obeys_flags true true Ex.placedTabs Ex.placedTree l tally E T)
    as [Hcount Hmerge].
  split; [vm_compute in E; injection E as <-; reflexivity|].
  split; [exact (Hcount eq_refl) | exact (Hmerge eq_refl)].
Defined.

(* ===================================================================== *)
(** * What the reconciler stages leave alone *)
(* ===================================================================== *)

Section Unchanged.
Variable f : NodeData -> NodeData.

Lemma mapData_updateNodeIn (target : string) (details : list Detail) (n : Node) :
  (forall d, f (applyDetails details d) = f d) ->
  mapData f (DataTree.updateNodeIn target details n) = mapData f n.
Proof.
  intros Hf. induction n as [d cs IH] using Node_ind_nested. simpl.
  f_equal.
  - destruct (String.eqb (id d) target); [apply Hf | reflexivity].
  - rewrite map_map. induction IH as [|c cs' Hc Hcs IHcs]; simpl; [reflexivity|].
    now rewrite Hc, IHcs.
Qed.

Lemma mapData_updateNode (target : string) (details : list Detail) (t : Tree) :
  (forall d, f (applyDetails details d) = f d) ->
  map (mapData f) (DataTree.updateNode target details t) = map (mapData f) t.
Proof.
  intros Hf. unfold DataTree.updateNode. rewrite map_map.
  apply map_ext. intros n. now apply mapData_updateNodeIn.
Qed.

End Unchanged.

Lemma withoutBinding_chromeId v d : withoutBinding (applyDetails [set_chromeId v] d) = withoutBinding d.
Proof. reflexivity. Qed.
Lemma withoutBinding_windowId v d : withoutBinding (applyDetails [set_windowId v] d) = withoutBinding d.
Proof. reflexivity. Qed.
Lemma withoutBinding_index v d : withoutBinding (applyDetails [set_index v] d) = withoutBinding d.
Proof. reflexivity. Qed.

Lemma swapNodes_unchanged (item other : string) (t : Tree) :
  map (mapData withoutBinding) (Disambiguator.swapNodes item other t)
  = map (mapData withoutBinding) t.
Proof.
  unfold Disambiguator.swapNodes. cbv zeta.
  rewrite !mapData_updateNode;
    auto using withoutBinding_chromeId, withoutBinding_windowId, withoutBinding_index.
Qed.

Lemma disambiguateItem_unchanged (items : list string) (r : Disambiguator.Round) (item : string) :
  map (mapData withoutBinding) (Disambiguator.roundTree (Disambiguator.disambiguateItem items r item))
  = map (mapData withoutBinding) (Disambiguator.roundTree r).
Proof.
  unfold Disambiguator.disambiguateItem. cbv zeta.
  destruct (Js.looseEq _ _); [reflexivity|].
  destruct (Disambiguator.findSwapWith _ _ _); simpl; [apply swapNodes_unchanged | reflexivity].
Qed.

Lemma disambiguateGroup_unchanged (iterations : Z) (group : string * list string)
    (r r' : Disambiguator.Round) :
  Disambiguator.disambiguateGroup iterations (Some r) group = Some r' ->
  map (mapData withoutBinding) (Disambiguator.roundTree r')
  = map (mapData withoutBinding) (Disambiguator.roundTree r).
Proof.
  unfold Disambiguator.disambiguateGroup. cbv zeta.
  destruct (length (snd group) <? 2)%nat; [now intros [= <-]|].
  generalize (seq 0 (length (snd group))). intros l. revert r.
  induction l as [|i l IH]; intros r; simpl; [now intros [= <-]|].
  destruct (Disambiguator.itemAt (snd group) iterations (Z.of_nat i)) as [item|].
  - intros E. rewrite (IH _ E). apply disambiguateItem_unchanged.
  - intros E. exfalso. clear -E. induction l as [|j l IHl]; simpl in E; [discriminate | auto].
Qed.

Lemma disambiguateGroups_none (iterations : Z) (groups : list (string * list string)) :
  fold_left (Disambiguator.disambiguateGroup iterations) groups None = None.
Proof.
  induction groups as [|g gs IH]; simpl; [reflexivity|].
  unfold Disambiguator.disambiguateGroup at 2. cbv zeta.
  destruct (length (snd g) <? 2)%nat; [exact IH|].
  assert (E : forall l, fold_left (fun acc i =>
                 match acc with
                 | None => None
                 | Some r =>
                     match Disambiguator.itemAt (snd g) iterations (Z.of_nat i) with
                     | None => None
                     | Some item => Some (Disambiguator.disambiguateItem (snd g) r item)
                     end
                 end) l None = None).
  { induction l; simpl; auto. }
  rewrite E. exact IH.
Qed.

Lemma disambiguateGroups_unchanged (iterations : Z) (groups : list (string * list string)) :
  forall r0 r,
    fold_left (Disambiguator.disambiguateGroup iterations) groups (Some r0) = Some r ->
    map (mapData withoutBinding) (Disambiguator.roundTree r)
    = map (mapData withoutBinding) (Disambiguator.roundTree r0).
Proof.
  induction groups as [|g gs IH]; intros r0 r; simpl; [now intros [= <-]|].
  destruct (Disambiguator.disambiguateGroup iterations (Some r0) g) as [r1|] eqn:E.
  - intros E'. rewrite (IH _ _ E'). now apply (disambiguateGroup_unchanged iterations g).
  - rewrite disambiguateGroups_none. discriminate.
Qed.

Lemma disambiguateRound_unchanged (iterations : Z) (t : Tree) (r : Disambiguator.Round) :
  Disambiguator.disambiguateRound iterations t = Some r ->
  map (mapData withoutBinding) (Disambiguator.roundTree r) = map (mapData withoutBinding) t.
Proof.
  unfold Disambiguator.disambiguateRound. intros E.
  now rewrite (disambiguateGroups_unchanged iterations _ _ _ E).
Qed.

Lemma disambiguateFrom_unchanged (iterations : Z) (t : Tree) (o : Disambiguator.Outcome) :
  Disambiguator.disambiguateFrom iterations t = Some o ->
  map (mapData withoutBinding) (Disambiguator.finalTree o) = map (mapData withoutBinding) t.
Proof.
  revert o. funelim (Disambiguator.disambiguateFrom iterations t); intros o Ho.
  - discriminate.
  - destruct (Disambiguator.disambiguateFrom (iterations - 1) (Disambiguator.roundTree r))
      as [o'|] eqn:Erec; simpl in Ho; [|discriminate].
    injection Ho as <-. simpl. rewrite (H o' eq_refl).
    now apply (disambiguateRound_unchanged iterations).
  - injection Ho as <-. simpl. now apply (disambiguateRound_unchanged iterations).
Qed.

(** X19.  [disambiguatePageNodesByWindowId] changes nothing but bindings:
    the tree keeps its structure, no node is added, removed or moved, and
    every node keeps all its attributes other than container id, live id
    and position. *)
Theorem disambiguate_changes_bindings_only (iterations : option Z) (t : Tree)
    (o : Disambiguator.Outcome) :
  Disambiguator.disambiguatePageNodesByWindowId iterations t = Some o ->
  map (mapData withoutBinding) (Disambiguator.finalTree o) = map (mapData withoutBinding) t.
Proof. apply disambiguateFrom_unchanged. Qed.

Lemma disambiguate_changes_bindings_only_witness :
  exists o,
    Disambiguator.disambiguatePageNodesByWindowId None Ex.swapTree = Some o
    /\ map (mapData withoutBinding) (Disambiguator.finalTree o)
       = map (mapData withoutBinding) Ex.swapTree.
Proof.
  destruct (Disambiguator.disambiguatePageNodesByWindowId None Ex.swapTree) as [o|] eqn:E;
    [|vm_compute in E; discriminate].
  exists o. split; [reflexivity|].
  exact (disambiguate_changes_bindings_only None Ex.swapTree o E).
Defined.

(** ** [swapPageNodesByIndex] *)

Section SwapByIndexProps.
Variable getTabIndex : Tree -> string -> option Z.



End SwapByIndexProps.


(** ** Container association without merging *)

Lemma mapData_ext (f g : NodeData -> NodeData) (n : Node) :
  (forall d, f d = g d) -> mapData f n = mapData g n.
Proof.
  intros E. induction n as [d cs IH] using Node_ind_nested. simpl. rewrite E. f_equal.
  induction IH as [|c cs' Hc _ IHcs]; simpl; [reflexivity | now rewrite Hc, IHcs].
Qed.

Lemma mapData_mapData (f g : NodeData -> NodeData) (n : Node) :
  mapData f (mapData g n) = mapData (fun d => f (g d)) n.
Proof.
  induction n as [d cs IH] using Node_ind_nested. simpl. f_equal.
  rewrite map_map.
  induction IH as [|c cs' Hc _ IHcs]; simpl; [reflexivity | now rewrite Hc, IHcs].
Qed.

Lemma updateNodeIn_mapData (target : string) (details : list Detail) (n : Node) :
  DataTree.updateNodeIn target details n = mapData (patched target details) n.
Proof.
  induction n as [d cs IH] using Node_ind_nested. simpl. f_equal.
  induction IH as [|c cs' Hc _ IHcs]; simpl; [reflexivity | now rewrite Hc, IHcs].
Qed.

Lemma find_snoc_fst (pairs : list (string * Z)) (win : string) (windowId : Z) (i : string) :
  List.find (fun p => String.eqb (fst p) i) (pairs ++ [(win, windowId)])
  = match List.find (fun p => String.eqb (fst p) i) pairs with
    | Some p => Some p
    | None => if String.eqb win i then Some (win, windowId) else None
    end.
Proof.
  induction pairs as [|p ps IH]; simpl; [reflexivity|].
  destruct (String.eqb (fst p) i); [reflexivity | exact IH].
Qed.

Lemma find_fst_None (pairs : list (string * Z)) (i : string) :
  ~ In i (map fst pairs) -> List.find (fun p => String.eqb (fst p) i) pairs = None.
Proof.
  induction pairs as [|p ps IH]; simpl; intros Hn; [reflexivity|].
  destruct (String.eqb_spec (fst p) i) as [E|_]; [exfalso; apply Hn; now left|].
  apply IH. intros Hin. apply Hn. now right.
Qed.

Section NoMerging.
Context `{Host}.
Variables (requireChildrenCountMatch : bool) (tabs : list Tab.t)
          (tally : WindowAssociation.Tally) (t : Tree).

Lemma afterRestoring_id (pairs : list (string * Z)) (d : NodeData) :
  id (afterRestoring pairs d) = id d.
Proof.
  unfold afterRestoring. destruct (List.find _ pairs); [apply applyDetails_id | reflexivity].
Qed.

(** Restoring one more window node, which was not restored before. *)
Lemma afterRestoring_snoc (pairs : list (string * Z)) (win : string) (windowId : Z)
    (d : NodeData) :
  ~ In win (map fst pairs) ->
  patched win [set_collapsed false]
    (patched win [set_restorable false; set_hibernated false; set_chromeId (Some windowId);
                  set_title WINDOW_DEFAULT_TITLE]
       (afterRestoring pairs d))
  = afterRestoring (pairs ++ [(win, windowId)]) d.
Proof.
  intros Hfresh.
  assert (Hin : patched win [set_restorable false; set_hibernated false;
                             set_chromeId (Some windowId); set_title WINDOW_DEFAULT_TITLE]
                  (afterRestoring pairs d)
                = if String.eqb (id d) win
                  then applyDetails [set_restorable false; set_hibernated false;
                                     set_chromeId (Some windowId);
                                     set_title WINDOW_DEFAULT_TITLE] (afterRestoring pairs d)
                  else afterRestoring pairs d).
  { unfold patched. now rewrite afterRestoring_id. }
  rewrite Hin. clear Hin.
  unfold afterRestoring at 3. rewrite find_snoc_fst.
  destruct (String.eqb_spec (id d) win) as [E|N].
  - unfold patched. rewrite applyDetails_id, afterRestoring_id, E, !String.eqb_refl.
    unfold afterRestoring. rewrite E, (find_fst_None pairs win Hfresh).
    reflexivity.
  - unfold patched. rewrite afterRestoring_id.
    destruct (String.eqb_spec (id d) win) as [E|_]; [contradiction|].
    destruct (String.eqb_spec win (id d)) as [E|_]; [now subst|].
    unfold afterRestoring. now destruct (List.find _ pairs).
Qed.

Lemma restoredInPlace_associatePair (candidates : list WindowAssociation.Pair)
    (l : WindowAssociation.Loop) (pair : WindowAssociation.Pair) :
  In pair candidates ->
  restoredInPlace t candidates l ->
  restoredInPlace t candidates
    (WindowAssociation.associatePair requireChildrenCountMatch true tabs tally l pair).
Proof.
  intros Hc (I1 & I2 & I3). destruct pair as [win windowId].
  unfold WindowAssociation.associatePair.
  destruct (existsb (Z.eqb windowId) (WindowAssociation.usedWindowIds l)) eqn:Eid;
    [repeat split; assumption|].
  destruct (existsb (String.eqb win) (WindowAssociation.usedWindowNodes l)) eqn:Ewin;
    [repeat split; assumption|].
  simpl. destruct (requireChildrenCountMatch && _); [repeat split; assumption|].
  destruct (DataTree.getNodeByChromeId _ _); [repeat split; assumption|].
  unfold WindowAssociation.restoreWindow, restoredInPlace, assigned. simpl.
  rewrite combine_snoc by assumption.
  split; [|split].
  - unfold expandNode, DataTree.updateNode. rewrite I1, !map_map.
    apply map_ext. intros n. rewrite !updateNodeIn_mapData, !mapData_mapData.
    apply mapData_ext. intros d. apply afterRestoring_snoc.
    apply existsb_Seqb_false in Ewin. intros Hin. apply Ewin.
    unfold assigned in Hin. apply in_map_iff in Hin as ([w i] & <- & Hin).
    now apply in_combine_l in Hin.
  - rewrite !length_app. simpl. lia.
  - intros p. rewrite in_app_iff. intros [Hin | [<- | []]]; [now apply I3 | exact Hc].
Qed.

Lemma restoredInPlace_fold (candidates pairs : list WindowAssociation.Pair) : forall l,
  (forall p, In p pairs -> In p candidates) ->
  restoredInPlace t candidates l ->
  restoredInPlace t candidates
    (fold_left (WindowAssociation.associatePair requireChildrenCountMatch true tabs tally)
               pairs l).
Proof.
  induction pairs as [|p ps IH]; intros l Hsub I; simpl; [exact I|].
  apply IH; [intros q Hq; apply Hsub; now right|].
  apply restoredInPlace_associatePair; [apply Hsub; now left | exact I].
Qed.

End NoMerging.

Lemma mapData_id (n : Node) : mapData (fun d => d) n = n.
Proof.
  induction n as [d cs IH] using Node_ind_nested. simpl. f_equal.
  induction IH as [|c cs' Hc _ IHcs]; simpl; [reflexivity | now rewrite Hc, IHcs].
Qed.

Lemma restoring_nothing `{Host} (t : Tree) : map (mapData (afterRestoring [])) t = t.
Proof.
  transitivity (map (fun n : Node => n) t); [|apply map_id].
  apply map_ext. intros n.
  transitivity (mapData (fun d => d) n); [now apply mapData_ext | apply mapData_id].
Qed.

(** The pairings of the tally are pairings of restorable window nodes. *)
Lemma processingOrder_In (counts : list (WindowAssociation.Score * list WindowAssociation.Pair))
    (p : WindowAssociation.Pair) :
  In p (map snd (WindowAssociation.processingOrder counts)) ->
  exists e, In e counts /\ In p (snd e).
Proof.
  unfold WindowAssociation.processingOrder. cbv zeta.
  intros Hin. apply in_map_iff in Hin as ([s q] & <- & Hin).
  apply in_flat_map in Hin as (c & _ & Hin).
  apply in_map_iff in Hin as (q' & [= _ <-] & Hin).
  apply in_rev in Hin. unfold WindowAssociation.lookupCount in Hin.
  match type of Hin with
  | context [List.find ?f counts] => destruct (List.find f counts) as [e|] eqn:E
  end; [|destruct Hin].
  apply find_some in E as [E _]. now exists e.
Qed.

Lemma countsPush_In (count : WindowAssociation.Score) (pair p : WindowAssociation.Pair)
    (counts : list (WindowAssociation.Score * list WindowAssociation.Pair))
    (e : WindowAssociation.Score * list WindowAssociation.Pair) :
  In e (WindowAssociation.countsPush count pair counts) -> In p (snd e) ->
  p = pair \/ exists e', In e' counts /\ In p (snd e').
Proof.
  induction counts as [|[c ps] r IH]; simpl.
  - intros [<-|[]]. simpl. intros [<-|[]]. now left.
  - destruct (String.eqb _ _); simpl.
    + intros [<-|Hin] Hp.
      * simpl in Hp. apply in_app_iff in Hp as [Hp | [<-|[]]]; [|now left].
        right. exists (c, ps). split; [now left | exact Hp].
      * right. exists e. split; [now right | exact Hp].
    + intros [<-|Hin] Hp.
      * right. exists (c, ps). split; [now left | exact Hp].
      * destruct (IH Hin Hp) as [-> | (e' & He' & Hp')]; [now left|].
        right. exists e'. split; [now right | exact Hp'].
Qed.

Lemma tallyWindows_pairs (tabs : list Tab.t) (wins : list Node) :
  forall tally tally' e p,
    fold_left (WindowAssociation.tallyWindow tabs) wins (Some tally) = Some tally' ->
    In e (WindowAssociation.counts tally') -> In p (snd e) ->
    (exists e', In e' (WindowAssociation.counts tally) /\ In p (snd e'))
    \/ exists win, In win wins /\ fst p = id (data win).
Proof.
  assert (Hnone : forall l, fold_left (WindowAssociation.tallyWindow tabs) l None = None)
    by (induction l as [|x l IHl]; [reflexivity | exact IHl]).
  induction wins as [|win wins IH]; intros tally tally' e p; simpl.
  - intros [= <-] He Hp. left. now exists e.
  - destruct (WindowAssociation.scoreWindow tabs win) as [[groups pageCount]|];
      [|rewrite Hnone; discriminate].
    intros Hf He Hp.
    destruct (IH _ _ _ _ Hf He Hp) as [(e' & He' & Hp') | (w & Hw & E)];
      [|right; exists w; split; [now right | exact E]].
    simpl in He'. clear Hf He Hp IH.
    revert e' He' Hp'. generalize (WindowAssociation.counts tally).
    induction groups as [|g gs IHg]; intros cs e' He' Hp'; simpl in He'.
    + left. now exists e'.
    + destruct (IHg _ _ He' Hp') as [(e'' & He'' & Hp'') | R]; [|now right].
      destruct (countsPush_In _ _ _ _ _ He'' Hp'') as [-> | L]; [|now left].
      right. exists win. split; [now left | reflexivity].
Qed.

(** X21.  With merging prohibited, a pass of
    [associateWindowstoWindowNodes] only restores window nodes in place.
    The tree after the pass is the tree before it in which the window
    nodes the pass has assigned carry the attributes of a restored window
    (not restorable, not hibernated, the live id of the window assigned
    to them, the default title, expanded): the structure is kept and every
    other node keeps all its attributes.  Every node assigned is a
    restorable window node of the tree, so that on a tree whose ids are
    distinct every node that is not a restorable window node, page nodes
    among them, is left as it was. *)
Theorem associateWindows_without_merging_keeps_structure `{Host}
    (requireChildrenCountMatch : bool) (tabs : list Tab.t) (t : Tree)
    (l : WindowAssociation.Loop) :
  WindowAssociation.associateWindowstoWindowNodesLoop requireChildrenCountMatch true tabs t
  = Some l ->
  WindowAssociation.loopTree l = map (mapData (afterRestoring (assigned l))) t
  /\ (forall win windowId, In (win, windowId) (assigned l) ->
       exists n, In n (DataTree.nodes t) /\ id (data n) = win
                 /\ WindowAssociation.isRestorableWindow n = true)
  /\ (List.NoDup (nodeIds t) ->
      forall n, In n (DataTree.nodes t) -> WindowAssociation.isRestorableWindow n = false ->
                afterRestoring (assigned l) (data n) = data n).
Proof.
  intros Hl.
  assert (Hmain :
    WindowAssociation.loopTree l = map (mapData (afterRestoring (assigned l))) t
    /\ (forall win windowId, In (win, windowId) (assigned l) ->
         exists n, In n (DataTree.nodes t) /\ id (data n) = win
                   /\ WindowAssociation.isRestorableWindow n = true));
    [|destruct Hmain as [M1 M2]; split; [exact M1|]; split; [exact M2|];
      intros Hnd n Hn Hr; unfold afterRestoring;
      destruct (List.find _ (assigned l)) as [[win windowId]|] eqn:Ef; [|reflexivity];
      exfalso; apply find_some in Ef as [Hin E]; simpl in E; apply String.eqb_eq in E;
      destruct (M2 win windowId Hin) as (n' & Hn' & Hid & Hr');
      assert (n' = n)
        by (apply (NoDup_map_injective (fun x => id (data x)) (DataTree.nodes t));
            [exact Hnd | exact Hn' | exact Hn | congruence]);
      subst n'; congruence].
  revert Hl.
  unfold WindowAssociation.associateWindowstoWindowNodesLoop.
  destruct (DataTree.filter t WindowAssociation.isRestorableWindow None) as [|w ws] eqn:Ew.
  - intros [= <-]. split; [|intros win windowId []].
    simpl. symmetry. apply restoring_nothing.
  - destruct (WindowAssociation.tallyWindows t tabs) as [tally|] eqn:Et; [|discriminate].
    intros [= <-].
    destruct (restoredInPlace_fold requireChildrenCountMatch tabs tally t
                (map snd (WindowAssociation.processingOrder (WindowAssociation.counts tally)))
                (map snd (WindowAssociation.processingOrder (WindowAssociation.counts tally)))
                (WindowAssociation.mkLoop t [] [] []) (fun p Hp => Hp))
      as (I1 & _ & I3).
    { split; [|split; [reflexivity | intros p []]].
      simpl. symmetry. apply restoring_nothing. }
    split; [exact I1|].
    intros win windowId Hin. apply I3 in Hin.
    apply processingOrder_In in Hin as (e & He & Hp).
    unfold WindowAssociation.tallyWindows in Et.
    destruct (tallyWindows_pairs tabs _ _ _ e (win, windowId) Et He Hp)
      as [(e' & [] & _) | (n & Hn & E)].
    apply in_rev in Hn. unfold DataTree.filter in Hn. apply filter_In in Hn as [Hn Hr].
    exists n. split; [exact Hn|]. split; [now symmetry | exact Hr].
Qed.

Lemma associateWindows_without_merging_keeps_structure_witness :
  exists l,
    WindowAssociation.associateWindowstoWindowNodesLoop true true Ex.placedTabs Ex.placedTree
    = Some l
    /\ assigned l = [("wa", 7)]
    /\ WindowAssociation.loopTree l
       = map (mapData (afterRestoring (assigned l))) Ex.placedTree
    /\ (forall win windowId, In (win, windowId) (assigned l) ->
         exists n, In n (DataTree.nodes Ex.placedTree) /\ id (data n) = win
                   /\ WindowAssociation.isRestorableWindow n = true)
    /\ (List.NoDup (nodeIds Ex.placedTree) ->
        forall n, In n (DataTree.nodes Ex.placedTree) ->
                  WindowAssociation.isRestorableWindow n = false ->
                  afterRestoring (assigned l) (data n) = data n).
Proof.
  destruct (WindowAssociation.associateWindowstoWindowNodesLoop true true
              Ex.placedTabs Ex.placedTree) as [l|] eqn:E; [|vm_compute in E; discriminate].
  exists l. split; [reflexivity|].
  pose proof (associateWindows_without_merging_keeps_structure true Ex.placedTabs
                Ex.placedTree l E) as Hkeep.
  split; [vm_compute in E; injection E as <-; reflexivity | exact Hkeep].
Defined.

(* ===================================================================== *)
(** * Disambiguation rearranges bindings *)
(* ===================================================================== *)

Lemma data_nodes_updateNode (target : string) (details : list Detail) (t : Tree) :
  map data (DataTree.nodes (DataTree.updateNode target details t))
  = map (patched target details) (map data (DataTree.nodes t)).
Proof.
  rewrite nodes_updateNode, !map_map. apply map_ext. intros n. apply data_updateNodeIn.
Qed.

Lemma patched_id (target : string) (details : list Detail) (d : NodeData) :
  id (patched target details d) = id d.
Proof. unfold patched. destruct (String.eqb (id d) target); [apply applyDetails_id | reflexivity]. Qed.

Lemma patched_eq (target : string) (details : list Detail) (d : NodeData) :
  id d = target -> patched target details d = applyDetails details d.
Proof. intros <-. unfold patched. now rewrite String.eqb_refl. Qed.

Lemma patched_ne (target : string) (details : list Detail) (d : NodeData) :
  id d <> target -> patched target details d = d.
Proof. intros Hne. unfold patched. now destruct (String.eqb_spec (id d) target). Qed.

Lemma nodeIds_data (t : Tree) : nodeIds t = map id (map data (DataTree.nodes t)).
Proof. unfold nodeIds. now rewrite map_map. Qed.

Lemma bindings_data (t : Tree) : bindings t = map binding (map data (DataTree.nodes t)).
Proof. unfold bindings. now rewrite map_map. Qed.

Lemma dataOf_find (t : Tree) (i : string) :
  dataOf t i = List.find (fun d => String.eqb (id d) i) (map data (DataTree.nodes t)).
Proof.
  unfold dataOf, DataTree.getNodeById, DataTree.getNode.
  induction (DataTree.nodes t) as [|n l IH]; simpl; [reflexivity|].
  destruct (String.eqb (id (data n)) i); [reflexivity | exact IH].
Qed.

Lemma dataOf_In (t : Tree) (i : string) (d : NodeData) :
  dataOf t i = Some d -> In d (map data (DataTree.nodes t)) /\ id d = i.
Proof.
  rewrite dataOf_find. intros E. apply find_some in E as [E1 E2].
  split; [exact E1 | now apply String.eqb_eq].
Qed.

Lemma dataOf_exists (t : Tree) (i : string) :
  In i (nodeIds t) -> exists d, dataOf t i = Some d.
Proof.
  rewrite nodeIds_data, dataOf_find. intros Hin. apply in_map_iff in Hin as [d [<- Hd]].
  destruct (List.find (fun d0 => String.eqb (id d0) (id d)) (map data (DataTree.nodes t)))
    as [d'|] eqn:E; [now exists d'|].
  exfalso. pose proof (find_none _ _ E d Hd) as F. simpl in F.
  rewrite String.eqb_refl in F. discriminate.
Qed.

(** The attributes after a swap of the bindings of [item] and [other]. *)
Lemma swapNodes_data (t : Tree) (item other : string) (di do : NodeData) :
  other <> item ->
  dataOf t item = Some di ->
  dataOf t other = Some do ->
  map data (DataTree.nodes (Disambiguator.swapNodes item other t))
  = map (swapped item other di do) (map data (DataTree.nodes t)).
Proof.
  intros Hne Hi Ho.
  assert (Eoi : String.eqb other item = false) by now apply String.eqb_neq.
  assert (Eio : String.eqb item other = false) by (apply String.eqb_neq; congruence).
  unfold Disambiguator.swapNodes. cbv zeta.
  rewrite !chromeIdOf_dataOf, !windowIdOf_dataOf, !indexOf_dataOf.
  rewrite !dataOf_updateNode.
  rewrite Hi, Ho. simpl.
  rewrite !String.eqb_refl, !Eoi, !Eio. simpl.
  rewrite !data_nodes_updateNode, !map_map. apply map_ext. intros n.
  unfold swapped. generalize (data n). clear n. intros d.
  destruct (String.eqb_spec (id d) item) as [E1|N1].
  - assert (N2 : id d <> other) by congruence.
    repeat first
      [ rewrite patched_eq by (rewrite ?patched_id, ?applyDetails_id; assumption)
      | rewrite patched_ne by (rewrite ?patched_id, ?applyDetails_id; assumption) ].
    now destruct d, do.
  - destruct (String.eqb_spec (id d) other) as [E2|N2].
    + repeat first
        [ rewrite patched_eq by (rewrite ?patched_id, ?applyDetails_id; assumption)
        | rewrite patched_ne by (rewrite ?patched_id, ?applyDetails_id; assumption) ].
      now destruct d, di.
    + repeat first
        [ rewrite patched_eq by (rewrite ?patched_id, ?applyDetails_id; assumption)
        | rewrite patched_ne by (rewrite ?patched_id, ?applyDetails_id; assumption) ].
      reflexivity.
Qed.

Lemma swapped_id (item other : string) (di do d : NodeData) :
  id (swapped item other di do d) = id d.
Proof.
  unfold swapped.
  destruct (String.eqb (id d) item); [now destruct d|].
  destruct (String.eqb (id d) other); [now destruct d | reflexivity].
Qed.

Lemma swapped_other_nodes (item other : string) (di do : NodeData) (l : list NodeData) :
  ~ In item (map id l) -> ~ In other (map id l) ->
  map (swapped item other di do) l = l.
Proof.
  induction l as [|d l IH]; simpl; intros H1 H2; [reflexivity|].
  rewrite IH by tauto. f_equal. unfold swapped.
  destruct (String.eqb_spec (id d) item) as [E|_]; [exfalso; apply H1; now left|].
  destruct (String.eqb_spec (id d) other) as [E|_]; [exfalso; apply H2; now left|].
  reflexivity.
Qed.

Lemma binding_withBindingOf (b a : NodeData) : binding (withBindingOf b a) = binding b.
Proof. now destruct a. Qed.

Lemma swapped_bindings (item other : string) (di do : NodeData) (l : list NodeData) :
  List.NoDup (map id l) ->
  other <> item ->
  In di l -> id di = item ->
  In do l -> id do = other ->
  Permutation (map binding (map (swapped item other di do) l)) (map binding l).
Proof.
  intros Hnd Hne Hdi Ei Hdo Eo.
  apply list_elem_of_In, elem_of_Permutation in Hdi as [k Hk].
  assert (Hdo' : In do k).
  { apply (Permutation_in _ Hk) in Hdo. destruct Hdo as [E|Hin]; [|exact Hin].
    exfalso. apply Hne. now rewrite <- Eo, <- Ei, E. }
  apply list_elem_of_In, elem_of_Permutation in Hdo' as [k' Hk'].
  assert (Hl : Permutation l (di :: do :: k')).
  { rewrite Hk. now constructor. }
  assert (Hnd' : List.NoDup (map id (di :: do :: k'))).
  { eapply Permutation_NoDup; [|exact Hnd]. now apply Permutation_map. }
  simpl in Hnd'. inversion Hnd' as [|? ? Hn1 Hnd1]; subst.
  inversion Hnd1 as [|? ? Hn2 Hnd2]; subst.
  rewrite (Permutation_map binding (Permutation_map (swapped (id di) (id do) di do) Hl)).
  rewrite (Permutation_map binding Hl).
  simpl. rewrite swapped_other_nodes.
  - unfold swapped. rewrite String.eqb_refl.
    destruct (String.eqb_spec (id do) (id di)) as [E|_]; [contradiction|].
    rewrite String.eqb_refl. rewrite !binding_withBindingOf. apply perm_swap.
  - intros Hin. apply Hn1. now right.
  - exact Hn2.
Qed.

Section DisambiguationPermutes.

Lemma rearranged_swapNodes (t0 t : Tree) (item other : string) :
  List.NoDup (nodeIds t0) ->
  rearranged t0 t ->
  other <> item -> In item (nodeIds t0) -> In other (nodeIds t0) ->
  rearranged t0 (Disambiguator.swapNodes item other t).
Proof.
  intros Hnd [Hids Hb] Hne Hi Ho.
  rewrite <- Hids in Hi, Ho, Hnd.
  destruct (dataOf_exists t item Hi) as [di Edi].
  destruct (dataOf_exists t other Ho) as [do Edo].
  destruct (dataOf_In t item di Edi) as [Idi Eidi].
  destruct (dataOf_In t other do Edo) as [Ido Eido].
  split.
  - rewrite <- Hids, !nodeIds_data, (swapNodes_data t item other di do Hne Edi Edo), map_map.
    apply map_ext. intros d. apply swapped_id.
  - rewrite <- Hb, !bindings_data, (swapNodes_data t item other di do Hne Edi Edo).
    apply swapped_bindings; try assumption. now rewrite <- nodeIds_data.
Qed.

Lemma filter_first_member {A} (p : A -> bool) (l : list A) (e : A) (rest : list A) :
  List.filter p l = e :: rest -> p e = true /\ In e l.
Proof.
  intros E. assert (Hin : In e (List.filter p l)) by (rewrite E; now left).
  apply filter_In in Hin. tauto.
Qed.

Lemma findSwapWith_other (t : Tree) (items : list string) (item other : string) :
  Disambiguator.findSwapWith t items item = Some other ->
  other <> item /\ In other items.
Proof.
  unfold Disambiguator.findSwapWith.
  destruct (List.filter (Disambiguator.transposedSameIndex t item) items) eqn:F1.
  2: { intros [= <-]. apply filter_first_member in F1 as [F1 Hin]. split; [|exact Hin].
       unfold Disambiguator.transposedSameIndex in F1.
       repeat (apply andb_prop in F1 as [F1 _]).
       apply negb_true_iff in F1. now apply String.eqb_neq. }
  destruct (List.filter (Disambiguator.transposed t item) items) eqn:F2.
  2: { intros [= <-]. apply filter_first_member in F2 as [F2 Hin]. split; [|exact Hin].
       unfold Disambiguator.transposed in F2.
       repeat (apply andb_prop in F2 as [F2 _]).
       apply negb_true_iff in F2. now apply String.eqb_neq. }
  destruct (List.filter (Disambiguator.inWantedWindow t item) items) eqn:F3.
  2: { intros [= <-]. apply filter_first_member in F3 as [F3 Hin]. split; [|exact Hin].
       unfold Disambiguator.inWantedWindow in F3.
       repeat (apply andb_prop in F3 as [F3 _]).
       apply negb_true_iff in F3. now apply String.eqb_neq. }
  destruct (List.filter (Disambiguator.wantsOurWindow t item) items) eqn:F4.
  2: { intros [= <-]. apply filter_first_member in F4 as [F4 Hin]. split; [|exact Hin].
       unfold Disambiguator.wantsOurWindow in F4.
       repeat (apply andb_prop in F4 as [F4 _]).
       apply negb_true_iff in F4. now apply String.eqb_neq. }
  discriminate.
Qed.

Lemma rearranged_disambiguateItem (t0 : Tree) (items : list string)
    (r : Disambiguator.Round) (item : string) :
  List.NoDup (nodeIds t0) ->
  (forall x, In x items -> In x (nodeIds t0)) ->
  In item items ->
  rearranged t0 (Disambiguator.roundTree r) ->
  rearranged t0 (Disambiguator.roundTree (Disambiguator.disambiguateItem items r item)).
Proof.
  intros Hnd Hitems Hitem Hr. unfold Disambiguator.disambiguateItem. cbv zeta.
  destruct (Js.looseEq _ _); [exact Hr|].
  destruct (Disambiguator.findSwapWith _ _ _) as [other|] eqn:E; simpl; [|exact Hr].
  apply findSwapWith_other in E as [Hne Hin].
  apply rearranged_swapNodes; auto.
Qed.

Lemma itemAt_In (items : list string) (iterations i : Z) (item : string) :
  Disambiguator.itemAt items iterations i = Some item -> In item items.
Proof.
  unfold Disambiguator.itemAt. destruct (_ <? 0); [discriminate|]. apply nth_error_In.
Qed.

Lemma rearranged_disambiguateGroup (t0 : Tree) (iterations : Z)
    (group : string * list string) (r r' : Disambiguator.Round) :
  List.NoDup (nodeIds t0) ->
  (forall x, In x (snd group) -> In x (nodeIds t0)) ->
  rearranged t0 (Disambiguator.roundTree r) ->
  Disambiguator.disambiguateGroup iterations (Some r) group = Some r' ->
  rearranged t0 (Disambiguator.roundTree r').
Proof.
  intros Hnd Hitems. unfold Disambiguator.disambiguateGroup. cbv zeta.
  destruct (length (snd group) <? 2)%nat; [now intros Hr [= <-]|].
  generalize (seq 0 (length (snd group))). intros l. revert r.
  induction l as [|i l IH]; intros r Hr; simpl; [now intros [= <-]|].
  destruct (Disambiguator.itemAt (snd group) iterations (Z.of_nat i)) as [item|] eqn:Ei.
  - apply IH. apply rearranged_disambiguateItem; auto. now apply itemAt_In in Ei.
  - intros E. exfalso. clear -E. induction l as [|j l IHl]; simpl in E; [discriminate | auto].
Qed.

Lemma rearranged_disambiguateGroups (t0 : Tree) (iterations : Z)
    (groups : list (string * list string)) :
  List.NoDup (nodeIds t0) ->
  (forall g x, In g groups -> In x (snd g) -> In x (nodeIds t0)) ->
  forall r r',
    rearranged t0 (Disambiguator.roundTree r) ->
    fold_left (Disambiguator.disambiguateGroup iterations) groups (Some r) = Some r' ->
    rearranged t0 (Disambiguator.roundTree r').
Proof.
  intros Hnd. induction groups as [|g gs IH]; intros Hgroups r r' Hr; simpl;
    [now intros [= <-]|].
  destruct (Disambiguator.disambiguateGroup iterations (Some r) g) as [r1|] eqn:E.
  - apply IH.
    + intros g' x Hg'. apply Hgroups. now right.
    + apply (rearranged_disambiguateGroup t0 iterations g r r1); auto.
      intros x. apply Hgroups. now left.
  - rewrite disambiguateGroups_none. discriminate.
Qed.

Lemma groupAdd_members (k x : string) (groups : list (string * list string)) (P : string -> Prop) :
  P x ->
  (forall g y, In g groups -> In y (snd g) -> P y) ->
  forall g y, In g (Disambiguator.groupAdd k x groups) -> In y (snd g) -> P y.
Proof.
  intros Hx. induction groups as [|[k' xs] gs IH]; simpl; intros Hgs g y.
  - intros [<- | []]. simpl. intros [<- | []]. exact Hx.
  - destruct (String.eqb k k').
    + intros [<- | Hin]; simpl.
      * rewrite in_app_iff. simpl. intros [Hy | [<- | []]]; [|exact Hx].
        apply (Hgs (k', xs)); [now left | exact Hy].
      * apply Hgs. now right.
    + intros [<- | Hin]; simpl.
      * apply (Hgs (k', xs)). now left.
      * apply IH; [|exact Hin]. intros g' y' Hg'. apply Hgs. now right.
Qed.

Lemma groupBy_members (t : Tree) (fn : Node -> option string) :
  forall g x, In g (Disambiguator.groupBy t fn) -> In x (snd g) -> In x (nodeIds t).
Proof.
  unfold Disambiguator.groupBy, nodeIds.
  assert (G : forall (l : list Node) (groups : list (string * list string)) (P : string -> Prop),
             (forall n, In n l -> P (id (data n))) ->
             (forall g y, In g groups -> In y (snd g) -> P y) ->
             forall g y,
               In g (fold_left (fun groups e =>
                                  match fn e with
                                  | Some k => Disambiguator.groupAdd k (id (data e)) groups
                                  | None => groups
                                  end) l groups) ->
               In y (snd g) -> P y).
  { induction l as [|n l IH]; intros groups P Hl Hg; simpl; [exact Hg|].
    apply IH.
    - intros m Hm. apply Hl. now right.
    - destruct (fn n) as [k|]; [|exact Hg].
      apply groupAdd_members; [|exact Hg]. apply Hl. now left. }
  intros g x. apply (G _ [] (fun y => In y (map (fun n => id (data n)) (DataTree.nodes t)))).
  - intros n Hn. apply in_map_iff. now exists n.
  - intros g' y [].
Qed.

Lemma rearranged_disambiguateRound (t0 t : Tree) (iterations : Z) (r : Disambiguator.Round) :
  List.NoDup (nodeIds t0) ->
  rearranged t0 t ->
  Disambiguator.disambiguateRound iterations t = Some r ->
  rearranged t0 (Disambiguator.roundTree r).
Proof.
  intros Hnd Hr. unfold Disambiguator.disambiguateRound.
  apply rearranged_disambiguateGroups; [exact Hnd | | exact Hr].
  intros g x Hg Hx. rewrite <- (proj1 Hr). now apply (groupBy_members t (Disambiguator.groupKey t) g).
Qed.

Lemma rearranged_disambiguateFrom (iterations : Z) (t : Tree) :
  forall (t0 : Tree) (o : Disambiguator.Outcome),
    List.NoDup (nodeIds t0) ->
    rearranged t0 t ->
    Disambiguator.disambiguateFrom iterations t = Some o ->
    rearranged t0 (Disambiguator.finalTree o).
Proof.
  funelim (Disambiguator.disambiguateFrom iterations t); intros t0 o Hnd Hr Ho.
  - discriminate.
  - destruct (Disambiguator.disambiguateFrom (iterations - 1) (Disambiguator.roundTree r))
      as [o'|] eqn:Erec; simpl in Ho; [|discriminate].
    injection Ho as <-. simpl. apply (H t0 o' Hnd); [|reflexivity].
    now apply (rearranged_disambiguateRound t0 t iterations).
  - injection Ho as <-. simpl. now apply (rearranged_disambiguateRound t0 t iterations).
Qed.

End DisambiguationPermutes.

(** X22.  On a tree whose node ids are distinct,
    [disambiguatePageNodesByWindowId] loses no binding and makes none up:
    the nodes are the same, in the same order, and their bindings
    (container id, live id, position) after the call are those before it,
    rearranged among the nodes. *)
Theorem disambiguate_rearranges_bindings (iterations : option Z) (t : Tree)
    (o : Disambiguator.Outcome) :
  List.NoDup (nodeIds t) ->
  Disambiguator.disambiguatePageNodesByWindowId iterations t = Some o ->
  nodeIds (Disambiguator.finalTree o) = nodeIds t
  /\ Permutation (bindings (Disambiguator.finalTree o)) (bindings t).
Proof.
  intros Hnd Ho. unfold Disambiguator.disambiguatePageNodesByWindowId in Ho.
  apply (rearranged_disambiguateFrom (match iterations with Some n => n | None => 3 end)
           t t o Hnd); [|exact Ho].
  split; reflexivity.
Qed.

Lemma disambiguate_rearranges_bindings_witness :
  List.NoDup (nodeIds Ex.swapTree)
  /\ exists o,
       Disambiguator.disambiguatePageNodesByWindowId None Ex.swapTree = Some o
       /\ nodeIds (Disambiguator.finalTree o) = nodeIds Ex.swapTree
       /\ Permutation (bindings (Disambiguator.finalTree o)) (bindings Ex.swapTree).
Proof.
  assert (Hnd : List.NoDup (nodeIds Ex.swapTree)).
  { unfold nodeIds. simpl.
    repeat (constructor; [simpl; intuition discriminate|]). constructor. }
  split; [exact Hnd|].
  destruct (Disambiguator.disambiguatePageNodesByWindowId None Ex.swapTree) as [o|] eqn:E;
    [|vm_compute in E; discriminate].
  exists o. split; [reflexivity|].
  exact (disambiguate_rearranges_bindings None Ex.swapTree o Hnd E).
Defined.

(* ===================================================================== *)
(** * Removing window nodes without children *)
(* ===================================================================== *)

Lemma detachIn_pruneIn (i : string) (n : Node) :
  DataTree.detachIn i n = pruneIn (fun x => String.eqb x i) n.
Proof.
  induction n as [d cs IH] using Node_ind_nested. simpl. f_equal.
  induction IH as [|c cs' Hc Hcs IHcs]; simpl; [reflexivity|].
  now rewrite Hc, IHcs.
Qed.

Lemma detach_prune (i : string) (t : Tree) :
  DataTree.detach i t = prune (fun x => String.eqb x i) t.
Proof.
  unfold DataTree.detach, prune. induction t as [|c t IH]; simpl; [reflexivity|].
  now rewrite detachIn_pruneIn, IH.
Qed.

Lemma pruneIn_ext (p q : string -> bool) (n : Node) :
  (forall x, p x = q x) -> pruneIn p n = pruneIn q n.
Proof.
  intros Hpq. induction n as [d cs IH] using Node_ind_nested. simpl. f_equal.
  induction IH as [|c cs' Hc Hcs IHcs]; simpl; [reflexivity|].
  now rewrite Hpq, Hc, IHcs.
Qed.

Lemma prune_ext (p q : string -> bool) (t : Tree) :
  (forall x, p x = q x) -> prune p t = prune q t.
Proof.
  intros Hpq. unfold prune. induction t as [|c t IH]; simpl; [reflexivity|].
  now rewrite Hpq, (pruneIn_ext p q c Hpq), IH.
Qed.

Lemma pruneIn_pruneIn (p q : string -> bool) (n : Node) :
  pruneIn q (pruneIn p n) = pruneIn (fun x => p x || q x) n.
Proof.
  induction n as [d cs IH] using Node_ind_nested. simpl. f_equal.
  induction IH as [|c cs' Hc Hcs IHcs]; simpl; [reflexivity|].
  destruct (p (id (data c))) eqn:Ep; simpl; [exact IHcs|].
  replace (id (data (pruneIn p c))) with (id (data c)) by now destruct c.
  destruct (q (id (data c))); simpl; [exact IHcs|].
  now rewrite Hc, IHcs.
Qed.

Lemma prune_prune (p q : string -> bool) (t : Tree) :
  prune q (prune p t) = prune (fun x => p x || q x) t.
Proof.
  unfold prune. induction t as [|c t IH]; simpl; [reflexivity|].
  destruct (p (id (data c))) eqn:Ep; simpl; [exact IH|].
  replace (id (data (pruneIn p c))) with (id (data c)) by now destruct c.
  destruct (q (id (data c))); simpl; [exact IH|].
  now rewrite pruneIn_pruneIn, IH.
Qed.

Lemma removeNodes_prune (baddies : list Node) : forall t,
  fold_left (fun t baddy => Cleanup.removeNode (id (data baddy)) t) baddies t
  = prune (fun x => existsb (fun b => String.eqb x (id (data b))) baddies) t.
Proof.
  induction baddies as [|b bs IH]; intros t; simpl.
  - unfold prune. induction t as [|c t IHt]; simpl; [reflexivity|].
    rewrite <- IHt. f_equal. f_equal.
    induction c as [d cs IHc] using Node_ind_nested. simpl. f_equal.
    induction IHc as [|c' cs' Hc Hcs IHcs]; simpl; [reflexivity|].
    now rewrite <- Hc, <- IHcs.
  - rewrite IH. unfold Cleanup.removeNode. rewrite detach_prune, prune_prune. reflexivity.
Qed.

Lemma filter_flat_map {A B} (p : B -> bool) (f : A -> list B) (l : list A) :
  List.filter p (flat_map f l) = flat_map (fun x => List.filter p (f x)) l.
Proof.
  induction l as [|x l IH]; simpl; [reflexivity|]. now rewrite List.filter_app, IH.
Qed.

Lemma flat_map_flat_map {A B C} (f : A -> list B) (g : B -> list C) (l : list A) :
  flat_map g (flat_map f l) = flat_map (fun x => flat_map g (f x)) l.
Proof.
  induction l as [|x l IH]; simpl; [reflexivity|]. now rewrite flat_map_app, IH.
Qed.

(** Pruning leaves removes exactly them from the traversal. *)
Lemma pruneIn_leaves (p : string -> bool) (n : Node) :
  (forall m, In m (DataTree.subtree n) -> p (id (data m)) = true -> children m = []) ->
  map data (flat_map DataTree.subtree (if p (id (data n)) then [] else [pruneIn p n]))
  = map data (List.filter (fun m => negb (p (id (data m)))) (DataTree.subtree n)).
Proof.
  induction n as [d cs IH] using Node_ind_nested. intros Hleaf.
  cbn [data id]. destruct (p (id d)) eqn:Ep.
  - assert (Hcs : cs = []).
    { apply (Hleaf (MkNode d cs)); [simpl; now left | exact Ep]. }
    subst cs. simpl. now rewrite Ep.
  - cbn [flat_map pruneIn DataTree.subtree List.filter data id]. rewrite Ep. cbn [negb].
    rewrite app_nil_r. cbn [map]. f_equal.
    rewrite flat_map_flat_map, filter_flat_map, !flat_map_concat_map, !concat_map, !map_map.
    f_equal.
    assert (Hsub : forall c, In c cs -> forall m, In m (DataTree.subtree c) ->
                     p (id (data m)) = true -> children m = []).
    { intros c Hc m Hm. apply Hleaf. simpl. right. apply in_flat_map. now exists c. }
    clear Hleaf. induction IH as [|c cs' Hc Hcs IHcs]; simpl; [reflexivity|].
    rewrite Hc, IHcs.
    + reflexivity.
    + intros c' Hc'. apply Hsub. now right.
    + apply Hsub. now left.
Qed.

Lemma prune_leaves (p : string -> bool) (t : Tree) :
  (forall m, In m (DataTree.nodes t) -> p (id (data m)) = true -> children m = []) ->
  map data (DataTree.nodes (prune p t))
  = map data (List.filter (fun m => negb (p (id (data m)))) (DataTree.nodes t)).
Proof.
  unfold DataTree.nodes, prune. intros Hleaf.
  rewrite flat_map_flat_map, filter_flat_map, !flat_map_concat_map, !concat_map, !map_map.
  f_equal. induction t as [|c t IH]; simpl; [reflexivity|].
  rewrite pruneIn_leaves, IH.
  - reflexivity.
  - intros m Hm. apply Hleaf. simpl. rewrite in_app_iff. now right.
  - intros m Hm. apply Hleaf. simpl. rewrite in_app_iff. now left.
Qed.

Lemma insertSorted_Permutation (x : string) (l : list string) :
  Permutation (Cleanup.insertSorted x l) (x :: l).
Proof.
  induction l as [|y l IH]; simpl; [reflexivity|].
  destruct (String.leb x y); [reflexivity|].
  rewrite IH. apply perm_swap.
Qed.

Lemma sortStrings_Permutation (l : list string) : Permutation (Cleanup.sortStrings l) l.
Proof.
  unfold Cleanup.sortStrings. induction l as [|x l IH]; simpl; [reflexivity|].
  now rewrite insertSorted_Permutation, IH.
Qed.

Lemma repeatsLast_NoDup (rest : list string) : forall last,
  List.NoDup (last :: rest) -> Cleanup.repeatsLast last rest = false.
Proof.
  induction rest as [|x r IH]; intros last Hnd; simpl; [reflexivity|].
  inversion Hnd as [|? ? Hn Hl]; subst.
  destruct (String.eqb_spec x last) as [->|_]; [exfalso; apply Hn; now left|].
  now apply IH.
Qed.

Lemma NoDup_map_filter {A B} (f : A -> B) (p : A -> bool) (l : list A) :
  List.NoDup (map f l) -> List.NoDup (map f (List.filter p l)).
Proof.
  induction l as [|a l IH]; simpl; [auto|].
  intros Hnd. inversion Hnd as [|? ? Hn Hl]; subst.
  destruct (p a); simpl; [|now apply IH].
  constructor; [|now apply IH].
  intros Hin. apply Hn. apply in_map_iff in Hin as [y [E Hy]].
  apply filter_In in Hy as [Hy _]. rewrite <- E. now apply in_map.
Qed.

(** X23.  On a tree whose node ids are distinct,
    [removeZeroChildWindowNodes] removes exactly the window nodes that
    had no children when it was called: every other node, every page node
    among them, stays in the tree with its attributes and in its order (a
    window node whose only children were such windows stays too, now
    without children), and no reload of the sidebar is requested. *)
Theorem removeZeroChildWindowNodes_removes_exactly (sidebarExists : bool) (t : Tree) :
  List.NoDup (nodeIds t) ->
  map data (DataTree.nodes (fst (Cleanup.removeZeroChildWindowNodes sidebarExists t)))
  = map data (List.filter (fun e => negb (Cleanup.isZeroChildWindowNode e)) (DataTree.nodes t))
  /\ snd (Cleanup.removeZeroChildWindowNodes sidebarExists t) = false.
Proof.
  intros Hnd. unfold Cleanup.removeZeroChildWindowNodes. cbv zeta. cbn [fst snd].
  unfold DataTree.filter.
  set (baddies := List.filter Cleanup.isZeroChildWindowNode (DataTree.nodes t)).
  split.
  - rewrite removeNodes_prune.
    set (p := fun x => existsb (fun b => String.eqb x (id (data b))) (rev baddies)).
    assert (Hp : forall m, In m (DataTree.nodes t) ->
                   p (id (data m)) = Cleanup.isZeroChildWindowNode m).
    { intros m Hm. subst p. cbv beta.
      destruct (Cleanup.isZeroChildWindowNode m) eqn:Ez.
      - apply existsb_exists. exists m. split; [|apply String.eqb_refl].
        apply in_rev. rewrite rev_involutive. apply filter_In. now split.
      - destruct (existsb _ _) eqn:Ee; [|reflexivity].
        apply existsb_exists in Ee as [b [Hb Eb]].
        apply in_rev in Hb. apply filter_In in Hb as [Hb Hz].
        apply String.eqb_eq in Eb.
        assert (m = b).
        { apply (NoDup_map_injective (fun n => id (data n)) (DataTree.nodes t)); assumption. }
        subst b. congruence. }
    rewrite prune_leaves.
    + f_equal. apply filter_ext_in. intros m Hm. now rewrite Hp.
    + intros m Hm Epm. rewrite Hp in Epm by assumption.
      unfold Cleanup.isZeroChildWindowNode in Epm. apply andb_prop in Epm as [_ Epm].
      apply Nat.eqb_eq in Epm. now destruct (children m).
  - destruct ((0 <? length baddies)%nat && sidebarExists); [|reflexivity].
    destruct (Cleanup.sortStrings (map (fun e => id (data e)) baddies)) as [|last rest] eqn:Es;
      [reflexivity|].
    apply repeatsLast_NoDup. rewrite <- Es.
    eapply Permutation_NoDup; [symmetry; apply sortStrings_Permutation|].
    subst baddies. now apply NoDup_map_filter.
Qed.

Lemma removeZeroChildWindowNodes_removes_exactly_witness :
  List.NoDup (nodeIds Ex.stageTree)
  /\ map data (DataTree.nodes (fst (Cleanup.removeZeroChildWindowNodes true Ex.stageTree)))
     = map data (List.filter (fun e => negb (Cleanup.isZeroChildWindowNode e))
                   (DataTree.nodes Ex.stageTree))
  /\ snd (Cleanup.removeZeroChildWindowNodes true Ex.stageTree) = false.
Proof.
  assert (Hnd : List.NoDup (nodeIds Ex.stageTree)).
  { unfold nodeIds. simpl.
    repeat (constructor; [simpl; intuition discriminate|]). constructor. }
  split; [exact Hnd|].
  exact (removeZeroChildWindowNodes_removes_exactly true Ex.stageTree Hnd).
Defined.

(* ===================================================================== *)
(** * Planning the moves of dragged rows *)
(* ===================================================================== *)

Section PlanProps.
Variable closestSelectedParent : list string -> string -> option string.
Variables (relation : DataTree.Relation) (toRow : string) (rows : list string).
Variable initial : DataTree.Relation * string.

Hypothesis Hrows : List.NoDup rows.
Hypothesis Hcsp : forall row c, closestSelectedParent rows row = Some c -> c <> row.
(** The first insert point is the drop target of a drop into it, or it is
    not one of the dragged rows. *)
Hypothesis Hinitial :
  (initial = (relation, toRow) /\ DragDrop.isPrependOrAppend relation = true)
  \/ ~ In (snd initial) rows.

Lemma planStep_invariant (done rest : list string) (row : string) (p : DragDrop.Plan) :
  rows = done ++ row :: rest ->
  planInvariant relation toRow initial done p ->
  planInvariant relation toRow initial (done ++ [row])
    (DragDrop.planStep relation toRow p (row, closestSelectedParent rows row)).
Proof.
  intros Hsplit (I1 & I2 & I3 & I4).
  assert (Hrow : In row rows) by (rewrite Hsplit, in_app_iff; right; now left).
  assert (Hfresh : ~ In row done).
  { intros Hin. rewrite Hsplit in Hrows. apply NoDup_remove_2 in Hrows.
    apply Hrows. rewrite in_app_iff. now left. }
  unfold DragDrop.planStep.
  destruct (String.eqb row toRow && DragDrop.isPrependOrAppend relation) eqn:Eself.
  - (* the row is the target of a drop into it *)
    apply andb_prop in Eself as [E1 E2]. apply String.eqb_eq in E1.
    unfold planInvariant. simpl. rewrite map_app, I1. simpl.
    split; [reflexivity|]. split.
    + apply Forall_app. split; [exact I2|]. constructor; [|constructor]. now split.
    + split.
      * destruct I3 as [I3|I3]; [now left | right; rewrite in_app_iff; now left].
      * intros c child E. rewrite in_app_iff. left. now apply (I4 c).
  - assert (Hpoint : snd (DragDrop.insertPoint p) <> row).
    { destruct I3 as [I3|I3].
      - rewrite I3. destruct Hinitial as [[-> Hpa]|Hout].
        + simpl. intros <-. rewrite String.eqb_refl, Hpa in Eself. discriminate.
        + intros E. apply Hout. now rewrite E.
      - intros E. apply Hfresh. now rewrite <- E. }
    destruct (closestSelectedParent rows row) as [c|] eqn:Ec.
    + (* the row has a closest selected parent *)
      assert (Hc : c <> row) by now apply Hcsp.
      assert (Hmove : soundMove relation toRow
                (match DragDrop.lastCsp p with
                 | Some (lc, lastCspChild) =>
                     if String.eqb lc c then DragDrop.MoveRel row DataTree.after lastCspChild
                     else match relation with
                          | DataTree.append => DragDrop.MoveRel row DataTree.append c
                          | _ => DragDrop.MoveRel row DataTree.prepend c
                          end
                 | None =>
                     match relation with
                     | DataTree.append => DragDrop.MoveRel row DataTree.append c
                     | _ => DragDrop.MoveRel row DataTree.prepend c
                     end
                 end)).
      { destruct (DragDrop.lastCsp p) as [[lc child]|] eqn:El.
        - destruct (String.eqb lc c).
          + simpl. intros E. apply Hfresh. rewrite <- E. now apply (I4 lc).
          + now destruct relation.
        - now destruct relation. }
      unfold planInvariant. cbn [DragDrop.moves DragDrop.insertPoint DragDrop.lastCsp].
      rewrite map_app, I1.
      split.
      { f_equal. destruct (DragDrop.lastCsp p) as [[lc child]|];
          [destruct (String.eqb lc c)|]; now destruct relation. }
      split; [apply Forall_app; split; [exact I2 | constructor; [exact Hmove | constructor]]|].
      split.
      * destruct (fst (DragDrop.insertPoint p)); simpl;
          try (destruct I3 as [I3|I3]; [now left | right; rewrite in_app_iff; now left]).
        right. rewrite in_app_iff. right. now left.
      * intros c' child [= _ <-]. rewrite in_app_iff. right. now left.
    + (* no closest selected parent: the row goes to the insert point *)
      unfold planInvariant. cbn [DragDrop.moves DragDrop.insertPoint DragDrop.lastCsp].
      rewrite map_app, I1.
      split; [reflexivity|].
      split; [apply Forall_app; split; [exact I2 | constructor; [exact Hpoint | constructor]]|].
      split.
      * right. rewrite in_app_iff. right.
        destruct (fst (DragDrop.insertPoint p)); now left.
      * intros c child E. rewrite in_app_iff. left. now apply (I4 c).
Qed.

Lemma planSteps_invariant (rest : list string) : forall (done : list string) (p : DragDrop.Plan),
  rows = done ++ rest ->
  planInvariant relation toRow initial done p ->
  planInvariant relation toRow initial rows
    (fold_left (DragDrop.planStep relation toRow)
               (map (fun e => (e, closestSelectedParent rows e)) rest) p).
Proof.
  induction rest as [|row rest IH]; intros done p Hsplit Hinv; simpl.
  - rewrite app_nil_r in Hsplit. now subst done.
  - apply (IH (done ++ [row])).
    + rewrite <- app_assoc. exact Hsplit.
    + now apply (planStep_invariant done rest).
Qed.

End PlanProps.

(** X24.  [planMovingDraggedRows] plans exactly one move for every
    dragged row, in the order of the rows, and never plans to move a row
    relative to itself: provided the rows are distinct, the closest
    selected parent of a row is another row and the insert point found
    for a selected drop target is not one of the dragged rows, every
    planned move has a target other than its row, and the only rows left
    unmoved are the drop target itself when rows are dropped into it. *)
Theorem planMovingDraggedRows_sound
    (closestSelectedParent : list string -> string -> option string)
    (findNearestInsertPoint : string -> list string -> bool -> DataTree.Relation * string)
    (rows : list string) (relation : DataTree.Relation) (toRow : string) :
  List.NoDup rows ->
  (forall row c, closestSelectedParent rows row = Some c -> c <> row) ->
  (forall lookForward, ~ In (snd (findNearestInsertPoint toRow rows lookForward)) rows) ->
  map DragDrop.moveRow
      (DragDrop.planMovingDraggedRows closestSelectedParent findNearestInsertPoint
         rows relation toRow) = rows
  /\ Forall (soundMove relation toRow)
       (DragDrop.planMovingDraggedRows closestSelectedParent findNearestInsertPoint
          rows relation toRow).
Proof.
  intros Hrows Hcsp Hnearest. unfold DragDrop.planMovingDraggedRows. cbv zeta.
  set (initial := if DragDrop.isBeforeOrAfter relation && existsb (String.eqb toRow) rows
                  then findNearestInsertPoint toRow rows
                         (match relation with DataTree.after => true | _ => false end)
                  else (relation, toRow)).
  assert (Hinitial : (initial = (relation, toRow) /\ DragDrop.isPrependOrAppend relation = true)
                     \/ ~ In (snd initial) rows).
  { subst initial.
    destruct (DragDrop.isBeforeOrAfter relation && existsb (String.eqb toRow) rows) eqn:E.
    - right. apply Hnearest.
    - destruct relation; simpl in E.
      + right. simpl. now apply existsb_Seqb_false.
      + right. simpl. now apply existsb_Seqb_false.
      + left. now split.
      + left. now split. }
  destruct (planSteps_invariant closestSelectedParent relation toRow rows initial
              Hrows Hcsp Hinitial rows [] (DragDrop.mkPlan initial None []) eq_refl)
    as (I1 & I2 & _).
  - unfold planInvariant. simpl. repeat split; [constructor | now left | discriminate].
  - now split.
Qed.

Lemma planMovingDraggedRows_sound_witness :
  List.NoDup ["a"; "a1"; "b"]
  /\ map DragDrop.moveRow
       (DragDrop.planMovingDraggedRows
          (fun _ row => if String.eqb row "a1" then Some "a" else None)
          (fun _ _ _ => (DataTree.append, "root"))
          ["a"; "a1"; "b"] DataTree.after "t")
     = ["a"; "a1"; "b"]
  /\ Forall (soundMove DataTree.after "t")
       (DragDrop.planMovingDraggedRows
          (fun _ row => if String.eqb row "a1" then Some "a" else None)
          (fun _ _ _ => (DataTree.append, "root"))
          ["a"; "a1"; "b"] DataTree.after "t").
Proof.
  assert (Hnd : List.NoDup ["a"; "a1"; "b"]).
  { repeat (constructor; [simpl; intuition discriminate|]). constructor. }
  split; [exact Hnd|].
  apply (planMovingDraggedRows_sound
           (fun _ row => if String.eqb row "a1" then Some "a" else None)
           (fun _ _ _ => (DataTree.append, "root"))
           ["a"; "a1"; "b"] DataTree.after "t" Hnd).
  - intros row c. destruct (String.eqb_spec row "a1") as [->|_]; [|discriminate].
    intros [= <-]. discriminate.
  - intros _. simpl. intuition discriminate.
Defined.

(* ===================================================================== *)
(** * Scores, termination and blind association *)
(* ===================================================================== *)

Lemma scoreStep_count (tabs : list Tab.t) (l : list Node) :
  forall last pageCount groups n,
    fold_left (WindowAssociation.scoreStep tabs) l (Some (last, pageCount)) = Some (groups, n) ->
    n = pageCount + Z.of_nat (length (List.filter (countsAsPage tabs) l)).
Proof.
  assert (Hnone : forall l', fold_left (WindowAssociation.scoreStep tabs) l' None = None)
    by (induction l' as [|x l' IHl']; [reflexivity | exact IHl']).
  induction l as [|e l IH]; intros last pageCount groups n Hf; simpl in *.
  - injection Hf as _ <-. lia.
  - unfold countsAsPage at 1.
    destruct (isTab e); simpl in Hf |- *; [|now apply IH in Hf].
    destruct (List.find _ tabs) as [tab|]; [|rewrite Hnone in Hf; discriminate].
    destruct (Bool.eqb (pinned (data e)) (Tab.pinned tab));
      destruct (Bool.eqb (incognito (data e)) (Tab.incognito tab)); simpl in Hf |- *;
      apply IH in Hf; lia.
Qed.

(** X25.  The tally [associateWindowstoWindowNodes] makes for a window
    node.  The score recorded against a live window is the number obtained
    by going through the descendants of the node in traversal order and
    adding [1.0], and then [0.00001] when the recorded position is the
    live one, for every tab whose pinned and incognito flags are those of
    its live tab in that window, in binary64 arithmetic; a window without
    such a tab has no score.  The page count is the number of descendants
    that are tabs with the flags of their live tab, whatever window that
    tab is in. *)
Theorem scoreWindow_scores_and_counts (tabs : list Tab.t) (win : Node)
    (groups : list (Z * WindowAssociation.Score)) (n : Z) :
  WindowAssociation.scoreWindow tabs win = Some (groups, n) ->
  (forall g, objGet g groups = accumulate tabs g (DataTree.nodes (children win)) None)
  /\ n = Z.of_nat (length (List.filter (countsAsPage tabs) (DataTree.nodes (children win)))).
Proof.
  intros Hs. split.
  - intros g. unfold WindowAssociation.scoreWindow in Hs.
    destruct (scoreStep_fold tabs g _ [] 0 groups n ltac:(constructor) Hs) as [_ E].
    exact E.
  - unfold WindowAssociation.scoreWindow in Hs. apply scoreStep_count in Hs. lia.
Qed.

Lemma scoreWindow_scores_and_counts_witness :
  exists groups n,
    WindowAssociation.scoreWindow Ex.placedTabs
      (MkNode (Ex.windowData "wa" None true true)
         [Ex.tabNode "a1" 501 7 0 "http://a/1"; Ex.tabNode "a2" 502 7 1 "http://a/2"])
    = Some (groups, n)
    /\ map (fun e => (fst e, F64.toString (snd e))) groups = [(7, "2.00001")]
    /\ (forall g, objGet g groups
                  = accumulate Ex.placedTabs g
                      (DataTree.nodes [Ex.tabNode "a1" 501 7 0 "http://a/1";
                                       Ex.tabNode "a2" 502 7 1 "http://a/2"]) None)
    /\ n = Z.of_nat (length (List.filter (countsAsPage Ex.placedTabs)
                               (DataTree.nodes [Ex.tabNode "a1" 501 7 0 "http://a/1";
                                                Ex.tabNode "a2" 502 7 1 "http://a/2"]))).
Proof.
  destruct (WindowAssociation.scoreWindow Ex.placedTabs
              (MkNode (Ex.windowData "wa" None true true)
                 [Ex.tabNode "a1" 501 7 0 "http://a/1"; Ex.tabNode "a2" 502 7 1 "http://a/2"]))
    as [[groups n]|] eqn:E; [|vm_compute in E; discriminate].
  exists groups, n. split; [reflexivity|].
  split; [vm_compute in E; injection E as <- _; vm_compute; reflexivity|].
  exact (scoreWindow_scores_and_counts Ex.placedTabs _ groups n E).
Defined.

Lemma disambiguatePageNodesByWindowId_terminates_witness :
  match Some 2 with Some n => 0 <= n | None => True end
  /\ exists o, Disambiguator.disambiguatePageNodesByWindowId (Some 2) Ex.swapTree = Some o
               /\ (1 <= Disambiguator.rounds o)%nat
               /\ Z.of_nat (Disambiguator.rounds o)
                  <= Z.max 1 (match Some 2 with Some n => n | None => 3 end).
Proof.
  split; [lia|].
  apply (disambiguatePageNodesByWindowId_terminates (Some 2) Ex.swapTree). lia.
Defined.

Lemma tryAssociateTab_not_scriptable_witness :
  isScriptableUrl (Tab.url Ex.settingsTab) = false
  /\ List.filter isDetailQuery
       (effects (snd (tryAssociateTab "run" Ex.settingsTab false
                        (Ex.emptyState Ex.settingsTree))))
     = List.filter isDetailQuery (effects (Ex.emptyState Ex.settingsTree))
  /\ forall r, pendingTabIds (snd (tryAssociateTab "run" Ex.settingsTab false
                                     (Ex.emptyState Ex.settingsTree))) r
               = pendingTabIds (Ex.emptyState Ex.settingsTree) r.
Proof.
  split; [reflexivity|].
  apply (tryAssociateTab_not_scriptable "run" Ex.settingsTab false
           (Ex.emptyState Ex.settingsTree)).
  reflexivity.
Defined.

(* ===================================================================== *)
(** * Merging windows keeps every node *)
(* ===================================================================== *)

Lemma nodeData_cons (c : Node) (t : Tree) :
  nodeData (c :: t) = map data (DataTree.subtree c) ++ nodeData t.
Proof. unfold nodeData, DataTree.nodes. simpl. now rewrite map_app. Qed.

Lemma nodeData_app (a b : Tree) : nodeData (a ++ b) = nodeData a ++ nodeData b.
Proof. unfold nodeData, DataTree.nodes. now rewrite flat_map_app, map_app. Qed.

Lemma subtree_data (n : Node) :
  map data (DataTree.subtree n) = data n :: nodeData (children n).
Proof. now destruct n. Qed.

Lemma nodeIds_nodeData (t : Tree) : nodeIds t = map id (nodeData t).
Proof. unfold nodeIds, nodeData. now rewrite map_map. Qed.

(** ** Taking a node out *)

Lemma Permutation_interleave {A} (a b c d : list A) :
  Permutation ((a ++ b) ++ (c ++ d)) ((a ++ c) ++ (b ++ d)).
Proof.
  rewrite <- !app_assoc. apply Permutation_app_head.
  rewrite !app_assoc. apply Permutation_app_tail. apply Permutation_app_comm.
Qed.

Lemma nodeData_split (f g : Node -> list Node) (cs : list Node) :
  Forall (fun c => Permutation (map data (DataTree.subtree c))
                     (nodeData (f c) ++ nodeData (g c))) cs ->
  Permutation (nodeData cs) (nodeData (flat_map f cs) ++ nodeData (flat_map g cs)).
Proof.
  intros IH. induction IH as [|c cs' Hc Hcs IHcs]; [reflexivity|].
  cbn [flat_map]. rewrite nodeData_cons, !nodeData_app, Hc, IHcs.
  apply Permutation_interleave.
Qed.

Lemma detach_split_node (i : string) (c : Node) :
  Permutation (map data (DataTree.subtree c))
    (nodeData (if String.eqb (id (data c)) i then [] else [DataTree.detachIn i c])
     ++ nodeData (if String.eqb (id (data c)) i then [c] else cutIn i c)).
Proof.
  induction c as [d cs IH] using Node_ind_nested. cbn [data id].
  destruct (String.eqb (id d) i).
  - rewrite nodeData_cons. change (nodeData []) with (@nil NodeData).
    now rewrite app_nil_r.
  - rewrite nodeData_cons. change (nodeData []) with (@nil NodeData).
    rewrite app_nil_r, !subtree_data. cbn [data children DataTree.detachIn cutIn].
    cbn [app]. constructor. now apply nodeData_split.
Qed.

Lemma detach_split (i : string) (t : Tree) :
  Permutation (nodeData t) (nodeData (DataTree.detach i t) ++ nodeData (cut i t)).
Proof.
  unfold DataTree.detach, cut. apply nodeData_split.
  apply List.Forall_forall. intros c _. apply detach_split_node.
Qed.

Lemma flat_map_nil {A B} (f : A -> list B) (l : list A) (x : A) :
  flat_map f l = [] -> In x l -> f x = [].
Proof.
  induction l as [|a l IH]; simpl; [intros _ []|].
  intros E [<-|Hin]; apply app_eq_nil in E as [E1 E2]; [exact E1 | now apply IH].
Qed.

Lemma cutIn_In (i : string) (n m : Node) :
  In m (cutIn i n) -> In m (DataTree.subtree n) /\ id (data m) = i.
Proof.
  induction n as [d cs IH] using Node_ind_nested. simpl. intros Hin.
  apply in_flat_map in Hin as [c [Hc Hm]].
  rewrite List.Forall_forall in IH.
  destruct (String.eqb_spec (id (data c)) i) as [E|_].
  - destruct Hm as [<-|[]]. split; [|exact E].
    right. apply in_flat_map. exists c. split; [exact Hc|]. destruct c. now left.
  - destruct (IH c Hc Hm) as [H1 H2]. split; [|exact H2].
    right. apply in_flat_map. now exists c.
Qed.

Lemma cut_In (i : string) (t : Tree) (m : Node) :
  In m (cut i t) -> In m (DataTree.nodes t) /\ id (data m) = i.
Proof.
  unfold cut, DataTree.nodes. intros Hin. apply in_flat_map in Hin as [c [Hc Hm]].
  destruct (String.eqb_spec (id (data c)) i) as [E|_].
  - destruct Hm as [<-|[]]. split; [|exact E].
    apply in_flat_map. exists c. split; [exact Hc|]. destruct c. now left.
  - destruct (cutIn_In i c m Hm) as [H1 H2]. split; [|exact H2].
    apply in_flat_map. now exists c.
Qed.

Lemma cutIn_nil (i : string) (n m : Node) :
  cutIn i n = [] -> In m (DataTree.subtree n) -> m = n \/ id (data m) <> i.
Proof.
  induction n as [d cs IH] using Node_ind_nested. simpl. intros Hcut [<-|Hin]; [now left|].
  right. apply in_flat_map in Hin as [c [Hc Hm]].
  rewrite List.Forall_forall in IH.
  pose proof (flat_map_nil _ _ c Hcut Hc) as Hc'. cbv beta in Hc'.
  destruct (String.eqb_spec (id (data c)) i) as [E|N]; [discriminate|].
  destruct (IH c Hc Hc' Hm) as [->|H1]; assumption.
Qed.

Lemma cut_nil (i : string) (t : Tree) (m : Node) :
  cut i t = [] -> In m (DataTree.nodes t) -> id (data m) <> i.
Proof.
  unfold cut, DataTree.nodes. intros Hcut Hin. apply in_flat_map in Hin as [c [Hc Hm]].
  pose proof (flat_map_nil _ _ c Hcut Hc) as Hc'. cbv beta in Hc'.
  destruct (String.eqb_spec (id (data c)) i) as [E|N]; [discriminate|].
  destruct (cutIn_nil i c m Hc' Hm) as [->|H1]; assumption.
Qed.

Lemma getNodeById_In (t : Tree) (i : string) (n : Node) :
  DataTree.getNodeById t i = Some n -> In n (DataTree.nodes t) /\ id (data n) = i.
Proof.
  unfold DataTree.getNodeById, DataTree.getNode. intros E.
  apply find_some in E as [E1 E2]. split; [exact E1 | now apply String.eqb_eq].
Qed.

Lemma In_nodeIds (t : Tree) (n : Node) : In n (DataTree.nodes t) -> In (id (data n)) (nodeIds t).
Proof. intros Hin. unfold nodeIds. apply in_map_iff. now exists n. Qed.

(** On a tree with distinct ids, what is taken out is the node found
    under the id, with its descendants. *)
Lemma cut_found (i : string) (t : Tree) (n : Node) :
  List.NoDup (nodeIds t) ->
  DataTree.getNodeById t i = Some n ->
  cut i t = [n].
Proof.
  intros Hnd Hget. apply getNodeById_In in Hget as [Hin Hid].
  assert (Hsame : forall m, In m (cut i t) -> m = n).
  { intros m Hm. apply cut_In in Hm as [Hm1 Hm2].
    apply (NoDup_map_injective (fun x => id (data x)) (DataTree.nodes t)); try assumption.
    congruence. }
  destruct (cut i t) as [|m rest] eqn:Ecut.
  - exfalso. now apply (cut_nil i t n Ecut Hin).
  - assert (m = n) by (apply Hsame; now left). subst m. f_equal.
    destruct rest as [|m' rest']; [reflexivity|].
    assert (m' = n) by (apply Hsame; right; now left). subst m'. exfalso.
    (* the id [i] would occur twice among the ids of the tree *)
    pose proof (detach_split i t) as Hsplit. rewrite Ecut in Hsplit.
    rewrite nodeIds_nodeData in Hnd.
    apply (Permutation_map id) in Hsplit.
    apply (Permutation_NoDup Hsplit) in Hnd.
    rewrite map_app in Hnd. apply NoDup_app_remove_l in Hnd.
    rewrite !nodeData_cons, !subtree_data, !map_app in Hnd. simpl in Hnd.
    inversion Hnd as [|? ? Hn _]; subst. apply Hn.
    apply in_or_app. right. apply in_eq.
Qed.

(** ** Putting a node back *)

Lemma copies_add (n : Node) (a b : nat) : copies n (a + b) = copies n a ++ copies n b.
Proof. unfold copies. now rewrite repeat_app, concat_app. Qed.

Lemma copies_1 (n : Node) : copies n 1 = map data (DataTree.subtree n).
Proof. unfold copies. simpl. apply app_nil_r. Qed.

Section Attach.
Variables (n : Node) (relation : DataTree.Relation) (to : string).

Lemma attachAmong_data (siblings : list Node) :
  Forall (fun c => Permutation
                     (map data (DataTree.subtree (DataTree.attachIn n relation to c)))
                     (copies n (insertionsIn to c) ++ map data (DataTree.subtree c)))
         siblings ->
  Permutation
    (nodeData (DataTree.attachAmong (DataTree.attachIn n relation to) n relation to siblings))
    (copies n (insertionsAmong (insertionsIn to) to siblings) ++ nodeData siblings).
Proof.
  intros IH. induction IH as [|c cs Hc Hcs IHcs]; [reflexivity|].
  cbn [DataTree.attachAmong insertionsAmong].
  destruct (String.eqb (id (data c)) to).
  - rewrite copies_1. destruct relation.
    + rewrite !nodeData_cons. reflexivity.
    + rewrite !nodeData_cons, !app_assoc. apply Permutation_app_tail, Permutation_app_comm.
    + rewrite !nodeData_cons,
        (subtree_data c), (subtree_data (MkNode (data c) (n :: children c))).
      cbn [data children]. rewrite nodeData_cons. cbn [app]. rewrite <- app_assoc.
      apply Permutation_middle.
    + rewrite !nodeData_cons,
        (subtree_data c), (subtree_data (MkNode (data c) (children c ++ [n]))).
      cbn [data children].
      rewrite nodeData_app, nodeData_cons. change (nodeData []) with (@nil NodeData).
      rewrite app_nil_r. cbn [app]. rewrite <- app_assoc.
      rewrite <- Permutation_middle. constructor.
      rewrite !app_assoc. apply Permutation_app_tail, Permutation_app_comm.
  - rewrite !nodeData_cons, Hc, IHcs, copies_add. apply Permutation_interleave.
Qed.

Lemma attachIn_data (c : Node) :
  Permutation (map data (DataTree.subtree (DataTree.attachIn n relation to c)))
              (copies n (insertionsIn to c) ++ map data (DataTree.subtree c)).
Proof.
  induction c as [d cs IH] using Node_ind_nested.
  cbn [DataTree.attachIn insertionsIn]. rewrite !subtree_data. cbn [data children].
  rewrite (attachAmong_data cs IH). apply Permutation_middle.
Qed.

Lemma attach_data (t : Tree) :
  Permutation (nodeData (DataTree.attach n relation to t))
              (copies n (insertionsAmong (insertionsIn to) to t) ++ nodeData t).
Proof.
  unfold DataTree.attach. apply attachAmong_data.
  apply List.Forall_forall. intros c _. apply attachIn_data.
Qed.

End Attach.

(** The number of nodes of id [to]. *)
Lemma insertions_le_node (to : string) (c : Node) :
  (insertionsIn to c <= count_occ string_dec (map id (nodeData (children c))) to)%nat.
Proof.
  induction c as [d cs IH] using Node_ind_nested. cbn [insertionsIn children].
  induction IH as [|c cs' Hc Hcs IHcs]; [simpl; lia|].
  cbn [insertionsAmong]. rewrite nodeData_cons, map_app, count_occ_app, subtree_data.
  cbn [map]. destruct (String.eqb_spec (id (data c)) to) as [E|N].
  - rewrite count_occ_cons_eq by assumption. lia.
  - rewrite count_occ_cons_neq by assumption. lia.
Qed.

Lemma insertions_le (to : string) (t : Tree) :
  (insertionsAmong (insertionsIn to) to t <= count_occ string_dec (nodeIds t) to)%nat.
Proof.
  rewrite nodeIds_nodeData.
  induction t as [|c t IH]; [simpl; lia|].
  cbn [insertionsAmong]. rewrite nodeData_cons, map_app, count_occ_app, subtree_data.
  cbn [map]. pose proof (insertions_le_node to c).
  destruct (String.eqb_spec (id (data c)) to) as [E|N].
  - rewrite count_occ_cons_eq by assumption. lia.
  - rewrite count_occ_cons_neq by assumption. lia.
Qed.

Lemma insertions_ge_node (to : string) (c : Node) :
  In to (map id (nodeData (children c))) -> (1 <= insertionsIn to c)%nat.
Proof.
  induction c as [d cs IH] using Node_ind_nested. cbn [insertionsIn children].
  induction IH as [|c cs' Hc Hcs IHcs]; [intros []|].
  cbn [insertionsAmong]. rewrite nodeData_cons, map_app, in_app_iff, subtree_data.
  cbn [map]. destruct (String.eqb_spec (id (data c)) to) as [E|N]; [lia|].
  intros [[E|Hin]|Hin]; [contradiction | |].
  - specialize (Hc Hin). lia.
  - specialize (IHcs Hin). lia.
Qed.

Lemma insertions_ge (to : string) (t : Tree) :
  In to (nodeIds t) -> (1 <= insertionsAmong (insertionsIn to) to t)%nat.
Proof.
  rewrite nodeIds_nodeData.
  induction t as [|c t IH]; [intros []|].
  cbn [insertionsAmong]. rewrite nodeData_cons, map_app, in_app_iff, subtree_data.
  cbn [map]. destruct (String.eqb_spec (id (data c)) to) as [E|N]; [lia|].
  intros [[E|Hin]|Hin]; [contradiction | |].
  - pose proof (insertions_ge_node to c Hin). lia.
  - specialize (IH Hin). lia.
Qed.

Lemma insertions_one (to : string) (t : Tree) :
  List.NoDup (nodeIds t) -> In to (nodeIds t) ->
  insertionsAmong (insertionsIn to) to t = 1%nat.
Proof.
  intros Hnd Hin. pose proof (insertions_le to t) as Hle.
  pose proof (insertions_ge to t Hin) as Hge.
  pose proof (proj1 (NoDup_count_occ string_dec (nodeIds t)) Hnd to). lia.
Qed.

(** ** Moving a node *)

Lemma moveNodeRel_data (moving : string) (relation : DataTree.Relation) (to : string)
    (t : Tree) :
  List.NoDup (nodeIds t) ->
  Permutation (nodeData (DataTree.moveNodeRel moving relation to t)) (nodeData t).
Proof.
  intros Hnd. unfold DataTree.moveNodeRel.
  destruct (DataTree.getNodeById t moving) as [n|] eqn:En; [|reflexivity]. cbv zeta.
  destruct (DataTree.getNodeById (DataTree.detach moving t) to) as [target|] eqn:Et;
    [|reflexivity].
  pose proof (detach_split moving t) as Hsplit.
  rewrite (cut_found moving t n Hnd En) in Hsplit.
  rewrite nodeData_cons in Hsplit. change (nodeData []) with (@nil NodeData) in Hsplit.
  rewrite app_nil_r in Hsplit.
  assert (Hnd' : List.NoDup (nodeIds (DataTree.detach moving t))).
  { rewrite nodeIds_nodeData in Hnd |- *.
    apply (Permutation_map id) in Hsplit. apply (Permutation_NoDup Hsplit) in Hnd.
    rewrite map_app in Hnd. now apply NoDup_app_remove_r in Hnd. }
  apply getNodeById_In in Et as [Et1 Et2]. apply In_nodeIds in Et1. rewrite Et2 in Et1.
  rewrite attach_data, (insertions_one to _ Hnd' Et1), copies_1, Hsplit.
  apply Permutation_app_comm.
Qed.

Lemma moveNodeRel_NoDup (moving : string) (relation : DataTree.Relation) (to : string)
    (t : Tree) :
  List.NoDup (nodeIds t) -> List.NoDup (nodeIds (DataTree.moveNodeRel moving relation to t)).
Proof.
  intros Hnd. rewrite nodeIds_nodeData.
  eapply Permutation_NoDup.
  - apply Permutation_map. symmetry. now apply moveNodeRel_data.
  - now rewrite <- nodeIds_nodeData.
Qed.

(** ** The merge *)

Lemma mergeStep_data (existing : list Node) (toWindow : string)
    (acc : WindowMerger.Acc) (node : Node) (t0 : Tree) :
  List.NoDup (nodeIds (WindowMerger.accTree acc)) ->
  Permutation (nodeData (WindowMerger.accTree acc)) (nodeData t0) ->
  List.NoDup (nodeIds (WindowMerger.accTree (WindowMerger.mergeStep existing toWindow acc node)))
  /\ Permutation
       (nodeData (WindowMerger.accTree (WindowMerger.mergeStep existing toWindow acc node)))
       (nodeData t0).
Proof.
  intros Hnd Hp. unfold WindowMerger.mergeStep. cbv zeta.
  repeat match goal with
         | |- context [match ?x with _ => _ end] => destruct x
         end;
    cbn [WindowMerger.accTree];
    (split; [now apply moveNodeRel_NoDup | now rewrite moveNodeRel_data]).
Qed.

Lemma mergeSteps_data (existing : list Node) (toWindow : string) (nodes : list Node)
    (t0 : Tree) : forall acc,
  List.NoDup (nodeIds (WindowMerger.accTree acc)) ->
  Permutation (nodeData (WindowMerger.accTree acc)) (nodeData t0) ->
  Permutation
    (nodeData (WindowMerger.accTree
                 (fold_left (WindowMerger.mergeStep existing toWindow) nodes acc)))
    (nodeData t0).
Proof.
  induction nodes as [|node nodes IH]; intros acc Hnd Hp; simpl; [exact Hp|].
  destruct (mergeStep_data existing toWindow acc node t0 Hnd Hp) as [Hnd' Hp'].
  now apply IH.
Qed.

(** X28.  [mergeWindowsPreservingTabIndexes] keeps every node: on a tree
    whose node ids are distinct, the nodes of the tree after the merge are
    the nodes before it, each with its attributes unchanged; only their
    places in the tree differ. *)
Theorem mergeWindowsPreservingTabIndexes_keeps_nodes (fromWindow toWindow : Node) (t : Tree) :
  List.NoDup (nodeIds t) ->
  Permutation (nodeData (WindowMerger.mergeWindowsPreservingTabIndexes fromWindow toWindow t))
              (nodeData t).
Proof.
  intros Hnd. unfold WindowMerger.mergeWindowsPreservingTabIndexes,
    WindowMerger.mergeWindowsPreservingTabIndexesAcc. cbv zeta.
  now apply mergeSteps_data.
Qed.

Lemma mergeWindowsPreservingTabIndexes_keeps_nodes_witness :
  List.NoDup (nodeIds Ex.mergeTree)
  /\ Permutation
       (nodeData (WindowMerger.mergeWindowsPreservingTabIndexes Ex.mergeFrom Ex.mergeTo
                    Ex.mergeTree))
       (nodeData Ex.mergeTree).
Proof.
  assert (Hnd : List.NoDup (nodeIds Ex.mergeTree)).
  { unfold nodeIds. simpl.
    repeat (constructor; [simpl; intuition discriminate|]). constructor. }
  split; [exact Hnd|].
  exact (mergeWindowsPreservingTabIndexes_keeps_nodes Ex.mergeFrom Ex.mergeTo Ex.mergeTree Hnd).
Defined.

(* ===================================================================== *)
(** * A run with pending detail queries is ticked *)
(* ===================================================================== *)

Section PendingRun.
Context `{Host}.

Lemma runTotals_restoreAssociatedPage (tab : Tab.t) (page : string) (st : State) :
  runTotals (restoreAssociatedPage tab page st) = runTotals st.
Proof.
  unfold runTotals. now rewrite (proj1 (restoreAssociatedPage_frame tab page st)).
Qed.

Lemma runTotals_update (runId : string) (f : RunInfo.t -> RunInfo.t) (st : State) :
  (forall runInfo, RunInfo.total (f runInfo) = RunInfo.total runInfo) ->
  runTotals (withRuns (fun runs => match runs !! runId with
                                   | Some runInfo => <[runId := f runInfo]> runs
                                   | None => runs
                                   end) st)
  = runTotals st.
Proof.
  intros Hf. unfold runTotals. simpl.
  destruct (associationRuns st !! runId) as [runInfo|] eqn:E; [|reflexivity].
  rewrite fmap_insert, Hf. apply insert_id. now rewrite lookup_fmap, E.
Qed.

Lemma runTotals_associateTabToPageNode (runId : string) (tab : Tab.t)
    (referrer : option string) (historylength : option Z) (st : State) :
  runTotals (associateTabToPageNode runId tab referrer historylength st) = runTotals st.
Proof.
  unfold associateTabToPageNode.
  set (st1 := match associationRuns st !! runId with Some _ => _ | None => st end).
  assert (H1 : runTotals st1 = runTotals st).
  { subst st1. unfold runTotals.
    destruct (associationRuns st !! runId) as [runInfo|] eqn:E; [|reflexivity].
    simpl. rewrite fmap_insert. simpl. apply insert_id. now rewrite lookup_fmap, E. }
  cbv zeta.
  destruct (DataTree.getNodeByChromeId (tree st1) (Tab.id tab)); [exact H1|].
  destruct (findPageNodeForAssociation (tree st1) _).
  - now rewrite runTotals_restoreAssociatedPage.
  - destruct (Tab.active tab && _); exact H1.
Qed.

Lemma In_detailQuery (q : Effect) (l l' : list Effect) :
  isDetailQuery q = true ->
  List.filter isDetailQuery l' = List.filter isDetailQuery l ->
  In q l' -> In q l.
Proof.
  intros Hq Hf Hin.
  assert (In q (List.filter isDetailQuery l')) by (apply filter_In; now split).
  rewrite Hf in H0. now apply filter_In in H0.
Qed.

(** [tryAssociateTab] keeps the totals of the runs, and when it returns
    [true] it has asked no tab for the details of an association. *)
Lemma tryAssociateTab_pending (runId : string) (tab : Tab.t)
    (forceNewTabAssociation : bool) (st : State) (tabId : Z) :
  runTotals (snd (tryAssociateTab runId tab forceNewTabAssociation st)) = runTotals st
  /\ (In (GetPageDetails tabId "associate" (Some runId))
         (effects (snd (tryAssociateTab runId tab forceNewTabAssociation st))) ->
      In (GetPageDetails tabId "associate" (Some runId)) (effects st)
      \/ fst (tryAssociateTab runId tab forceNewTabAssociation st) = false).
Proof.
  set (q := GetPageDetails tabId "associate" (Some runId)).
  assert (Hq : isDetailQuery q = true) by reflexivity.
  unfold tryAssociateTab.
  destruct (Tab.incognito tab); [simpl; auto|].
  destruct (negb forceNewTabAssociation && isNewTabUrl (Tab.url tab)
            && (Tab.index tab =? 0) && negb (Tab.pinned tab)); [simpl; auto|].
  assert (Hblind : forall s,
            runTotals (associateTabToPageNode runId tab None None s) = runTotals s
            /\ (In q (effects (associateTabToPageNode runId tab None None s)) ->
                In q (effects s))).
  { intros s. split; [apply runTotals_associateTabToPageNode|].
    apply (In_detailQuery q _ _ Hq).
    apply (proj1 (associateTabToPageNode_frame runId tab None None s)). }
  assert (Hrest : forall s,
            runTotals (if isNewTabUrl (Tab.url tab)
                       then (true, withTree (addTabToWindow tab (PageNode tab)) s)
                       else if negb (isScriptableUrl (Tab.url tab))
                       then (true, associateTabToPageNode runId tab None None s)
                       else let s0 := pushTabId runId (Tab.id tab) s in
                            let '(_, s1) := getPageDetails (Tab.id tab) "associate"
                                              (Some runId) s0 in
                            (false, s1)).2 = runTotals s
            /\ (In q (effects (if isNewTabUrl (Tab.url tab)
                       then (true, withTree (addTabToWindow tab (PageNode tab)) s)
                       else if negb (isScriptableUrl (Tab.url tab))
                       then (true, associateTabToPageNode runId tab None None s)
                       else let s0 := pushTabId runId (Tab.id tab) s in
                            let '(_, s1) := getPageDetails (Tab.id tab) "associate"
                                              (Some runId) s0 in
                            (false, s1)).2) ->
                In q (effects s)
                \/ (if isNewTabUrl (Tab.url tab)
                       then (true, withTree (addTabToWindow tab (PageNode tab)) s)
                       else if negb (isScriptableUrl (Tab.url tab))
                       then (true, associateTabToPageNode runId tab None None s)
                       else let s0 := pushTabId runId (Tab.id tab) s in
                            let '(_, s1) := getPageDetails (Tab.id tab) "associate"
                                              (Some runId) s0 in
                            (false, s1)).1 = false)).
  { intros s. destruct (isNewTabUrl (Tab.url tab)); [simpl; auto|].
    destruct (negb (isScriptableUrl (Tab.url tab))).
    - simpl. destruct (Hblind s) as [B1 B2]. split; [exact B1 | intros Hin; left; auto].
    - simpl. split; [|auto].
      apply (runTotals_update runId
        (fun runInfo => RunInfo.mk (RunInfo.runId runInfo) (RunInfo.total runInfo)
                          (RunInfo.count runInfo) (RunInfo.tabIds runInfo ++ [Tab.id tab]))).
      reflexivity. }
  unfold tryFastAssociateTab.
  destruct ((length (fastCandidates (tree st) tab true) =? 1)%nat
            || (0 <? length (fastCandidates (tree st) tab true))%nat
               && negb (isScriptableUrl (Tab.url tab))).
  - destruct (fastCandidates (tree st) tab true) as [|m ms]; [apply Hrest|].
    cbn [fst snd].
    destruct (restoreAssociatedPage_frame tab (id (data m)) st) as (_ & _ & R3).
    destruct (isScriptableUrl (Tab.url tab)).
    + split.
      * unfold getPageDetails. simpl. apply runTotals_restoreAssociatedPage.
      * unfold getPageDetails. cbn [snd effects emit].
        rewrite in_app_iff. intros [Hin | [E | []]]; [|discriminate].
        left. now apply (In_detailQuery q _ _ Hq R3).
    + split; [apply runTotals_restoreAssociatedPage|].
      intros Hin. left. now apply (In_detailQuery q _ _ Hq R3).
  - apply Hrest.
Qed.

Lemma associateListedTab_pending (runId : string) (st : State) (tab : Tab.t) (tabId : Z)
    (total : Z) :
  runTotals st !! runId = Some total ->
  exists total',
    runTotals (associateListedTab runId st tab) !! runId = Some total'
    /\ total <= total'
    /\ (In (GetPageDetails tabId "associate" (Some runId))
           (effects (associateListedTab runId st tab)) ->
        In (GetPageDetails tabId "associate" (Some runId)) (effects st) \/ 1 <= total' - total).
Proof.
  intros Ht. unfold associateListedTab.
  destruct (isSidebarTab tab); [exists total; repeat split; [assumption | lia | auto]|].
  destruct (DataTree.getNodeByChromeId (tree st) (Tab.id tab));
    [exists total; repeat split; [assumption | lia | auto]|].
  destruct (tryAssociateTab_pending runId tab false st tabId) as [P1 P2].
  destruct (tryAssociateTab runId tab false st) as [associated st1]. simpl in P1, P2.
  destruct associated.
  - exists total. rewrite P1. repeat split; [assumption | lia|].
    intros Hin. destruct (P2 Hin) as [Hold | Hfalse]; [now left | discriminate].
  - exists (total + 1). split; [|split; [lia|]].
    + unfold bumpTotal, runTotals. simpl.
      assert (E : RunInfo.total <$> associationRuns st1 !! runId = Some total).
      { rewrite <- lookup_fmap. fold (runTotals st1). now rewrite P1. }
      destruct (associationRuns st1 !! runId) as [runInfo|]; [|discriminate].
      rewrite lookup_fmap, lookup_insert_eq. simpl. injection E as ->. reflexivity.
    + intros Hin. right. lia.
Qed.

Lemma associateListedTabs_pending (runId : string) (tabs : list Tab.t) (tabId : Z) :
  forall (st : State) (total : Z),
    runTotals st !! runId = Some total ->
    exists total',
      runTotals (fold_left (associateListedTab runId) tabs st) !! runId = Some total'
      /\ total <= total'
      /\ (In (GetPageDetails tabId "associate" (Some runId))
             (effects (fold_left (associateListedTab runId) tabs st)) ->
          In (GetPageDetails tabId "associate" (Some runId)) (effects st)
          \/ 1 <= total' - total).
Proof.
  induction tabs as [|tab tabs IH]; intros st total Ht; simpl.
  - exists total. repeat split; [assumption | lia | auto].
  - destruct (associateListedTab_pending runId st tab tabId total Ht) as (t1 & A1 & A2 & A3).
    destruct (IH _ t1 A1) as (t2 & B1 & B2 & B3).
    exists t2. split; [exact B1|]. split; [lia|].
    intros Hin. destruct (B3 Hin) as [Hmid | Hgrow]; [|right; lia].
    destruct (A3 Hmid) as [Hold | Hgrow]; [now left | right; lia].
Qed.

End PendingRun.

(** X29.  A run that has asked a tab for the details of an association is
    never ended at its start: when the callback of [startAssociationRun]
    creates the run and, while going through the tabs, asks some tab for
    its details under that run, the run is still registered when the
    callback returns and the last thing the callback does is to arm the
    timer of the run for [associatePagesCheck]. *)
Theorem run_with_pending_details_is_ticked `{Host}
    (runId : string) (tabs : list Tab.t) (st : State) (tabId : Z) :
  associationConcurrentRuns st <= 0 ->
  ~ In (GetPageDetails tabId "associate" (Some runId)) (effects st) ->
  In (GetPageDetails tabId "associate" (Some runId))
     (effects (startAssociationRun_onTabs runId tabs st)) ->
  is_Some (associationRuns (startAssociationRun_onTabs runId tabs st) !! runId)
  /\ exists before,
       effects (startAssociationRun_onTabs runId tabs st)
       = before ++ [TimeoutReset runId ASSOCIATE_PAGES_CHECK_INTERVAL_MS].
Proof.
  intros Hidle Hfresh. unfold startAssociationRun_onTabs.
  destruct (Z.ltb_spec 0 (associationConcurrentRuns st)) as [Hbusy|_]; [lia|].
  set (st1 := withConcurrentRuns _ (withRuns _ st)). cbv zeta. fold st1.
  destruct (associateListedTabs_pending runId tabs tabId st1 0) as (total & T1 & T2 & T3).
  { unfold runTotals, st1. simpl. now rewrite lookup_fmap, lookup_insert_eq. }
  unfold runTotals in T1. rewrite lookup_fmap in T1.
  destruct (associationRuns (fold_left (associateListedTab runId) tabs st1) !! runId)
    as [runInfo|] eqn:E; [|discriminate].
  simpl in T1. injection T1 as T1.
  destruct (Z.eqb_spec (RunInfo.total runInfo) 0) as [Hzero|Hpos].
  - (* the run ends at once: no tab was asked *)
    unfold endAssociationRun. simpl. rewrite !in_app_iff. simpl.
    intros [[[Hin | [F|[]]] | [F|[]]] | [F|[]]]; try discriminate.
    exfalso. destruct (T3 Hin) as [Hold | Hgrow]; [now apply Hfresh | lia].
  - intros _. split.
    + simpl. rewrite E. now eexists.
    + simpl. now eexists.
Qed.

Lemma run_with_pending_details_is_ticked_witness :
  associationConcurrentRuns (Ex.emptyState Ex.freeTree) <= 0
  /\ is_Some (associationRuns
                (startAssociationRun_onTabs "run" [Ex.liveTab 9 5 0 "http://elsewhere/"]
                   (Ex.emptyState Ex.freeTree)) !! "run")
  /\ exists before,
       effects (startAssociationRun_onTabs "run" [Ex.liveTab 9 5 0 "http://elsewhere/"]
                  (Ex.emptyState Ex.freeTree))
       = before ++ [TimeoutReset "run" ASSOCIATE_PAGES_CHECK_INTERVAL_MS].
Proof.
  split; [simpl; lia|].
  apply (run_with_pending_details_is_ticked "run" [Ex.liveTab 9 5 0 "http://elsewhere/"]
           (Ex.emptyState Ex.freeTree) 9).
  - simpl. lia.
  - simpl. intros [].
  - vm_compute. now left.
Defined.

(* ===================================================================== *)
(** * Every scored pairing is visited *)
(* ===================================================================== *)

Lemma insertByString_Permutation (x : WindowAssociation.Score) (l : list WindowAssociation.Score) :
  Permutation (WindowAssociation.insertByString x l) (x :: l).
Proof.
  induction l as [|y l IH]; simpl; [reflexivity|].
  destruct (String.leb _ _); [reflexivity|].
  rewrite IH. apply perm_swap.
Qed.

Lemma sortDefault_Permutation (l : list WindowAssociation.Score) :
  Permutation (WindowAssociation.sortDefault l) l.
Proof.
  unfold WindowAssociation.sortDefault. induction l as [|x l IH]; simpl; [reflexivity|].
  now rewrite insertByString_Permutation, IH.
Qed.

Lemma Permutation_flat_map_index {A B} (f : A -> list B) (l l' : list A) :
  Permutation l l' -> Permutation (flat_map f l) (flat_map f l').
Proof.
  intros Hp. induction Hp; simpl.
  - reflexivity.
  - now apply Permutation_app_head.
  - rewrite !app_assoc. apply Permutation_app_tail, Permutation_app_comm.
  - etransitivity; eassumption.
Qed.

Lemma lookupCount_recorded (counts : list (WindowAssociation.Score * list WindowAssociation.Pair)) :
  List.NoDup (map (fun e => F64.toString (fst e)) counts) ->
  flat_map (fun c => map (fun p => (c, p)) (WindowAssociation.lookupCount counts c))
           (map fst counts)
  = recordedPairings counts.
Proof.
  unfold recordedPairings.
  assert (G : forall (all : list (WindowAssociation.Score * list WindowAssociation.Pair)) l,
             (forall e, In e l -> WindowAssociation.lookupCount all (fst e) = snd e) ->
             flat_map (fun c => map (fun p => (c, p)) (WindowAssociation.lookupCount all c))
                      (map fst l)
             = flat_map (fun e => map (fun p => (fst e, p)) (snd e)) l).
  { intros all l. induction l as [|e l IH]; intros Hl; simpl; [reflexivity|].
    rewrite Hl by now left. f_equal. apply IH. intros e' He'. apply Hl. now right. }
  intros Hnd. apply G.
  induction counts as [|[c ps] rest IH]; [intros e []|].
  simpl in Hnd. inversion Hnd as [|? ? Hn Hr]; subst.
  intros e [<-|He].
  - unfold WindowAssociation.lookupCount. simpl. now rewrite String.eqb_refl.
  - unfold WindowAssociation.lookupCount. simpl.
    destruct (String.eqb_spec (F64.toString c) (F64.toString (fst e))) as [E|N].
    + exfalso. apply Hn. rewrite E.
      apply (in_map (fun e => F64.toString (fst e))). exact He.
    + now apply IH.
Qed.

Lemma countsPush_keys (count : WindowAssociation.Score) (pair : WindowAssociation.Pair)
    (counts : list (WindowAssociation.Score * list WindowAssociation.Pair)) :
  map (fun e => F64.toString (fst e)) (WindowAssociation.countsPush count pair counts)
  = if existsb (String.eqb (F64.toString count)) (map (fun e => F64.toString (fst e)) counts)
    then map (fun e => F64.toString (fst e)) counts
    else map (fun e => F64.toString (fst e)) counts ++ [F64.toString count].
Proof.
  induction counts as [|[c ps] rest IH]; simpl; [reflexivity|].
  rewrite (String.eqb_sym (F64.toString count) (F64.toString c)).
  destruct (String.eqb (F64.toString c) (F64.toString count)); simpl; [reflexivity|].
  rewrite IH. now destruct (existsb _ _).
Qed.

Lemma countsPush_NoDup (count : WindowAssociation.Score) (pair : WindowAssociation.Pair)
    (counts : list (WindowAssociation.Score * list WindowAssociation.Pair)) :
  List.NoDup (map (fun e => F64.toString (fst e)) counts) ->
  List.NoDup (map (fun e => F64.toString (fst e))
                (WindowAssociation.countsPush count pair counts)).
Proof.
  intros Hnd. rewrite countsPush_keys.
  destruct (existsb _ _) eqn:E; [exact Hnd|].
  apply NoDup_snoc; [exact Hnd | now apply existsb_Seqb_false].
Qed.

Lemma tallyWindows_NoDup (tabs : list Tab.t) (wins : list Node) :
  forall tally tally',
    List.NoDup (map (fun e => F64.toString (fst e)) (WindowAssociation.counts tally)) ->
    fold_left (WindowAssociation.tallyWindow tabs) wins (Some tally) = Some tally' ->
    List.NoDup (map (fun e => F64.toString (fst e)) (WindowAssociation.counts tally')).
Proof.
  assert (Hnone : forall l, fold_left (WindowAssociation.tallyWindow tabs) l None = None)
    by (induction l as [|x l IHl]; [reflexivity | exact IHl]).
  induction wins as [|win wins IH]; intros tally tally' Hnd; simpl; [now intros [= <-]|].
  destruct (WindowAssociation.scoreWindow tabs win) as [[groups pageCount]|];
    [|rewrite Hnone; discriminate].
  apply IH. simpl. clear IH.
  revert Hnd. generalize (WindowAssociation.counts tally).
  induction groups as [|g gs IHg]; intros cs Hnd; simpl; [exact Hnd|].
  apply IHg. now apply countsPush_NoDup.
Qed.

(** X30.  The assignment loop of [associateWindowstoWindowNodes] visits
    every scored pairing of a window node with a live window exactly
    once, with the score recorded for it: the pairings in the order the
    loop takes them are those recorded in [counts], rearranged. *)
Theorem processingOrder_visits_every_pairing (t : Tree) (tabs : list Tab.t)
    (tally : WindowAssociation.Tally) :
  WindowAssociation.tallyWindows t tabs = Some tally ->
  Permutation (WindowAssociation.processingOrder (WindowAssociation.counts tally))
              (recordedPairings (WindowAssociation.counts tally)).
Proof.
  intros Ht.
  assert (Hnd : List.NoDup (map (fun e => F64.toString (fst e))
                             (WindowAssociation.counts tally))).
  { unfold WindowAssociation.tallyWindows in Ht.
    eapply (tallyWindows_NoDup tabs _ (WindowAssociation.mkTally [] ∅) tally); [|exact Ht].
    constructor. }
  rewrite <- (lookupCount_recorded _ Hnd).
  unfold WindowAssociation.processingOrder. cbv zeta.
  etransitivity.
  - apply Permutation_flat_map_index.
    etransitivity; [symmetry; apply Permutation_rev | apply sortDefault_Permutation].
  - generalize (map fst (WindowAssociation.counts tally)). intros keys.
    induction keys as [|k keys IH]; simpl; [reflexivity|].
    apply Permutation_app; [|exact IH].
    apply Permutation_map. symmetry. apply Permutation_rev.
Qed.

Lemma processingOrder_visits_every_pairing_witness :
  exists tally,
    WindowAssociation.tallyWindows Ex.scoreTree Ex.scoreTabs = Some tally
    /\ Permutation (WindowAssociation.processingOrder (WindowAssociation.counts tally))
                   (recordedPairings (WindowAssociation.counts tally)).
Proof.
  destruct (WindowAssociation.tallyWindows Ex.scoreTree Ex.scoreTabs) as [tally|] eqn:E;
    [|vm_compute in E; discriminate].
  exists tally. split; [reflexivity|].
  exact (processingOrder_visits_every_pairing Ex.scoreTree Ex.scoreTabs tally E).
Defined.

(* ===================================================================== *)
(** * Fast association binds the tab *)
(* ===================================================================== *)

Lemma find_unique {A} (key : A -> string) (l : list A) (x : A) :
  List.NoDup (map key l) -> In x l ->
  List.find (fun y => String.eqb (key y) (key x)) l = Some x.
Proof.
  induction l as [|y l IH]; simpl; intros Hnd Hin; [destruct Hin|].
  inversion Hnd as [|? ? Hn Hr]; subst.
  destruct Hin as [->|Hin]; [now rewrite String.eqb_refl|].
  destruct (String.eqb_spec (key y) (key x)) as [E|_]; [|now apply IH].
  exfalso. apply Hn. rewrite E. now apply in_map.
Qed.

Lemma NoDup_app_disjoint {A} (l1 l2 : list A) (a : A) :
  List.NoDup (l1 ++ l2) -> In a l1 -> In a l2 -> False.
Proof.
  induction l1 as [|x l1 IH]; simpl; intros Hnd H1 H2; [destruct H1|].
  inversion Hnd as [|? ? Hn Hr]; subst.
  destruct H1 as [->|H1]; [|now apply IH].
  apply Hn. apply in_or_app. now right.
Qed.

Lemma dataOf_unique (t : Tree) (d : NodeData) :
  List.NoDup (nodeIds t) -> In d (nodeData t) -> dataOf t (id d) = Some d.
Proof.
  intros Hnd Hin. rewrite dataOf_find. rewrite nodeIds_nodeData in Hnd.
  now apply (find_unique id).
Qed.

Lemma In_top_nodes (t : Tree) (c : Node) : In c t -> In c (DataTree.nodes t).
Proof.
  intros Hin. unfold DataTree.nodes. apply in_flat_map. exists c. split; [exact Hin|].
  destruct c. now left.
Qed.

Lemma subtree_trans (n : Node) : forall w x,
  In w (DataTree.subtree n) -> In x (DataTree.subtree w) -> In x (DataTree.subtree n).
Proof.
  induction n as [d cs IH] using Node_ind_nested. intros w x Hw Hx.
  simpl in Hw. destruct Hw as [<-|Hw]; [exact Hx|].
  simpl. right. apply in_flat_map in Hw as (c & Hc & Hw). apply in_flat_map.
  exists c. split; [exact Hc|].
  rewrite List.Forall_forall in IH. now apply (IH c Hc w x).
Qed.

Lemma nodes_children_In (t : Tree) (w x : Node) :
  In w (DataTree.nodes t) -> In x (DataTree.nodes (children w)) -> In x (DataTree.nodes t).
Proof.
  intros Hw Hx. unfold DataTree.nodes in Hw. apply in_flat_map in Hw as (c & Hc & Hw).
  unfold DataTree.nodes. apply in_flat_map. exists c. split; [exact Hc|].
  apply (subtree_trans c w x Hw). destruct w as [d cs]. simpl. right. exact Hx.
Qed.

(** ** [tree.mergeNodes] keeps the other nodes *)

Lemma appendChildrenIn_absent (cs' : list Node) (b : string) (n : Node) :
  ~ In b (map id (map data (DataTree.subtree n))) ->
  DataTree.appendChildrenIn cs' b n = n.
Proof.
  induction n as [d cs IH] using Node_ind_nested. intros Hn. simpl.
  destruct (String.eqb_spec (id d) b) as [E|_]; [exfalso; apply Hn; now left|].
  f_equal. simpl in Hn.
  assert (Hcs : ~ In b (map id (nodeData cs))) by (intros Hin; apply Hn; now right).
  clear Hn. induction IH as [|c rest Hc _ IHcs]; simpl; [reflexivity|].
  rewrite nodeData_cons, map_app, in_app_iff in Hcs.
  rewrite Hc by tauto. rewrite IHcs by tauto. reflexivity.
Qed.

Lemma appendChildren_absent (cs' : list Node) (b : string) (t : Tree) :
  ~ In b (nodeIds t) -> map (DataTree.appendChildrenIn cs' b) t = t.
Proof.
  rewrite nodeIds_nodeData.
  induction t as [|c t IH]; simpl; intros Hn; [reflexivity|].
  rewrite nodeData_cons, map_app, in_app_iff in Hn.
  rewrite appendChildrenIn_absent by tauto. rewrite IH by tauto. reflexivity.
Qed.

Lemma appendChildren_data (cs' : list Node) (b : string) (t : Tree) (c : Node) :
  List.NoDup (nodeIds t) -> In c t -> id (data c) = b ->
  Permutation (nodeData (map (DataTree.appendChildrenIn cs' b) t))
              (nodeData t ++ nodeData cs').
Proof.
  induction t as [|x rest IH]; intros Hnd Hin Hb; [destruct Hin|].
  rewrite nodeIds_nodeData, nodeData_cons, map_app in Hnd.
  assert (Hhead : In (id (data x)) (map id (map data (DataTree.subtree x)))).
  { destruct x. now left. }
  simpl map. rewrite !nodeData_cons.
  destruct Hin as [->|Hin].
  - assert (Hrest : ~ In b (nodeIds rest)).
    { rewrite nodeIds_nodeData. intros Hin.
      apply (NoDup_app_disjoint _ _ b Hnd); [now rewrite <- Hb | exact Hin]. }
    rewrite (appendChildren_absent cs' b rest Hrest).
    destruct c as [d cs]. simpl in Hb. simpl DataTree.appendChildrenIn.
    rewrite Hb, String.eqb_refl. rewrite !subtree_data. simpl data. simpl children.
    rewrite nodeData_app. simpl.
    apply perm_skip. rewrite <- !app_assoc. apply Permutation_app_head.
    apply Permutation_app_comm.
  - assert (Hx : ~ In b (map id (map data (DataTree.subtree x)))).
    { intros Hbx.
      apply (NoDup_app_disjoint _ _ b Hnd); [exact Hbx|].
      rewrite <- nodeIds_nodeData. rewrite <- Hb. apply In_nodeIds. now apply In_top_nodes. }
    rewrite (appendChildrenIn_absent cs' b x Hx).
    rewrite <- !app_assoc. apply Permutation_app_head. apply IH; [|exact Hin | exact Hb].
    rewrite nodeIds_nodeData. now apply List.NoDup_app_remove_l in Hnd.
Qed.

Lemma data_detachIn (i : string) (c : Node) : data (DataTree.detachIn i c) = data c.
Proof. now destruct c. Qed.

Lemma mergeNodes_data (a b : string) (t : Tree) (na c : Node) :
  List.NoDup (nodeIds t) -> DataTree.getNodeById t a = Some na ->
  In c t -> id (data c) = b -> b <> a ->
  Permutation (data na :: nodeData (DataTree.mergeNodes a b t)) (nodeData t).
Proof.
  intros Hnd Hget Hc Hb Hne. unfold DataTree.mergeNodes. rewrite Hget.
  pose proof (detach_split a t) as Hsplit.
  rewrite (cut_found a t na Hnd Hget) in Hsplit.
  assert (Hna : nodeData [na] = data na :: nodeData (children na)).
  { rewrite nodeData_cons, subtree_data. change (nodeData []) with (@nil NodeData).
    apply app_nil_r. }
  rewrite Hna in Hsplit.
  assert (Hnd' : List.NoDup (nodeIds (DataTree.detach a t))).
  { rewrite nodeIds_nodeData in Hnd |- *.
    apply (Permutation_NoDup (Permutation_map id Hsplit)) in Hnd.
    rewrite map_app in Hnd. now apply List.NoDup_app_remove_r in Hnd. }
  assert (Hc' : In (DataTree.detachIn a c) (DataTree.detach a t)).
  { unfold DataTree.detach. apply in_flat_map. exists c. split; [exact Hc|].
    destruct (String.eqb_spec (id (data c)) a) as [E|_]; [congruence | now left]. }
  pose proof (appendChildren_data (children na) b (DataTree.detach a t) _ Hnd' Hc'
                ltac:(now rewrite data_detachIn)) as Happ.
  rewrite Hsplit. rewrite Happ.
  apply Permutation_cons_app. reflexivity.
Qed.

Lemma mergeNodes_dataOf (a b : string) (t : Tree) (na c : Node) (i : string) (d : NodeData) :
  List.NoDup (nodeIds t) -> DataTree.getNodeById t a = Some na ->
  In c t -> id (data c) = b -> b <> a ->
  dataOf t i = Some d -> i <> a ->
  dataOf (DataTree.mergeNodes a b t) i = Some d.
Proof.
  intros Hnd Hget Hc Hb Hne Hd Hi.
  pose proof (mergeNodes_data a b t na c Hnd Hget Hc Hb Hne) as Hp.
  apply dataOf_In in Hd as [Hin <-]. fold (nodeData t) in Hin.
  apply (Permutation_in _ (Permutation_sym Hp)) in Hin.
  destruct Hin as [<-|Hin].
  - exfalso. apply Hi. now apply getNodeById_In in Hget.
  - apply dataOf_unique; [|exact Hin].
    rewrite nodeIds_nodeData in Hnd |- *.
    apply (Permutation_NoDup (Permutation_map id (Permutation_sym Hp))) in Hnd.
    simpl in Hnd. now inversion Hnd.
Qed.

Lemma nodeIds_updateNode (target : string) (details : list Detail) (t : Tree) :
  nodeIds (DataTree.updateNode target details t) = nodeIds t.
Proof.
  rewrite !nodeIds_data, data_nodes_updateNode, !map_map.
  apply map_ext. intros n. apply patched_id.
Qed.

Lemma dataOf_updateNode_other (target : string) (details : list Detail) (t : Tree)
    (i : string) :
  i <> target -> dataOf (DataTree.updateNode target details t) i = dataOf t i.
Proof.
  intros Hne. rewrite dataOf_updateNode.
  destruct (String.eqb_spec i target) as [E|_]; [contradiction|].
  now destruct (dataOf t i).
Qed.

(** ** Restoring the page binds it *)

Section FastBinding.
Context `{Host}.

Lemma restoreParentWindow_dataOf (parentWindowNode : option Node) (childPageNode : Node)
    (windowId : Z) (t : Tree) (i : string) (d : NodeData) :
  List.NoDup (nodeIds t) ->
  (forall parent, parentWindowNode = Some parent -> In parent t) ->
  windowIsLive t windowId ->
  dataOf t i = Some d -> elemType d = page ->
  dataOf (restoreParentWindowViaUniqueChildPageNode parentWindowNode childPageNode windowId t) i
  = Some d.
Proof.
  intros Hnd Htop Hlive Hd Hpage.
  unfold restoreParentWindowViaUniqueChildPageNode.
  destruct parentWindowNode as [parent|]; [|exact Hd].
  destruct (isWindowNode parent) eqn:Ew; simpl; [|exact Hd].
  destruct (hibernated (data parent)) eqn:Eh; simpl; [|exact Hd].
  destruct (findPageNodeForAssociation t _); [exact Hd|].
  pose proof (Htop parent eq_refl) as Hp.
  assert (Hi : i <> id (data parent)).
  { intros ->. rewrite (dataOf_unique t (data parent) Hnd) in Hd.
    - injection Hd as <-. unfold isWindowNode in Ew. rewrite Hpage in Ew. discriminate.
    - unfold nodeData. apply in_map. now apply In_top_nodes. }
  unfold expandNode. rewrite !dataOf_updateNode_other by exact Hi.
  destruct (DataTree.getNodeByChromeId t windowId) as [ew|] eqn:Eg; [|exact Hd].
  unfold DataTree.getNodeByChromeId, DataTree.getNode in Eg.
  apply find_some in Eg as [Hew Hc]. apply looseEq_spec in Hc.
  destruct (Hlive ew Hew Hc) as [Hwin Hawake].
  assert (Hget : exists na, DataTree.getNodeById t (id (data ew)) = Some na).
  { destruct (dataOf_exists t (id (data ew)) (In_nodeIds t ew Hew)) as [x Hx].
    unfold dataOf in Hx. destruct (DataTree.getNodeById t (id (data ew))) as [na|];
      [now exists na | discriminate]. }
  destruct Hget as [na Hget].
  apply (mergeNodes_dataOf _ _ t na parent i d Hnd Hget Hp eq_refl); [| exact Hd |].
  - intros E.
    assert (parent = ew).
    { apply (NoDup_map_injective (fun n => id (data n)) (DataTree.nodes t));
        [exact Hnd | now apply In_top_nodes | exact Hew | exact E]. }
    subst ew. congruence.
  - intros ->. rewrite (dataOf_unique t (data ew) Hnd) in Hd.
    + injection Hd as <-. unfold isWindowNode in Hwin. rewrite Hpage in Hwin. discriminate.
    + unfold nodeData. now apply in_map.
Qed.

(** [restoreAssociatedPage(tab, page)] leaves the page node bound to the
    tab. *)
Lemma restoreAssociatedPage_binds (tab : Tab.t) (m : Node) (st : State) :
  In m (DataTree.nodes (tree st)) -> isPageNode m = true ->
  List.NoDup (nodeIds (tree st)) ->
  Tab.id tab <> Tab.windowId tab ->
  windowIsLive (tree st) (Tab.windowId tab) ->
  keepsAttributes ->
  dataOf (tree (restoreAssociatedPage tab (id (data m)) st)) (id (data m))
  = Some (boundTo tab (data m)).
Proof.
  intros Hm Hpage Hnd Hids Hlive Hhost.
  set (details := [set_restored true; set_hibernated false; set_restorable false;
                   set_chromeId (Some (Tab.id tab)); set_windowId (Some (Tab.windowId tab));
                   set_index (Some (Tab.index tab)); set_pinned (Tab.pinned tab)]).
  set (t1 := DataTree.updateNode (id (data m)) details (tree st)).
  assert (Hd : dataOf (tree st) (id (data m)) = Some (data m)).
  { apply dataOf_unique; [exact Hnd | unfold nodeData; now apply in_map]. }
  assert (Hd1 : dataOf t1 (id (data m)) = Some (boundTo tab (data m))).
  { subst t1. rewrite dataOf_updateNode, Hd. simpl. now rewrite String.eqb_refl. }
  assert (Hnd1 : List.NoDup (nodeIds t1)).
  { subst t1. now rewrite nodeIds_updateNode. }
  assert (Hlive1 : windowIsLive t1 (Tab.windowId tab)).
  { intros n Hn Hc. subst t1. rewrite nodes_updateNode in Hn.
    apply in_map_iff in Hn as (n0 & <- & Hn0).
    rewrite data_updateNodeIn in Hc. unfold isWindowNode. rewrite data_updateNodeIn.
    destruct (String.eqb (id (data n0)) (id (data m))).
    - exfalso. simpl in Hc. injection Hc as Hc. contradiction.
    - now apply Hlive. }
  assert (Htree : tree (restoreAssociatedPage tab (id (data m)) st)
                  = fixPinnedUnpinnedTabOrder (id (data m))
                      (match DataTree.getNodeById t1 (id (data m)) with
                       | Some pageNode =>
                           restoreParentWindowViaUniqueChildPageNode
                             (DataTree.topParent t1 (id (data m))) pageNode
                             (Tab.windowId tab) t1
                       | None => t1
                       end)).
  { unfold restoreAssociatedPage. fold details.
    destruct (Tab.active tab && Js.looseEq getFocused (Some (Tab.windowId tab))); simpl;
      fold t1; now destruct (DataTree.getNodeById t1 (id (data m))). }
  rewrite Htree, Hhost.
  destruct (DataTree.getNodeById t1 (id (data m))) as [pageNode|]; [|exact Hd1].
  apply restoreParentWindow_dataOf; try assumption.
  - intros parent Ep. unfold DataTree.topParent in Ep. now apply find_some in Ep as [Ep _].
  - simpl. unfold isPageNode in Hpage. destruct (elemType (data m)); (reflexivity || discriminate).
Qed.

End FastBinding.

(** C5 (as amended): [tryFastAssociateTab] binds the tab exactly when
    exactly one candidate exists, or at least one exists and the url of
    the tab is not scriptable; the node bound is the first candidate; the
    candidates are the hibernated page nodes (restorable when
    [mustBeRestorable] is set) equal to the tab on url, index, incognito
    and pinned that lie under the node already carrying the window id of
    the tab when there is one, and anywhere in the tree otherwise; and a
    tab whose url is not scriptable is bound without any detail query.
    A tab that is not bound leaves the state as it was.  Binding is
    [restoreAssociatedPage] for the node bound, followed by the request
    for the details to store when the url is scriptable; on a tree whose
    ids are distinct, where the id of the tab is not that of its window
    and no node other than that of a live window carries the id of the
    window, it leaves the node with the id, the window id, the position and
    the pinned state of the tab, restored, and neither hibernated nor
    restorable, as long as the host keeps the attributes of the nodes when
    it reorders pinned tabs. *)
Theorem tryFastAssociateTab_binds_iff `{Host}
    (tab : Tab.t) (mustBeRestorable : bool) (st : State) :
  (fst (tryFastAssociateTab tab mustBeRestorable st) <> None
   <-> bindsImmediately
         (List.filter (fastMatches tab mustBeRestorable) (fastScope (tree st) tab)) tab)
  /\ (forall m, fst (tryFastAssociateTab tab mustBeRestorable st) = Some m ->
        hd_error (List.filter (fastMatches tab mustBeRestorable)
                    (fastScope (tree st) tab)) = Some m)
  /\ (forall e, In e (List.filter (fastMatches tab mustBeRestorable)
                        (fastScope (tree st) tab))
        <-> In e (fastScope (tree st) tab)
            /\ isPageNode e = true /\ hibernated (data e) = true
            /\ (mustBeRestorable = true -> restorable (data e) = true)
            /\ url (data e) = Tab.url tab /\ index (data e) = Some (Tab.index tab)
            /\ incognito (data e) = Tab.incognito tab
            /\ pinned (data e) = Tab.pinned tab)
  /\ (isScriptableUrl (Tab.url tab) = false ->
      List.filter isDetailQuery (effects (snd (tryFastAssociateTab tab mustBeRestorable st)))
      = List.filter isDetailQuery (effects st))
  /\ (fst (tryFastAssociateTab tab mustBeRestorable st) = None ->
      snd (tryFastAssociateTab tab mustBeRestorable st) = st)
  /\ (forall m, fst (tryFastAssociateTab tab mustBeRestorable st) = Some m ->
      snd (tryFastAssociateTab tab mustBeRestorable st)
      = (if isScriptableUrl (Tab.url tab)
         then emit (GetPageDetails (Tab.id tab) "store" None)
                   (restoreAssociatedPage tab (id (data m)) st)
         else restoreAssociatedPage tab (id (data m)) st))
  /\ (forall m, fst (tryFastAssociateTab tab mustBeRestorable st) = Some m ->
      List.NoDup (nodeIds (tree st)) ->
      Tab.id tab <> Tab.windowId tab ->
      windowIsLive (tree st) (Tab.windowId tab) ->
      keepsAttributes ->
      dataOf (tree (snd (tryFastAssociateTab tab mustBeRestorable st))) (id (data m))
      = Some (boundTo tab (data m))).
Proof.
  assert (Hstate : (fst (tryFastAssociateTab tab mustBeRestorable st) = None ->
                    snd (tryFastAssociateTab tab mustBeRestorable st) = st)
                   /\ (forall m, fst (tryFastAssociateTab tab mustBeRestorable st) = Some m ->
                       snd (tryFastAssociateTab tab mustBeRestorable st)
                       = (if isScriptableUrl (Tab.url tab)
                          then emit (GetPageDetails (Tab.id tab) "store" None)
                                    (restoreAssociatedPage tab (id (data m)) st)
                          else restoreAssociatedPage tab (id (data m)) st))).
  { unfold tryFastAssociateTab.
    destruct (fastCandidates (tree st) tab mustBeRestorable) as [|m0 [|m' ms]]; simpl.
    - split; [reflexivity | discriminate].
    - split; [discriminate|]. intros m [= <-].
      now destruct (isScriptableUrl (Tab.url tab)).
    - destruct (isScriptableUrl (Tab.url tab)); simpl.
      + split; [reflexivity | discriminate].
      + split; [discriminate|]. now intros m [= <-]. }
  assert (Hbase :
    (fst (tryFastAssociateTab tab mustBeRestorable st) <> None
     <-> bindsImmediately
           (List.filter (fastMatches tab mustBeRestorable) (fastScope (tree st) tab)) tab)
    /\ (forall m, fst (tryFastAssociateTab tab mustBeRestorable st) = Some m ->
          hd_error (List.filter (fastMatches tab mustBeRestorable)
                      (fastScope (tree st) tab)) = Some m)
    /\ (forall e, In e (List.filter (fastMatches tab mustBeRestorable)
                          (fastScope (tree st) tab))
          <-> In e (fastScope (tree st) tab)
              /\ isPageNode e = true /\ hibernated (data e) = true
              /\ (mustBeRestorable = true -> restorable (data e) = true)
              /\ url (data e) = Tab.url tab /\ index (data e) = Some (Tab.index tab)
              /\ incognito (data e) = Tab.incognito tab
              /\ pinned (data e) = Tab.pinned tab)
    /\ (isScriptableUrl (Tab.url tab) = false ->
        List.filter isDetailQuery (effects (snd (tryFastAssociateTab tab mustBeRestorable st)))
        = List.filter isDetailQuery (effects st))).
  { unfold tryFastAssociateTab, bindsImmediately.
    rewrite fastCandidates_scope.
    set (matches := List.filter (fastMatches tab mustBeRestorable) (fastScope (tree st) tab)).
    split; [split | split; [| split]].
    - destruct matches as [|m [|m' ms]]; simpl.
      + intros E; now destruct E.
      + intros _; now left.
      + destruct (isScriptableUrl (Tab.url tab)); simpl.
        * intros E; now destruct E.
        * intros _. right. split; [lia | reflexivity].
    - destruct matches as [|m [|m' ms]]; simpl.
      + intros [E | [E _]]; [discriminate | lia].
      + intros _; discriminate.
      + intros [E | [_ E]]; [discriminate|]. rewrite E. simpl. discriminate.
    - destruct matches as [|m0 [|m' ms]]; simpl; intros m.
      + discriminate.
      + intros [= ->]. reflexivity.
      + destruct (isScriptableUrl (Tab.url tab)); simpl;
          [discriminate | intros [= ->]; reflexivity].
    - intros e. subst matches. rewrite filter_In. split.
      + intros [Hin Hm]; split; [assumption|].
        unfold fastMatches in Hm.
        repeat (apply andb_prop in Hm as [Hm ?]).
        repeat split; try assumption.
        * intros ->. simpl in *. assumption.
        * symmetry. now apply String.eqb_eq.
        * symmetry. now apply looseEq_spec.
        * symmetry. now apply Bool.eqb_prop.
        * symmetry. now apply Bool.eqb_prop.
      + intros (Hin & Hp & Hh & Hr & Hu & Hi & Hinc & Hpin).
        split; [assumption|]. unfold fastMatches.
        rewrite Hp, Hh, Hu, Hi, Hinc, Hpin, String.eqb_refl, !Bool.eqb_reflx.
        simpl. rewrite Z.eqb_refl.
        destruct mustBeRestorable; simpl; [now rewrite Hr | reflexivity].
    - intros Hns. rewrite Hns.
      destruct matches as [|m [|m' ms]]; simpl; try reflexivity;
        apply restoreAssociatedPage_frame. }
  destruct Hbase as (B1 & B2 & B3 & B4). destruct Hstate as (S1 & S2).
  repeat (split; [assumption|]).
  intros m Hm Hnd Hids Hlive Hhost.
  rewrite (S2 m Hm).
  assert (Hin : In m (List.filter (fastMatches tab mustBeRestorable)
                        (fastScope (tree st) tab))).
  { specialize (B2 m Hm). destruct (List.filter _ _) as [|x xs]; [discriminate|].
    injection B2 as ->. now left. }
  apply B3 in Hin as (Hscope & Hpage & _).
  assert (Hnode : In m (DataTree.nodes (tree st))).
  { unfold fastScope in Hscope.
    destruct (DataTree.getNodeByChromeId (tree st) (Tab.windowId tab)) as [w|] eqn:Ew;
      [|exact Hscope].
    unfold DataTree.getNodeByChromeId, DataTree.getNode in Ew.
    apply find_some in Ew as [Hw _]. now apply (nodes_children_In (tree st) w m). }
  destruct (isScriptableUrl (Tab.url tab)); simpl;
    now apply restoreAssociatedPage_binds.
Qed.

Lemma tryFastAssociateTab_binds_iff_witness :
  option_map (fun n => id (data n))
    (fst (tryFastAssociateTab Ex.settingsTab true (Ex.emptyState Ex.settingsTree)))
  = Some "s1"
  /\ List.NoDup (nodeIds (tree (Ex.emptyState Ex.settingsTree)))
  /\ Tab.id Ex.settingsTab <> Tab.windowId Ex.settingsTab
  /\ windowIsLive (tree (Ex.emptyState Ex.settingsTree)) (Tab.windowId Ex.settingsTab)
  /\ keepsAttributes
  /\ dataOf (tree (snd (tryFastAssociateTab Ex.settingsTab true
                          (Ex.emptyState Ex.settingsTree)))) "s1"
     = Some (boundTo Ex.settingsTab (data (Ex.sleepingNode "s1" 0 "chrome://settings/"))).
Proof.
  assert (Hnd : List.NoDup (nodeIds (tree (Ex.emptyState Ex.settingsTree)))).
  { unfold nodeIds. simpl. repeat (constructor; [simpl; intuition discriminate|]). constructor. }
  assert (Hlive : windowIsLive (tree (Ex.emptyState Ex.settingsTree))
                    (Tab.windowId Ex.settingsTab)).
  { intros n Hn Hc. simpl in Hn.
    repeat (destruct Hn as [<-|Hn]; [discriminate Hc|]). destruct Hn. }
  assert (Hhost : keepsAttributes) by (intros page t i; reflexivity).
  split; [reflexivity|]. split; [exact Hnd|]. split; [discriminate|].
  split; [exact Hlive|]. split; [exact Hhost|].
  exact (proj2 (proj2 (proj2 (proj2 (proj2 (proj2
           (tryFastAssociateTab_binds_iff Ex.settingsTab true
              (Ex.emptyState Ex.settingsTree)))))))
           (Ex.sleepingNode "s1" 0 "chrome://settings/") eq_refl Hnd
           ltac:(discriminate) Hlive Hhost).
Defined.
